(** * etread-front: adapters and chapter cache

    A shallow embedding of the content pipeline of the reader:
    - [TxtAdapter] (chapter loading and paragraph chunking),
    - [EpubAdapter] (tree walk, image truncation, chunking with image
      attachment), in its two revisions found in the repository,
    - [ChapterCache] (sliding-window cache with LRU eviction),
    together with the properties of the layer sequences and of the cache.

    Conventions.  A JavaScript string is a [string] holding its UTF-8
    encoding; [JS.length] counts UTF-16 code units, as [String.prototype.length]
    does.  JavaScript numbers that hold indices, sizes and timestamps are
    integers of [Z].  The raw book bytes are kept as what the platform
    decoders make of them (see [ArrayBuffer]). *)

From Stdlib Require Import List ZArith Lia Bool String Ascii DecimalString.
Import ListNotations.

Local Open Scope string_scope.
Local Open Scope list_scope.
Local Open Scope Z_scope.

Set Warnings "-register-all,-abstract-large-number".

(* ================================================================== *)
(** ** JavaScript string primitives used by the adapters *)

Module JS.

(** UTF-16 code units contributed by one byte of a UTF-8 encoding:
    a continuation byte adds nothing, the leader of a four-byte sequence
    stands for a surrogate pair. *)
Definition codeUnits (c : ascii) : Z :=
  let n := Z.of_N (N_of_ascii c) in
  if n <? 128 then 1 else if n <? 192 then 0 else if n <? 240 then 1 else 2.

(** [s.length] *)
Fixpoint length (s : string) : Z :=
  match s with
  | EmptyString => 0
  | String c r => codeUnits c + length r
  end.

(** Truthiness of a string: the empty string is falsy. *)
Definition truthy (s : string) : bool :=
  match s with EmptyString => false | _ => true end.

(** Truthiness of [string | undefined]. *)
Definition truthyOpt (o : option string) : bool :=
  match o with Some s => truthy s | None => false end.

(** [s.startsWith(p)] *)
Definition startsWith (s p : string) : bool := String.prefix p s.

(** [s.split(sep)] for a one-character separator. *)
Fixpoint split (sep : ascii) (s : string) : list string :=
  match s with
  | EmptyString => [EmptyString]
  | String c r =>
      let parts := split sep r in
      if Ascii.eqb c sep then EmptyString :: parts
      else match parts with
           | [] => [String c EmptyString]
           | p :: ps => String c p :: ps
           end
  end.

(** [parts.join(sep)] *)
Definition join (sep : string) (parts : list string) : string :=
  String.concat sep parts.

(** [s.lastIndexOf(sep)], in bytes; [-1] when [sep] does not occur. *)
Fixpoint lastIndexOf (sep : ascii) (s : string) : Z :=
  match s with
  | EmptyString => -1
  | String c r =>
      let k := lastIndexOf sep r in
      if 0 <=? k then k + 1
      else if Ascii.eqb c sep then 0 else -1
  end.

(** [s.substring(0, k)]: a negative [k] is treated as [0]. *)
Definition substring0 (k : Z) (s : string) : string :=
  String.substring 0 (Z.to_nat k) s.

(** White space removed by [trim]: the ASCII blanks and line terminators
    and the UTF-8 encodings of U+00A0, U+1680, U+2000..U+200A, U+2028,
    U+2029, U+202F, U+205F, U+3000 and U+FEFF. *)
Definition byte (n : N) : ascii := ascii_of_N n.
Definition bytes (l : list N) : string :=
  fold_right (fun n s => String (byte n) s) EmptyString l.

Definition whiteSpace : list string :=
  map bytes
    [ [9]; [10]; [11]; [12]; [13]; [32]; [194; 160]; [225; 154; 128];
      [226; 128; 128]; [226; 128; 129]; [226; 128; 130]; [226; 128; 131];
      [226; 128; 132]; [226; 128; 133]; [226; 128; 134]; [226; 128; 135];
      [226; 128; 136]; [226; 128; 137]; [226; 128; 138]; [226; 128; 168];
      [226; 128; 169]; [226; 128; 175]; [226; 129; 159]; [227; 128; 128];
      [239; 187; 191] ]%N.

(** The rest of [s] after the first of [toks] that is a prefix of it. *)
Fixpoint stripOneOf (toks : list string) (s : string) : option string :=
  match toks with
  | [] => None
  | t :: ts =>
      if String.prefix t s
      then Some (String.substring (String.length t)
                   (String.length s - String.length t) s)
      else stripOneOf ts s
  end.

Fixpoint stripAll (fuel : nat) (toks : list string) (s : string) : string :=
  match fuel with
  | O => s
  | S fuel' =>
      match stripOneOf toks s with
      | Some r => stripAll fuel' toks r
      | None => s
      end
  end.

Fixpoint rev (s : string) : string :=
  match s with
  | EmptyString => EmptyString
  | String c r => String.append (rev r) (String c EmptyString)
  end.

Definition trimStart (s : string) : string :=
  stripAll (String.length s) whiteSpace s.

Definition trimEnd (s : string) : string :=
  rev (stripAll (String.length s) (map rev whiteSpace) (rev s)).

(** [s.trim()] *)
Definition trim (s : string) : string := trimEnd (trimStart s).

(** [s.toLowerCase()] on the ASCII letters (tag names). *)
Definition lowerAscii (c : ascii) : ascii :=
  let n := N_of_ascii c in
  if ((65 <=? n) && (n <=? 90))%N then ascii_of_N (n + 32) else c.

Fixpoint toLowerCase (s : string) : string :=
  match s with
  | EmptyString => EmptyString
  | String c r => String (lowerAscii c) (toLowerCase r)
  end.

End JS.

(* ================================================================== *)
(** ** Data model ([types/book.ts]) *)

(** [ContentLayer]: the paragraphs between two images, the global index of
    the first one, and the optional trailing image (a blob URL). *)
Record ContentLayer := mkLayer {
  paragraphs : list string;
  startIndex : Z;
  image : option string
}.

(** A section of the container: the fields the adapter reads. *)
Record SpineSection := mkSection {
  canonical : option string;
  sec_href : option string
}.

(** The element tree the EPUB adapter walks: tag name, [src] attribute,
    text content and element children. *)
Inductive Element :=
| Elem (tagName : string) (src : option string) (textContent : option string)
       (children : list Element).

(** What [spine.get] followed by [section.load] yields for a chapter. *)
Inductive SectionOutcome :=
| SectionMissing                       (* [spine.get] returns nothing *)
| SectionThrows (message : string)     (* [spine.get] or [section.load] throws *)
| DocumentMissing                      (* [section.document] is empty *)
| DocumentLoaded (sec : SpineSection) (body : option Element).

(** The container [ePub(rawData)] opens: the spine, by href and by
    position, and the archive.  [archive path] names the Blob that
    [archive.request(path, 'blob')] yields; it is [None] when the request
    fails or does not yield a Blob. *)
Record Container := mkContainer {
  spineByHref : string -> SectionOutcome;
  spineByIndex : Z -> SectionOutcome;
  archive : string -> option string
}.

(** The stored bytes of a book, kept as what [TextDecoder] and [ePub] make
    of them.  A book exists only if [parse] went through on these bytes, so
    opening them again in [loadChapter] goes through as well.  [decodeText]
    is the result of [TxtAdapter.decodeText] on the bytes. *)
Record ArrayBuffer := mkBuffer {
  decodeText : string;
  ePub : Container
}.

(** [URL.createObjectURL(blob)]: a blob URL for the Blob. *)
Definition createObjectURL (blob : string) : string := String.append "blob:" blob.

(** The double quote character, as a string. *)
Definition quote : string := String "034"%char EmptyString.

Inductive Format := epub | txt.

Record UnifiedChapter := mkChapter {
  id : Z;
  title : string;
  layers : list ContentLayer;
  isLoaded : bool;
  href : option string
}.

(** [UnifiedBook], with the fields the adapters and the cache read. *)
Record UnifiedBook := mkBook {
  book_title : string;
  format : Format;
  chapters : list UnifiedChapter;
  rawData : ArrayBuffer
}.

(** A thrown [Error] with its message, or a value. *)
Inductive Result (A : Type) :=
| Ok (value : A)
| Throw (message : string).
Arguments Ok {A} value.
Arguments Throw {A} message.

(** [arr[i]] for a JavaScript number [i] holding an integer: [undefined]
    outside [0 .. length-1]. *)
Definition at_index {A : Type} (arr : list A) (i : Z) : option A :=
  if i <? 0 then None else nth_error arr (Z.to_nat i).

(** [Number.isSafeInteger(n)]: the integers a JavaScript number holds
    exactly, up to [2^53 - 1] either way. *)
Definition isSafeInteger (n : Z) : Prop :=
  - 9007199254740991 <= n <= 9007199254740991.

(** A number in a template literal, for a safe integer: its decimal
    digits.  Outside that range JavaScript prints the digits of the nearest
    double and, from [1e21] on, an exponent; what is stated about a printed
    number is stated for safe integers. *)
Definition showNumber (n : Z) : string := NilZero.string_of_int (Z.to_int n).

(** The message of the error both adapters throw for a missing chapter. *)
Definition notFound (chapterId : Z) : string :=
  String.append "章节 " (String.append (showNumber chapterId) " 不存在").

(** [book.chapters[chapterId]] *)
Definition chapterAt (book : UnifiedBook) (chapterId : Z) : option UnifiedChapter :=
  at_index (chapters book) chapterId.

(** The id is in range of [book.chapters]. *)
Definition inRange (book : UnifiedBook) (chapterId : Z) : Prop :=
  0 <= chapterId < Z.of_nat (List.length (chapters book)).

(* ------------------------------------------------------------------ *)
(** *** Properties of layer sequences *)

(** The layer carries an image, as [image ? 1 : 0] and the renderer test it. *)
Definition hasImage (l : ContentLayer) : bool := JS.truthyOpt (image l).

(** Index positions a layer occupies: one per paragraph, one for its image. *)
Definition slots (l : ContentLayer) : Z :=
  Z.of_nat (List.length (paragraphs l)) + (if hasImage l then 1 else 0).

(** Total character count of the paragraphs of a chunk. *)
Definition chars (ps : list string) : Z :=
  fold_right (fun p n => JS.length p + n) 0 ps.

(** The data-model invariant on consecutive layers. *)
Definition indexContinuity (ls : list ContentLayer) : Prop :=
  forall n a b,
    nth_error ls n = Some a -> nth_error ls (S n) = Some b ->
    startIndex b = startIndex a + slots a.

(** The same, as a chain from a first index: every layer starts where the
    previous one ends. *)
Fixpoint chainFrom (start : Z) (ls : list ContentLayer) : Prop :=
  match ls with
  | [] => True
  | l :: rest => startIndex l = start /\ chainFrom (start + slots l) rest
  end.

(** The index after the last layer of a chain. *)
Definition chainEnd (start : Z) (ls : list ContentLayer) : Z :=
  fold_left (fun i l => i + slots l) ls start.

(** All paragraphs of a layer sequence, in order. *)
Definition allParagraphs (ls : list ContentLayer) : list string :=
  List.concat (map paragraphs ls).

(** The size bound of one layer: a layer of two or more paragraphs stays
    within [limit], and a layer over [limit] is one over-long paragraph. *)
Definition sizeBounded (limit : Z) (l : ContentLayer) : Prop :=
  ((2 <= List.length (paragraphs l))%nat -> chars (paragraphs l) <= limit) /\
  (limit < chars (paragraphs l) ->
   exists p, paragraphs l = [p] /\ limit < JS.length p).

(* ================================================================== *)
(** ** The plain-text adapter ([adapters/TxtAdapter.ts]) *)

Module TxtAdapter.

(** Maximum characters per ContentLayer. *)
Definition MAX_LAYER_LENGTH : Z := 15000.

(** The two character classes of [CHAPTER_REGEX]. *)
Definition numerals : list string :=
  ["一"; "二"; "三"; "四"; "五"; "六"; "七"; "八"; "九"; "十"; "百"; "千"; "万";
   "0"; "1"; "2"; "3"; "4"; "5"; "6"; "7"; "8"; "9"].

Definition headingKinds : list string :=
  ["章"; "回"; "节"; "卷"; "集"; "部"; "篇"].

(** [CHAPTER_REGEX.test(line)]: the line starts with the ordinal marker,
    one or more numerals and one heading kind; the two classes share no
    character, so the greedy run of numerals is the only split to try. *)
Definition CHAPTER_REGEX (line : string) : bool :=
  match JS.stripOneOf ["第"] line with
  | None => false
  | Some r1 =>
      match JS.stripOneOf numerals r1 with
      | None => false
      | Some r2 =>
          match JS.stripOneOf headingKinds
                  (JS.stripAll (String.length r2) numerals r2) with
          | Some _ => true
          | None => false
          end
      end
  end.

(** The variables of the loop of [chunkParagraphs]. *)
Record ChunkLoop := mkLoop {
  out : list ContentLayer;
  currentChunk : list string;
  currentChunkSize : Z;
  nextStart : Z
}.

(** One iteration: flush the pending chunk when the paragraph would take
    it over the limit, then add the paragraph. *)
Definition chunkStep (st : ChunkLoop) (para : string) : ChunkLoop :=
  let st1 :=
    if (currentChunkSize st + JS.length para >? MAX_LAYER_LENGTH)
       && (0 <? Z.of_nat (List.length (currentChunk st)))
    then mkLoop (out st ++ [mkLayer (currentChunk st) (nextStart st) None])
                []
                0
                (nextStart st + Z.of_nat (List.length (currentChunk st)))
    else st in
  mkLoop (out st1) (currentChunk st1 ++ [para])
         (currentChunkSize st1 + JS.length para) (nextStart st1).

(** The remaining chunk, when there is one, closes the sequence. *)
Definition chunkFinish (st : ChunkLoop) : list ContentLayer :=
  if 0 <? Z.of_nat (List.length (currentChunk st))
  then out st ++ [mkLayer (currentChunk st) (nextStart st) None]
  else out st.

Definition chunkParagraphs (paragraphs : list string) : list ContentLayer :=
  chunkFinish (fold_left chunkStep paragraphs (mkLoop [] [] 0 0)).

(** Index of the first element of [l], from position [from] on, that
    satisfies [p]. *)
Fixpoint findFrom {A : Type} (p : A -> bool) (from : nat) (l : list A)
  : option nat :=
  match l with
  | [] => None
  | x :: r =>
      match from with
      | O => if p x then Some O else option_map S (findFrom p O r)
      | S k => option_map S (findFrom p k r)
      end
  end.

Definition findChapterBounds (lines : list string) (chapterTitle : string)
    (chapterId : Z) (allChapters : list UnifiedChapter) : nat * nat :=
  let startLine :=
    match findFrom (fun l => String.eqb (JS.trim l) chapterTitle) 0 lines with
    | Some i => S i
    | None => O
    end in
  let endLine :=
    if chapterId <? Z.of_nat (List.length allChapters) - 1 then
      match at_index allChapters (chapterId + 1) with
      | Some next =>
          match findFrom (fun l => String.eqb (JS.trim l) (title next))
                  startLine lines with
          | Some i => i
          | None => List.length lines
          end
      | None => List.length lines
      end
    else List.length lines in
  (startLine, endLine).

(** The paragraphs of the lines [startLine .. endLine-1]: every trimmed
    line that is neither a heading nor blank. *)
Definition collectParagraphs (lines : list string) (startLine endLine : nat)
  : list string :=
  filter (fun line => negb (CHAPTER_REGEX line) && JS.truthy line)
         (map JS.trim (firstn (endLine - startLine) (skipn startLine lines))).

Definition loadChapter (book : UnifiedBook) (chapterId : Z)
  : Result (list ContentLayer) :=
  match chapterAt book chapterId with
  | None => Throw (notFound chapterId)
  | Some chapter =>
      if isLoaded chapter && (0 <? Z.of_nat (List.length (layers chapter)))
      then Ok (layers chapter)
      else
        let text := decodeText (rawData book) in
        let lines := JS.split "010"%char text in
        let '(startLine, endLine) :=
          findChapterBounds lines (title chapter) chapterId (chapters book) in
        Ok (chunkParagraphs (collectParagraphs lines startLine endLine))
  end.


(** A chapter skeleton: no layers, not loaded. *)
Definition skeleton (index : Z) (chapterTitle : string) : UnifiedChapter :=
  mkChapter index chapterTitle [] false None.

(** The variables of the loop of [splitChapters]. *)
Record SplitLoop := mkSplit {
  found : list UnifiedChapter;
  currentChapter : option UnifiedChapter;
  chapterIndex : Z
}.

(** [if (currentChapter) chapters.push(currentChapter)] *)
Definition pushCurrent (st : SplitLoop) : list UnifiedChapter :=
  match currentChapter st with
  | Some c => found st ++ [c]
  | None => found st
  end.

(** One line: blank lines are skipped, a heading closes the chapter that
    is open and opens the next, the first other line opens the default
    chapter when none is open. *)
Definition splitStep (st : SplitLoop) (line : string) : SplitLoop :=
  let trimmedLine := JS.trim line in
  if negb (JS.truthy trimmedLine) then st
  else if CHAPTER_REGEX trimmedLine then
    mkSplit (pushCurrent st)
            (Some (skeleton (chapterIndex st) trimmedLine))
            (chapterIndex st + 1)
  else
    match currentChapter st with
    | None => mkSplit (found st) (Some (skeleton (chapterIndex st) "正文"))
                      (chapterIndex st + 1)
    | Some _ => st
    end.

Definition splitChapters (text : string) : list UnifiedChapter :=
  let st := fold_left splitStep (JS.split "010"%char text) (mkSplit [] None 0) in
  let chapters := pushCurrent st in
  if Z.of_nat (List.length chapters) =? 0
  then [skeleton 0 "全文"]
  else chapters.

(** [s.endsWith(suffix)] *)
Definition endsWith (s suffix : string) : bool :=
  String.prefix (JS.rev suffix) (JS.rev s).

(** [filename.replace(/\.(txt|TXT)$/, '')] *)
Definition extractTitle (filename : string) : string :=
  if endsWith filename ".txt" || endsWith filename ".TXT"
  then String.substring 0 (String.length filename - 4) filename
  else filename.

(** [parse(arrayBuffer, filename)]: the skeleton of the book. *)
Definition parse (arrayBuffer : ArrayBuffer) (filename : string) : UnifiedBook :=
  mkBook (extractTitle filename) txt
         (splitChapters (decodeText arrayBuffer)) arrayBuffer.

End TxtAdapter.

(* ================================================================== *)
(** ** The EPUB adapter, current revision
       (the [EpubAdapter] class that counts an index position per image) *)

Module EpubAdapter.

(** Maximum characters per ContentLayer. *)
Definition MAX_LAYER_LENGTH : Z := 15000.

(** The variables of the chunk loop of [addParagraphsWithChunking]. *)
Record ChunkLoop := mkLoop {
  out : list ContentLayer;
  currentChunk : list string;
  currentChunkSize : Z;
  currentStartIndex : Z;
  isFirstChunk : bool
}.

(** The layer a pending chunk is flushed as: the image goes to the first
    chunk only. *)
Definition chunkLayer (image : option string) (st : ChunkLoop) : ContentLayer :=
  mkLayer (currentChunk st) (currentStartIndex st)
          (if isFirstChunk st then image else None).

(** The index after a flushed chunk: its paragraphs, and the image when
    this is the first chunk and there is one. *)
Definition chunkNext (image : option string) (st : ChunkLoop) : Z :=
  currentStartIndex st + (Z.of_nat (List.length (currentChunk st))
    + (if isFirstChunk st && JS.truthyOpt image then 1 else 0)).

Definition chunkStep (image : option string) (st : ChunkLoop) (para : string)
  : ChunkLoop :=
  let st1 :=
    if (currentChunkSize st + JS.length para >? MAX_LAYER_LENGTH)
       && (0 <? Z.of_nat (List.length (currentChunk st)))
    then mkLoop (out st ++ [chunkLayer image st]) [] 0 (chunkNext image st) false
    else st in
  mkLoop (out st1) (currentChunk st1 ++ [para])
         (currentChunkSize st1 + JS.length para)
         (currentStartIndex st1) (isFirstChunk st1).

(** [addParagraphsWithChunking(layers, paragraphs, startIndex, image)]:
    the layers array after the call and the returned next index. *)
Definition addParagraphsWithChunking (layers : list ContentLayer)
    (paragraphs : list string) (startIndex : Z) (image : option string)
  : list ContentLayer * Z :=
  let totalChars := fold_left (fun sum p => sum + JS.length p) paragraphs 0 in
  if totalChars <=? MAX_LAYER_LENGTH then
    (layers ++ [mkLayer paragraphs startIndex image],
     startIndex + Z.of_nat (List.length paragraphs)
       + (if JS.truthyOpt image then 1 else 0))
  else
    let st := fold_left (chunkStep image) paragraphs
                (mkLoop layers [] 0 startIndex true) in
    if 0 <? Z.of_nat (List.length (currentChunk st))
    then (out st ++ [chunkLayer image st], chunkNext image st)
    else (out st, currentStartIndex st).

(** [section.canonical || section.href] *)
Definition basePath (sec : SpineSection) : option string :=
  match canonical sec with
  | Some c => if JS.truthy c then Some c else sec_href sec
  | None => sec_href sec
  end.

(** The source is an external absolute URL. *)
Definition isExternal (src : string) : bool :=
  JS.startsWith src "http://" || JS.startsWith src "https://".

(** One segment of a relative source applied to the directory parts. *)
Definition applySegment (parts : list string) (part : string) : list string :=
  if String.eqb part ".." then removelast parts
  else if negb (String.eqb part ".") && negb (String.eqb part "")
       then parts ++ [part]
       else parts.

(** The internal path of an image source; [None] when resolving throws:
    an external URL, or a relative source in a section without a path. *)
Definition resolvePath (sec : SpineSection) (src : string) : option string :=
  if isExternal src then None
  else if JS.startsWith src "/" then Some src
  else
    match basePath sec with
    | None => None
    | Some base =>
        let sectionDir := JS.substring0 (JS.lastIndexOf "/" base) base in
        let parts := filter JS.truthy (JS.split "/" sectionDir) in
        let srcParts := JS.split "/" src in
        Some (String.append "/" (JS.join "/" (fold_left applySegment srcParts parts)))
    end.

(** The blob URL of an image source: resolve, request, mint.  [None] is
    every way into the [catch] of the image branch. *)
Definition fetchImage (epubBook : Container) (sec : SpineSection) (src : string)
  : option string :=
  match resolvePath sec src with
  | None => None
  | Some internalPath =>
      match archive epubBook internalPath with
      | Some blob => Some (createObjectURL blob)
      | None => None
      end
  end.

(** The state the walk threads: the layers array, the pending paragraphs
    (one array shared by the whole walk) and the running index. *)
Record Walk := mkWalk {
  w_layers : list ContentLayer;
  currentParagraphs : list string;
  globalIndex : Z
}.

(** [const text = child.textContent?.trim(); if (text) push(text)] *)
Definition pushText (text : option string) (w : Walk) : Walk :=
  match text with
  | Some t =>
      if JS.truthy (JS.trim t)
      then mkWalk (w_layers w) (currentParagraphs w ++ [JS.trim t]) (globalIndex w)
      else w
  | None => w
  end.

(** [/^h[1-6]$/.test(tagName)] *)
Definition isHeading (tagName : string) : bool :=
  existsb (String.eqb tagName) ["h1"; "h2"; "h3"; "h4"; "h5"; "h6"].

(** The image branch, once the blob URL is there: truncate. *)
Definition truncateAt (blobUrl : string) (w : Walk) : Walk :=
  if 0 <? Z.of_nat (List.length (currentParagraphs w)) then
    let '(ls, next) :=
      addParagraphsWithChunking (w_layers w) (currentParagraphs w)
                                (globalIndex w) (Some blobUrl) in
    mkWalk ls [] next
  else
    mkWalk (w_layers w ++ [mkLayer [] (globalIndex w) (Some blobUrl)])
           (currentParagraphs w) (globalIndex w + 1).

(** The image branch: nothing happens without a [src] and when the image
    cannot be resolved or fetched. *)
Definition onImage (epubBook : Container) (sec : SpineSection)
    (src : option string) (w : Walk) : Walk :=
  match src with
  | Some s =>
      if JS.truthy s then
        match fetchImage epubBook sec s with
        | Some blobUrl => truncateAt blobUrl w
        | None => w
        end
      else w
  | None => w
  end.

Fixpoint traverseDOM (epubBook : Container) (sec : SpineSection)
    (element : Element) (w : Walk) {struct element} : Walk :=
  match element with
  | Elem _ _ _ kids =>
      (fix each (kids : list Element) (w : Walk) {struct kids} : Walk :=
         match kids with
         | [] => w
         | child :: rest =>
             each rest
               match child with
               | Elem tag src text grandkids =>
                   let tagName := JS.toLowerCase tag in
                   if String.eqb tagName "p" then pushText text w
                   else if isHeading tagName then pushText text w
                   else if String.eqb tagName "img" then onImage epubBook sec src w
                   else if 0 <? Z.of_nat (List.length grandkids)
                        then traverseDOM epubBook sec child w
                        else pushText text w
               end
         end) kids w
  end.

(** The body of the loop of [traverseDOM] for one child. *)
Definition visit (epubBook : Container) (sec : SpineSection)
    (child : Element) (w : Walk) : Walk :=
  match child with
  | Elem tag src text grandkids =>
      let tagName := JS.toLowerCase tag in
      if String.eqb tagName "p" then pushText text w
      else if isHeading tagName then pushText text w
      else if String.eqb tagName "img" then onImage epubBook sec src w
      else if 0 <? Z.of_nat (List.length grandkids)
           then traverseDOM epubBook sec child w
           else pushText text w
  end.

Definition parseHTML (epubBook : Container) (sec : SpineSection)
    (body : option Element) : list ContentLayer :=
  match body with
  | None => []
  | Some b =>
      let w := traverseDOM epubBook sec b (mkWalk [] [] 0) in
      if 0 <? Z.of_nat (List.length (currentParagraphs w))
      then fst (addParagraphsWithChunking (w_layers w) (currentParagraphs w)
                                          (globalIndex w) None)
      else w_layers w
  end.

(** The section of a chapter: by its stored href, else by position. *)
Definition resolveSection (epubBook : Container) (chapter : UnifiedChapter)
    (chapterId : Z) : SectionOutcome :=
  match href chapter with
  | Some h => if JS.truthy h then spineByHref epubBook h
              else spineByIndex epubBook chapterId
  | None => spineByIndex epubBook chapterId
  end.

(** The three diagnostic messages. *)
Definition quoted (t : string) : string :=
  String.append quote (String.append t quote).

Definition msgMissing (t : string) : list string :=
  [String.append "章节 " (String.append (quoted t) " 内容不存在或无法加载")].

Definition msgEmpty (t : string) : list string :=
  [String.append "章节 " (String.append (quoted t) " 内容为空")].

Definition msgFailed (t err : string) : list string :=
  [String.append "章节 " (String.append (quoted t) " 加载失败");
   String.append "错误信息: " err].

Definition loadChapter (book : UnifiedBook) (chapterId : Z)
  : Result (list ContentLayer) :=
  match chapterAt book chapterId with
  | None => Throw (notFound chapterId)
  | Some chapter =>
      if isLoaded chapter && (0 <? Z.of_nat (List.length (layers chapter)))
      then Ok (layers chapter)
      else
        let epubBook := ePub (rawData book) in
        match resolveSection epubBook chapter chapterId with
        | SectionMissing => Ok [mkLayer (msgMissing (title chapter)) 0 None]
        | SectionThrows err => Ok [mkLayer (msgFailed (title chapter) err) 0 None]
        | DocumentMissing => Ok [mkLayer (msgEmpty (title chapter)) 0 None]
        | DocumentLoaded sec body => Ok (parseHTML epubBook sec body)
        end
  end.


(** An entry of the table of contents ([navigation.toc]). *)
Record NavItem := mkNav {
  label : string;
  nav_href : string
}.

(** The variables of the loops of [extractChapters]. *)
Record ExtractLoop := mkExtract {
  ex_chapters : list UnifiedChapter;
  validChapterIndex : Z
}.

(** One entry of the table of contents: kept, under the next id, when
    [spine.get(href)] finds its section, skipped otherwise.  [spineGet]
    is the truth value of [epubBook.spine.get(href)]. *)
Definition tocStep (spineGet : string -> bool) (st : ExtractLoop) (item : NavItem)
  : ExtractLoop :=
  if spineGet (nav_href item)
  then mkExtract (ex_chapters st ++
                  [mkChapter (validChapterIndex st) (label item) [] false
                             (Some (nav_href item))])
                 (validChapterIndex st + 1)
  else st.

(** One spine item of the fallback loop, [i] being the loop counter. *)
Definition spineStep {A : Type} (st : ExtractLoop) (_ : A) : ExtractLoop :=
  let i := validChapterIndex st in
  mkExtract (ex_chapters st ++
             [mkChapter i (String.append "Chapter " (showNumber (i + 1))) [] false None])
            (i + 1).

(** [extractChapters(epubBook)], from the table of contents, the lookup
    [spine.get] and the items of the spine. *)
Definition extractChapters {A : Type} (spineGet : string -> bool)
    (toc : list NavItem) (spineItems : list A) : list UnifiedChapter :=
  let chapters := ex_chapters (fold_left (tocStep spineGet) toc (mkExtract [] 0)) in
  if Z.of_nat (List.length chapters) =? 0
  then ex_chapters (fold_left spineStep spineItems (mkExtract chapters 0))
  else chapters.

End EpubAdapter.

(* ================================================================== *)
(** ** The EPUB adapter, earlier revision ([src/adapters/EpubAdapter.ts])

    The file kept under [src/adapters] names the index field
    [startGlobalIndex]; it is held in [startIndex] here.  Path resolution,
    text collection, section lookup and the diagnostic layers are the same
    text as in the current revision and are shared with it. *)

Module EpubAdapterLegacy.

Import EpubAdapter.

Definition MAX_LAYER_LENGTH : Z := 15000.

Definition chunkLayer (image : option string) (st : ChunkLoop) : ContentLayer :=
  mkLayer (currentChunk st) (currentStartIndex st)
          (if isFirstChunk st then image else None).

Definition chunkStep (image : option string) (st : ChunkLoop) (para : string)
  : ChunkLoop :=
  let st1 :=
    if (currentChunkSize st + JS.length para >? MAX_LAYER_LENGTH)
       && (0 <? Z.of_nat (List.length (currentChunk st)))
    then mkLoop (out st ++ [chunkLayer image st]) [] 0
                (currentStartIndex st + Z.of_nat (List.length (currentChunk st)))
                false
    else st in
  mkLoop (out st1) (currentChunk st1 ++ [para])
         (currentChunkSize st1 + JS.length para)
         (currentStartIndex st1) (isFirstChunk st1).

(** The returned index counts the paragraphs only. *)
Definition addParagraphsWithChunking (layers : list ContentLayer)
    (paragraphs : list string) (startGlobalIndex : Z) (image : option string)
  : list ContentLayer * Z :=
  let totalChars := fold_left (fun sum p => sum + JS.length p) paragraphs 0 in
  if totalChars <=? MAX_LAYER_LENGTH then
    (layers ++ [mkLayer paragraphs startGlobalIndex image],
     startGlobalIndex + Z.of_nat (List.length paragraphs))
  else
    let st := fold_left (chunkStep image) paragraphs
                (mkLoop layers [] 0 startGlobalIndex true) in
    if 0 <? Z.of_nat (List.length (currentChunk st))
    then (out st ++ [chunkLayer image st],
          currentStartIndex st + Z.of_nat (List.length (currentChunk st)))
    else (out st, currentStartIndex st).

(** An image-only layer leaves the counter where it is. *)
Definition truncateAt (blobUrl : string) (w : Walk) : Walk :=
  if 0 <? Z.of_nat (List.length (currentParagraphs w)) then
    let '(ls, next) :=
      addParagraphsWithChunking (w_layers w) (currentParagraphs w)
                                (globalIndex w) (Some blobUrl) in
    mkWalk ls [] next
  else
    mkWalk (w_layers w ++ [mkLayer [] (globalIndex w) (Some blobUrl)])
           (currentParagraphs w) (globalIndex w).

Definition onImage (epubBook : Container) (sec : SpineSection)
    (src : option string) (w : Walk) : Walk :=
  match src with
  | Some s =>
      if JS.truthy s then
        match fetchImage epubBook sec s with
        | Some blobUrl => truncateAt blobUrl w
        | None => w
        end
      else w
  | None => w
  end.

(** [globalIndex] of the walk state is the parameter [chapterParaCounter]. *)
Fixpoint traverseDOM (epubBook : Container) (sec : SpineSection)
    (element : Element) (w : Walk) {struct element} : Walk :=
  match element with
  | Elem _ _ _ kids =>
      (fix each (kids : list Element) (w : Walk) {struct kids} : Walk :=
         match kids with
         | [] => w
         | child :: rest =>
             each rest
               match child with
               | Elem tag src text grandkids =>
                   let tagName := JS.toLowerCase tag in
                   if String.eqb tagName "p" then pushText text w
                   else if isHeading tagName then pushText text w
                   else if String.eqb tagName "img" then onImage epubBook sec src w
                   else if 0 <? Z.of_nat (List.length grandkids)
                        then traverseDOM epubBook sec child w
                        else pushText text w
               end
         end) kids w
  end.

(** [parseHTML] does not keep the counter [traverseDOM] returns: the
    closing flush starts from the initial [chapterParaCounter], [0]. *)
Definition parseHTML (epubBook : Container) (sec : SpineSection)
    (body : option Element) : list ContentLayer :=
  match body with
  | None => []
  | Some b =>
      let chapterParaCounter := 0 in
      let w := traverseDOM epubBook sec b (mkWalk [] [] chapterParaCounter) in
      if 0 <? Z.of_nat (List.length (currentParagraphs w))
      then fst (addParagraphsWithChunking (w_layers w) (currentParagraphs w)
                                          chapterParaCounter None)
      else w_layers w
  end.

Definition loadChapter (book : UnifiedBook) (chapterId : Z)
  : Result (list ContentLayer) :=
  match chapterAt book chapterId with
  | None => Throw (notFound chapterId)
  | Some chapter =>
      if isLoaded chapter && (0 <? Z.of_nat (List.length (layers chapter)))
      then Ok (layers chapter)
      else
        let epubBook := ePub (rawData book) in
        match resolveSection epubBook chapter chapterId with
        | SectionMissing => Ok [mkLayer (msgMissing (title chapter)) 0 None]
        | SectionThrows err => Ok [mkLayer (msgFailed (title chapter) err) 0 None]
        | DocumentMissing => Ok [mkLayer (msgEmpty (title chapter)) 0 None]
        | DocumentLoaded sec body => Ok (parseHTML epubBook sec body)
        end
  end.

End EpubAdapterLegacy.

(* ================================================================== *)
(** ** The chapter cache ([core/ChapterCache.ts]) *)

Module ChapterCache.

Record CacheEntry := mkEntry {
  chapterId : Z;
  entry_layers : list ContentLayer;
  lastAccess : Z
}.

(** The object: the [Map] in insertion order, the book it mirrors into
    (shared with the adapters), the in-flight set, the idle callbacks
    handed to the scheduler, and the calls to [URL.revokeObjectURL] made
    so far, in order. *)
Record State := mkState {
  cache : list (Z * CacheEntry);
  book : UnifiedBook;
  prefetchQueue : list Z;
  scheduled : list (list Z);
  revoked : list string
}.

Definition MAX_CACHE_SIZE : Z := 5.

(** [new ChapterCache(book)] *)
Definition create (book : UnifiedBook) : State := mkState [] book [] [] [].

(** *** [Map] and [Set] *)

Definition has (m : list (Z * CacheEntry)) (k : Z) : bool :=
  existsb (fun kv => fst kv =? k) m.

Fixpoint get (m : list (Z * CacheEntry)) (k : Z) : option CacheEntry :=
  match m with
  | [] => None
  | (k', v) :: r => if k' =? k then Some v else get r k
  end.

(** [m.set(k, v)]: an existing key keeps its place in the order. *)
Fixpoint set (m : list (Z * CacheEntry)) (k : Z) (v : CacheEntry)
  : list (Z * CacheEntry) :=
  match m with
  | [] => [(k, v)]
  | (k', v') :: r => if k' =? k then (k, v) :: r else (k', v') :: set r k v
  end.

Definition delete (m : list (Z * CacheEntry)) (k : Z) : list (Z * CacheEntry) :=
  filter (fun kv => negb (fst kv =? k)) m.

Definition size (m : list (Z * CacheEntry)) : Z := Z.of_nat (List.length m).

Definition keys (m : list (Z * CacheEntry)) : list Z := map fst m.

Definition setHas (q : list Z) (k : Z) : bool := existsb (Z.eqb k) q.
Definition setAdd (q : list Z) (k : Z) : list Z :=
  if setHas q k then q else q ++ [k].
Definition setDelete (q : list Z) (k : Z) : list Z :=
  filter (fun x => negb (x =? k)) q.

(** *** Writes to the book *)

Fixpoint updateAt {A : Type} (l : list A) (n : nat) (f : A -> A) : list A :=
  match l, n with
  | [], _ => []
  | x :: r, O => f x :: r
  | x :: r, S k => x :: updateAt r k f
  end.

(** Assign fields of [book.chapters[chapterId]], for a chapter that exists. *)
Definition writeChapter (b : UnifiedBook) (chapterId : Z)
    (ls : list ContentLayer) (loaded : bool) : UnifiedBook :=
  mkBook (book_title b) (format b)
         (updateAt (chapters b) (Z.to_nat chapterId)
            (fun c => mkChapter (id c) (title c) ls loaded (href c)))
         (rawData b).

Definition withCache (s : State) (m : list (Z * CacheEntry)) : State :=
  mkState m (book s) (prefetchQueue s) (scheduled s) (revoked s).
Definition withBook (s : State) (b : UnifiedBook) : State :=
  mkState (cache s) b (prefetchQueue s) (scheduled s) (revoked s).
Definition withQueue (s : State) (q : list Z) : State :=
  mkState (cache s) (book s) q (scheduled s) (revoked s).

(** *** The methods *)

(** The load goes to the adapter of the book's format; for EPUB this is
    the current revision of the adapter. *)
Definition loadChapter (s : State) (chapterId : Z) : Result (list ContentLayer) :=
  match format (book s) with
  | txt => TxtAdapter.loadChapter (book s) chapterId
  | epub => EpubAdapter.loadChapter (book s) chapterId
  end.

(** The blob URLs among the images of some layers. *)
Definition blobUrls (ls : list ContentLayer) : list string :=
  flat_map (fun l => match image l with
                     | Some u => if JS.truthy u && JS.startsWith u "blob:"
                                 then [u] else []
                     | None => []
                     end) ls.

(** Revoke the blob URLs of the layers the book holds for the chapter. *)
Definition cleanupBlobUrls (chapterId : Z) (s : State) : State :=
  match chapterAt (book s) chapterId with
  | None => s
  | Some chapter =>
      mkState (cache s) (book s) (prefetchQueue s) (scheduled s)
              (revoked s ++ blobUrls (layers chapter))
  end.

(** [entry.lastAccess < oldestTime]; [None] is [Infinity]. *)
Definition olderThan (t : Z) (oldestTime : option Z) : bool :=
  match oldestTime with
  | None => true
  | Some o => t <? o
  end.

(** One iteration of the search: [(oldestChapterId, oldestTime)]. *)
Definition oldestStep (acc : option Z * option Z) (kv : Z * CacheEntry)
  : option Z * option Z :=
  if olderThan (lastAccess (snd kv)) (snd acc)
  then (Some (fst kv), Some (lastAccess (snd kv)))
  else acc.

Definition findOldest (m : list (Z * CacheEntry)) : option Z :=
  fst (fold_left oldestStep m (None, None)).

Definition evictIfNeeded (s : State) : State :=
  if size (cache s) <=? MAX_CACHE_SIZE then s
  else
    match findOldest (cache s) with
    | None => s
    | Some oldestChapterId =>
        let s1 := withCache s (delete (cache s) oldestChapterId) in
        let s2 :=
          match chapterAt (book s1) oldestChapterId with
          | Some _ => withBook s1 (writeChapter (book s1) oldestChapterId [] false)
          | None => s1
          end in
        cleanupBlobUrls oldestChapterId s2
    end.

Definition schedulePrefetch (currentChapterId : Z) (s : State) : State :=
  let prefetchIds :=
    (if currentChapterId >? 0 then [currentChapterId - 1] else [])
    ++ filter (fun nextId => nextId <? Z.of_nat (List.length (chapters (book s))))
              [currentChapterId + 1; currentChapterId + 2] in
  let toFetch :=
    filter (fun i => negb (has (cache s) i) && negb (setHas (prefetchQueue s) i))
           prefetchIds in
  if (Z.of_nat (List.length toFetch) =? 0) then s
  else mkState (cache s) (book s) (prefetchQueue s)
               (scheduled s ++ [toFetch]) (revoked s).

(** [getChapter] after the load has come back with [layers], at time [now]:
    store, mirror into the book, evict, schedule.  Writing to a chapter the
    book does not have is a [TypeError]. *)
Definition stored (chapterId : Z) (ls : list ContentLayer) (now : Z) (s : State)
  : State * Result (list ContentLayer) :=
  let s1 := withCache s (set (cache s) chapterId (mkEntry chapterId ls now)) in
  match chapterAt (book s1) chapterId with
  | None => (s1, Throw "TypeError")
  | Some _ =>
      let s2 := withBook s1 (writeChapter (book s1) chapterId ls true) in
      (schedulePrefetch chapterId (evictIfNeeded s2), Ok ls)
  end.

(** [getChapter(chapterId)], with [now] the value [Date.now()] has when
    the entry is touched. *)
Definition getChapter (chapterId : Z) (now : Z) (s : State)
  : State * Result (list ContentLayer) :=
  match get (cache s) chapterId with
  | Some entry =>
      (withCache s (set (cache s) chapterId
                      (mkEntry (ChapterCache.chapterId entry) (entry_layers entry) now)),
       Ok (entry_layers entry))
  | None =>
      match loadChapter s chapterId with
      | Throw err => (s, Throw err)
      | Ok ls => stored chapterId ls now s
      end
  end.

(** One iteration of the loop of [prefetchChapters]: a failure is logged
    and dropped. *)
Definition prefetchChapter (chapterId : Z) (now : Z) (s : State) : State :=
  if has (cache s) chapterId then s
  else
    let s1 := withQueue s (setAdd (prefetchQueue s) chapterId) in
    let s2 := fst (getChapter chapterId now s1) in
    withQueue s2 (setDelete (prefetchQueue s2) chapterId).

(** [prefetchChapters(chapterIds)], [now i] being the time at which the
    load of chapter [i] comes back. *)
Definition prefetchChapters (chapterIds : list Z) (now : Z -> Z) (s : State)
  : State :=
  fold_left (fun s i => prefetchChapter i (now i) s) chapterIds s.

Definition clear (s : State) : State :=
  let s1 := fold_left (fun s kv => cleanupBlobUrls (fst kv) s) (cache s) s in
  mkState [] (book s1) [] (scheduled s1) (revoked s1).

Record Stats := mkStats {
  stat_size : Z;
  maxSize : Z;
  cachedChapters : list Z
}.

Definition getStats (s : State) : Stats :=
  mkStats (size (cache s)) MAX_CACHE_SIZE (keys (cache s)).

(** *** Runs of the cache *)

Inductive Op :=
| GetChapter (chapterId now : Z)
| PrefetchChapter (chapterId now : Z)
| Clear.

Definition step (s : State) (o : Op) : State :=
  match o with
  | GetChapter i now => fst (getChapter i now s)
  | PrefetchChapter i now => prefetchChapter i now s
  | Clear => clear s
  end.

Definition run (ops : list Op) (s : State) : State := fold_left step ops s.

(** The operations that are reads through the cache. *)
Definition isRead (o : Op) : bool :=
  match o with Clear => false | _ => true end.

End ChapterCache.

(* ================================================================== *)
(** ** Sample books and cache states *)

Module Examples.

Definition para (t : string) : Element := Elem "p" None (Some t) [].
Definition img (s : string) : Element := Elem "IMG" (Some s) None [].

(** A chapter body: a paragraph, an image, a paragraph. *)
Definition body1 : Element :=
  Elem "body" None None [para "one"; img "../img/a.png"; para " two "].

(** The same body with an image from the web in front. *)
Definition body2 : Element :=
  Elem "body" None None
    [para "one"; img "https://example.org/x.png"; img "../img/a.png"; para " two "].

(** A body whose image lies inside a paragraph. *)
Definition body3 : Element :=
  Elem "body" None None
    [Elem "p" None (Some "see") [img "../img/a.png"]; para "two"].

Definition sec1 : SpineSection :=
  mkSection (Some "/OEBPS/text/ch1.xhtml") (Some "text/ch1.xhtml").

(** A container with one image, one section reachable by href, and the
    same section at every position. *)
Definition container1 : Container :=
  mkContainer
    (fun h => if String.eqb h "text/ch1.xhtml"
              then DocumentLoaded sec1 (Some body1) else SectionMissing)
    (fun _ => DocumentLoaded sec1 (Some body1))
    (fun path => if String.eqb path "/OEBPS/img/a.png" then Some "a" else None).

(** A two-chapter EPUB whose second chapter points at a missing section. *)
Definition book1 : UnifiedBook :=
  mkBook "Sample" epub
    [mkChapter 0 "One" [] false (Some "text/ch1.xhtml");
     mkChapter 1 "Two" [] false (Some "text/ch2.xhtml")]
    (mkBuffer "" container1).


(** A six-chapter EPUB without hrefs. *)
Definition book6 : UnifiedBook :=
  mkBook "Six" epub
    (map (fun i => mkChapter i "Chapter" [] false None) [0; 1; 2; 3; 4; 5])
    (mkBuffer "" container1).

(** A plain-text book of two chapters. *)
Definition text2 : string :=
  String.concat (String "010"%char EmptyString)
    ["第一章 起"; "alpha"; ""; "beta"; "第二章 承"; "gamma"].

Definition bookTxt : UnifiedBook :=
  mkBook "Plain" txt
    [mkChapter 0 "第一章 起" [] false None; mkChapter 1 "第二章 承" [] false None]
    (mkBuffer text2 container1).

(** Six resident entries, two of them tied for the oldest access. *)
Definition entry (i t : Z) : Z * ChapterCache.CacheEntry :=
  (i, ChapterCache.mkEntry i [] t).

Definition state6 : ChapterCache.State :=
  ChapterCache.mkState
    [entry 0 5; entry 1 3; entry 2 7; entry 3 3; entry 4 9; entry 5 4]
    book6 [] [] [].

(** Reading the six chapters of [book6] one after the other. *)
Definition readSix : list ChapterCache.Op :=
  map (fun i => ChapterCache.GetChapter i (100 + i)) [0; 1; 2; 3; 4; 5].

(** A paragraph of [n] characters. *)
Fixpoint letters (n : nat) : string :=
  match n with
  | O => EmptyString
  | S k => String "a"%char (letters k)
  end.


(** A table of contents whose second entry the spine does not have. *)
Definition toc3 : list EpubAdapter.NavItem :=
  [EpubAdapter.mkNav "Intro" "text/intro.xhtml";
   EpubAdapter.mkNav "Gone" "text/gone.xhtml";
   EpubAdapter.mkNav "End" "text/end.xhtml"].

Definition spineGet3 (h : string) : bool := negb (String.eqb h "text/gone.xhtml").

End Examples.

(* ================================================================== *)
(** ** Vocabulary of the proofs *)

(** The pending chunk of a chunk loop is at most one paragraph, or within
    the limit. *)
Definition pendingOk (limit : Z) (chunk : list string) : Prop :=
  (List.length chunk <= 1)%nat \/ chars chunk <= limit.

(** What the greedy chunk loop of both adapters keeps true, over its
    variables: the layers [added] so far, the pending [chunk], its [size]
    and the [next] start index, after the paragraphs [consumed]. *)
Record loopInv (limit start : Z) (consumed : list string)
    (added : list ContentLayer) (chunk : list string) (size next : Z)
  : Prop := mkInv {
  inv_roundtrip : allParagraphs added ++ chunk = consumed;
  inv_size : size = chars chunk;
  inv_chain : chainFrom start added;
  inv_next : chainEnd start added = next;
  inv_bounded : Forall (sizeBounded limit) added;
  inv_nonempty : Forall (fun l => paragraphs l <> []) added;
  inv_pending : pendingOk limit chunk
}.

(** The entry [(k, e)] of a map is the least recently accessed one, and the
    first inserted among those accessed as long ago: everything before it in
    insertion order was accessed strictly later, nothing after it earlier. *)
Definition oldestAt (pre : list (Z * ChapterCache.CacheEntry))
    (e : ChapterCache.CacheEntry) (post : list (Z * ChapterCache.CacheEntry))
  : Prop :=
  (forall x, In x pre ->
     ChapterCache.lastAccess e < ChapterCache.lastAccess (snd x)) /\
  (forall x, In x post ->
     ChapterCache.lastAccess e <= ChapterCache.lastAccess (snd x)).

(** The variables of the search for the oldest entry, after the entries
    [seen]. *)
Definition searchInv (seen : list (Z * ChapterCache.CacheEntry))
    (acc : option Z * option Z) : Prop :=
  (seen = [] /\ acc = (None, None)) \/
  exists pre k e post,
    seen = pre ++ (k, e) :: post /\
    acc = (Some k, Some (ChapterCache.lastAccess e)) /\
    oldestAt pre e post.

(** The book mirrors the cache: a chapter is marked loaded exactly when
    its id is resident. *)
Definition mirrors (s : ChapterCache.State) : Prop :=
  forall i c, chapterAt (ChapterCache.book s) i = Some c ->
              isLoaded c = ChapterCache.has (ChapterCache.cache s) i.

(** What [evictIfNeeded] does to the map. *)
Definition evictMap (m : list (Z * ChapterCache.CacheEntry))
  : list (Z * ChapterCache.CacheEntry) :=
  if ChapterCache.size m <=? ChapterCache.MAX_CACHE_SIZE then m
  else match ChapterCache.findOldest m with
       | Some k => ChapterCache.delete m k
       | None => m
       end.

(** The state [getChapter] leaves after a load that came back with [ls]. *)
Definition afterLoad (i : Z) (ls : list ContentLayer) (now : Z)
    (s : ChapterCache.State) : ChapterCache.State :=
  ChapterCache.schedulePrefetch i
    (ChapterCache.evictIfNeeded
       (ChapterCache.withBook
          (ChapterCache.withCache s
             (ChapterCache.set (ChapterCache.cache s) i (ChapterCache.mkEntry i ls now)))
          (ChapterCache.writeChapter (ChapterCache.book s) i ls true))).

(** A layer of the plain-text adapter: some paragraphs, no image. *)
Definition textLayer (l : ContentLayer) : Prop :=
  paragraphs l <> [] /\ image l = None.

(** The stored layers of every chapter of a book obey index continuity. *)
Definition storedContinuity (b : UnifiedBook) : Prop :=
  Forall (fun c => indexContinuity (layers c)) (chapters b).

(** Every layer sequence the cache and its book hold is continuous. *)
Definition heldContinuity (s : ChapterCache.State) : Prop :=
  storedContinuity (ChapterCache.book s) /\
  Forall (fun kv => indexContinuity (ChapterCache.entry_layers (snd kv)))
         (ChapterCache.cache s).


(** The neighbours of chapter [K] to prefetch: the previous chapter and the
    next two, inside the book, neither resident nor in flight. *)
Definition prefetchWindow (K : Z) (s : ChapterCache.State) : list Z :=
  filter (fun i =>
            (0 <=? i)
            && (i <? Z.of_nat (List.length (chapters (ChapterCache.book s))))
            && negb (ChapterCache.has (ChapterCache.cache s) i)
            && negb (ChapterCache.setHas (ChapterCache.prefetchQueue s) i))
         [K - 1; K + 1; K + 2].

(** The blob URLs [clear] finds: for every resident id, in insertion order,
    those of the layers the book holds for that chapter. *)
Definition residentBlobUrls (s : ChapterCache.State) : list string :=
  flat_map (fun kv => match chapterAt (ChapterCache.book s) (fst kv) with
                      | Some c => ChapterCache.blobUrls (layers c)
                      | None => []
                      end)
           (ChapterCache.cache s).


(** The image of a chunking call sits on the first of the layers and on no
    other. *)
Definition imageOnFirst (img : option string) (added : list ContentLayer) : Prop :=
  exists first rest,
    added = first :: rest /\
    image first = img /\
    Forall (fun l => image l = None) rest.

(** Every cut between two chunks is forced: the first paragraph of a chunk
    would have taken the chunk before it over the limit. *)
Fixpoint cutChain (limit : Z) (chunks : list (list string)) : Prop :=
  match chunks with
  | [] => True
  | a :: r =>
      match r with
      | [] => True
      | b :: _ =>
          (exists p q, b = p :: q /\ limit < chars a + JS.length p)
          /\ cutChain limit r
      end
  end.

(** The same, on consecutive layers. *)
Definition forcedCuts (limit : Z) (ls : list ContentLayer) : Prop :=
  forall n a b,
    nth_error ls n = Some a -> nth_error ls (S n) = Some b ->
    exists p q, paragraphs b = p :: q /\ limit < chars (paragraphs a) + JS.length p.


(** The loop of the EPUB chunker, in either revision, is at the same point
    as the loop of [chunkParagraphs]: the layers it has added to the array
    hold the same chunks, and the pending chunk and its size are the
    same. *)
Definition sameCuts (layers : list ContentLayer) (t : TxtAdapter.ChunkLoop)
    (e : EpubAdapter.ChunkLoop) : Prop :=
  (exists added,
     EpubAdapter.out e = layers ++ added /\
     map paragraphs added = map paragraphs (TxtAdapter.out t)) /\
  EpubAdapter.currentChunk e = TxtAdapter.currentChunk t /\
  EpubAdapter.currentChunkSize e = TxtAdapter.currentChunkSize t.


(** *** Content: texts and pictures *)

Inductive Content :=
| Paragraph (text : string)
| Picture (url : string).

(** The trimmed text of a node, when there is any. *)
Definition ownText (text : option string) : list Content :=
  match text with
  | Some t => if JS.truthy (JS.trim t) then [Paragraph (JS.trim t)] else []
  | None => []
  end.

(** The image of an [img] node, when its source resolves and the archive
    has it. *)
Definition ownPicture (epubBook : Container) (sec : SpineSection)
    (src : option string) : list Content :=
  match src with
  | Some s =>
      if JS.truthy s then
        match EpubAdapter.fetchImage epubBook sec s with
        | Some url => [Picture url]
        | None => []
        end
      else []
  | None => []
  end.




Definition pictures (cs : list Content) : list string :=
  flat_map (fun c => match c with Picture u => [u] | Paragraph _ => [] end) cs.


(** *** The elements of a document

    Every element below a node, in document order, each with the elements
    that lie between the node and it, the nearest first. *)
Fixpoint located (ancestors : list Element) (element : Element) {struct element}
  : list (list Element * Element) :=
  match element with
  | Elem _ _ _ kids =>
      (fix each (kids : list Element) {struct kids}
         : list (list Element * Element) :=
         match kids with
         | [] => []
         | child :: rest =>
             ((ancestors, child) :: located (child :: ancestors) child)
             ++ each rest
         end) kids
  end.

(** [element.tagName.toLowerCase()] *)
Definition tagOf (e : Element) : string :=
  match e with Elem tag _ _ _ => JS.toLowerCase tag end.

Definition isImage (e : Element) : bool := String.eqb (tagOf e) "img".

Definition isTextBlock (e : Element) : bool :=
  String.eqb (tagOf e) "p" || EpubAdapter.isHeading (tagOf e).

(** An element stands alone when it lies inside no paragraph, heading or
    image of the document. *)
Definition standsAlone (le : list Element * Element) : bool :=
  forallb (fun a => negb (isTextBlock a || isImage a)) (fst le).

(** What one element holds by itself: an image its picture, when it can be
    fetched; a paragraph or heading its text; any other element its text
    when it has no child element, and nothing when it has. *)
Definition elementContent (epubBook : Container) (sec : SpineSection)
    (e : Element) : list Content :=
  match e with
  | Elem _ src text kids =>
      if isImage e then ownPicture epubBook sec src
      else if isTextBlock e then ownText text
      else match kids with
           | [] => ownText text
           | _ :: _ => []
           end
  end.


(** The pictures of all images of a document that can be fetched, wherever
    they lie. *)
Definition fetchedImages (epubBook : Container) (sec : SpineSection)
    (body : Element) : list string :=
  pictures (flat_map (fun le => if isImage (snd le)
                                then elementContent epubBook sec (snd le)
                                else [])
                     (located [] body)).

(** No image of the document lies inside a paragraph, heading or image. *)
Definition imagesStandAlone (body : Element) : bool :=
  forallb (fun le => implb (isImage (snd le)) (standsAlone le)) (located [] body).



(** *** The sections of a text, read off its lines

    The trimmed lines of a text cut at the heading lines: the lines before
    the first heading, and each heading with the lines up to the next.
    This is the reference the plain-text adapter is compared with. *)

Fixpoint blocks (lines : list string) : list string * list (string * list string) :=
  match lines with
  | [] => ([], [])
  | l :: r =>
      let '(pre, bs) := blocks r in
      if TxtAdapter.CHAPTER_REGEX l then ([], (l, pre) :: bs) else (l :: pre, bs)
  end.

(** The trimmed lines of a text. *)
Definition trimmedLines (text : string) : list string :=
  map JS.trim (JS.split "010"%char text).

(** The sections as title and body: a default section for text before the
    first heading, a section per heading, and one empty section named for
    the whole text when there is nothing else.  A body is the non-blank
    lines. *)
Definition sections (lines : list string) : list (string * list string) :=
  let '(pre, bs) := blocks lines in
  match (if existsb JS.truthy pre then [("正文", filter JS.truthy pre)] else [])
        ++ map (fun hb => (fst hb, filter JS.truthy (snd hb))) bs with
  | [] => [("全文", [])]
  | ss => ss
  end.

(** Skeletons for a list of titles, numbered from [index]. *)
Fixpoint skeletonsFrom (index : Z) (titles : list string) : list UnifiedChapter :=
  match titles with
  | [] => []
  | t :: ts => TxtAdapter.skeleton index t :: skeletonsFrom (index + 1) ts
  end.


(** The lines of a list of blocks, each heading followed by its lines. *)
Definition flatBlocks (bs : list (string * list string)) : list string :=
  flat_map (fun hb => fst hb :: snd hb) bs.

(** No line is a heading. *)
Definition headingFree (B : list string) : Prop :=
  Forall (fun l => TxtAdapter.CHAPTER_REGEX l = false) B.


(* ================================================================== *)
(** ** The book table ([db/index.ts]) *)

Module Db.

(** The loop of [getNextAvailableBookId] from position [i] on: the first
    position whose book does not have the id [i + 1]. *)
Fixpoint firstGap (i : Z) (ids : list Z) : option Z :=
  match ids with
  | [] => None
  | bookId :: rest =>
      let expectedId := i + 1 in
      if negb (bookId =? expectedId) then Some expectedId
      else firstGap (i + 1) rest
  end.

(** [getNextAvailableBookId()], on the ids of
    [db.books.orderBy('id').toArray()], in that order. *)
Definition getNextAvailableBookId (allBooks : list Z) : Z :=
  if Z.of_nat (List.length allBooks) =? 0 then 1
  else match firstGap 0 allBooks with
       | Some expectedId => expectedId
       | None => Z.of_nat (List.length allBooks) + 1
       end.

End Db.

(** The ids come in strictly ascending order, as an ordered read of a
    primary key gives them. *)
Fixpoint ascending (ids : list Z) : Prop :=
  match ids with
  | [] => True
  | x :: rest =>
      match rest with
      | [] => True
      | y :: _ => x < y /\ ascending rest
      end
  end.


(** The entries of the table of contents whose section the spine has. *)
Definition validEntries (spineGet : string -> bool)
    (toc : list EpubAdapter.NavItem) : list EpubAdapter.NavItem :=
  filter (fun item => spineGet (EpubAdapter.nav_href item)) toc.


(* ================================================================== *)
(** ** The reader store ([store/reader.ts]) *)

Module ReaderStore.

(** The state of the store.  [setActiveBook] hands one book object both
    to [activeBook] and to the cache it creates, so the book is kept once,
    in the cache, and [activeBook] tells whether [activeBook.value] is
    set: [cleanup] unsets it and keeps the cache. *)
Record State := mkStore {
  activeBook : bool;
  chapterCache : option ChapterCache.State;
  currentChapterId : Z;
  currentLayers : list ContentLayer;
  loading : bool;
  error : string
}.

Definition initial : State := mkStore false None 0 [] false "".

(** [activeBook.value] *)
Definition activeBookValue (st : State) : option UnifiedBook :=
  if activeBook st then option_map ChapterCache.book (chapterCache st) else None.

Definition hasPrevChapter (st : State) : bool := currentChapterId st >? 0.

Definition hasNextChapter (st : State) : bool :=
  match activeBookValue st with
  | None => false
  | Some book => currentChapterId st <? Z.of_nat (List.length (chapters book)) - 1
  end.

(** The cache of the previous book is cleared and dropped with it. *)
Definition setActiveBook (book : UnifiedBook) (st : State) : State :=
  mkStore true (Some (ChapterCache.create book)) 0 [] (loading st) "".

Definition noActiveBook : string := "没有活动的书籍".
Definition outOfRange : string := "章节ID超出范围".
Definition atFirst : string := "已经是第一章".
Definition atLast : string := "已经是最后一章".

(** [loadChapter(chapterId)], with [now] the time of the cache access.
    The two guards throw before anything is written. *)
Definition loadChapter (chapterId : Z) (now : Z) (st : State)
  : State * Result unit :=
  match activeBook st, chapterCache st with
  | true, Some cache =>
      if (chapterId <? 0)
         || (chapterId >=? Z.of_nat (List.length (chapters (ChapterCache.book cache))))
      then (st, Throw outOfRange)
      else
        match ChapterCache.getChapter chapterId now cache with
        | (cache', Ok layers) =>
            (mkStore true (Some cache') chapterId layers false "", Ok tt)
        | (cache', Throw err) =>
            (mkStore true (Some cache') (currentChapterId st) (currentLayers st)
                     false err,
             Throw err)
        end
  | _, _ => (st, Throw noActiveBook)
  end.

Definition prevChapter (now : Z) (st : State) : State * Result unit :=
  if negb (hasPrevChapter st) then (st, Throw atFirst)
  else loadChapter (currentChapterId st - 1) now st.

Definition nextChapter (now : Z) (st : State) : State * Result unit :=
  if negb (hasNextChapter st) then (st, Throw atLast)
  else loadChapter (currentChapterId st + 1) now st.

Definition gotoChapter (chapterId : Z) (now : Z) (st : State)
  : State * Result unit :=
  loadChapter chapterId now st.

Definition cleanup (st : State) : State :=
  mkStore false (option_map ChapterCache.clear (chapterCache st)) 0 [] (loading st) "".

(** [chapterCache?.getStats() || null] *)
Definition getCacheStats (st : State) : option ChapterCache.Stats :=
  option_map ChapterCache.getStats (chapterCache st).

(** *** Runs of the store *)

Inductive Op :=
| SetActiveBook (book : UnifiedBook)
| GotoChapter (chapterId now : Z)
| PrevChapter (now : Z)
| NextChapter (now : Z)
| Cleanup.

(** One call; a call that throws leaves the state it has reached. *)
Definition step (st : State) (o : Op) : State :=
  match o with
  | SetActiveBook book => setActiveBook book st
  | GotoChapter i now => fst (gotoChapter i now st)
  | PrevChapter now => fst (prevChapter now st)
  | NextChapter now => fst (nextChapter now st)
  | Cleanup => cleanup st
  end.

Definition run (ops : list Op) (st : State) : State := fold_left step ops st.

End ReaderStore.

(** The position of the store is a chapter of the active book, or the
    start when the book has no chapter or none is active. *)
Definition positionOk (st : ReaderStore.State) : Prop :=
  0 <= ReaderStore.currentChapterId st /\
  forall book, ReaderStore.activeBookValue st = Some book ->
    chapters book <> [] -> inRange book (ReaderStore.currentChapterId st).


(** The directories of a section path: the non-empty segments before its
    last slash. *)
Definition sectionDirs (base : string) : list string :=
  filter JS.truthy (JS.split "/" (JS.substring0 (JS.lastIndexOf "/" base) base)).

(* ================================================================== *)
(** * Properties *)

(** ** Strings and layer sequences *)

Lemma codeUnits_nonneg (c : ascii) : 0 <= JS.codeUnits c.
Proof.
  unfold JS.codeUnits.
  repeat match goal with |- context [if ?b then _ else _] => destruct b end; lia.
Qed.

Lemma length_nonneg (s : string) : 0 <= JS.length s.
Proof.
  induction s as [|c r IH]; simpl; [lia|].
  pose proof (codeUnits_nonneg c); lia.
Qed.

Lemma chars_nonneg (ps : list string) : 0 <= chars ps.
Proof.
  induction ps as [|p ps IH]; simpl; [lia|].
  pose proof (length_nonneg p); lia.
Qed.

Lemma chars_app (ps qs : list string) : chars (ps ++ qs) = chars ps + chars qs.
Proof. induction ps as [|p ps IH]; simpl; lia. Qed.

(** [reduce((sum, p) => sum + p.length, 0)] is the character count. *)
Lemma reduce_chars (ps : list string) : forall acc,
  fold_left (fun sum p => sum + JS.length p) ps acc = acc + chars ps.
Proof.
  induction ps as [|p ps IH]; intros acc; simpl; [lia|]. rewrite IH. lia.
Qed.

Lemma allParagraphs_app (xs ys : list ContentLayer) :
  allParagraphs (xs ++ ys) = allParagraphs xs ++ allParagraphs ys.
Proof. unfold allParagraphs. now rewrite map_app, concat_app. Qed.

Lemma allParagraphs_one (l : ContentLayer) : allParagraphs [l] = paragraphs l.
Proof. unfold allParagraphs. simpl. now rewrite app_nil_r. Qed.

Lemma chainEnd_app (s : Z) (xs ys : list ContentLayer) :
  chainEnd s (xs ++ ys) = chainEnd (chainEnd s xs) ys.
Proof. unfold chainEnd. now rewrite fold_left_app. Qed.

Lemma chainFrom_app (xs ys : list ContentLayer) : forall s,
  chainFrom s (xs ++ ys) <-> chainFrom s xs /\ chainFrom (chainEnd s xs) ys.
Proof.
  induction xs as [|x xs IH]; intros s; simpl.
  - tauto.
  - rewrite IH. unfold chainEnd at 2. simpl. fold (chainEnd (s + slots x) xs).
    tauto.
Qed.

(** A chain satisfies the invariant on consecutive layers. *)
Lemma chainFrom_continuity (ls : list ContentLayer) : forall s,
  chainFrom s ls -> indexContinuity ls.
Proof.
  induction ls as [|l ls IH]; intros s H n a b Ha Hb.
  - destruct n; discriminate.
  - destruct H as [Hl Hrest]. destruct n as [|n].
    + simpl in Ha, Hb. injection Ha as <-.
      destruct ls as [|l' ls']; [discriminate|].
      simpl in Hb. injection Hb as <-. destruct Hrest as [-> _]. lia.
    + simpl in Ha. change (nth_error ls (S n) = Some b) in Hb.
      exact (IH _ Hrest n a b Ha Hb).
Qed.

(** A loop invariant rule for [fold_left]. *)
Lemma fold_left_invariant {A B : Type} (f : A -> B -> A)
    (P : list B -> A -> Prop) :
  (forall done a x, P done a -> P (done ++ [x]) (f a x)) ->
  forall l done a, P done a -> P (done ++ l) (fold_left f l a).
Proof.
  intros Hstep l. induction l as [|x l IH]; intros done a H; simpl.
  - now rewrite app_nil_r.
  - replace (done ++ x :: l) with ((done ++ [x]) ++ l)
      by now rewrite <- app_assoc.
    apply IH, Hstep, H.
Qed.

(** ** The greedy chunk loop *)

Section ChunkLoopFacts.

Variable limit : Z.

Lemma loopInv_init (start : Z) : loopInv limit start [] [] [] 0 start.
Proof. split; simpl; auto. left; simpl; lia. Qed.

(** A pending chunk makes a size-bounded layer. *)
Lemma pending_sizeBounded (chunk : list string) (i : Z) (img : option string) :
  pendingOk limit chunk -> chunk <> [] -> sizeBounded limit (mkLayer chunk i img).
Proof.
  intros Hp Hne. split; simpl.
  - intros H2. destruct Hp as [H1|Hc]; [lia|exact Hc].
  - intros Hover. destruct Hp as [H1|Hc]; [|lia].
    destruct chunk as [|p [|q r]]; [congruence| |simpl in H1; lia].
    exists p. split; [reflexivity|]. simpl in Hover. lia.
Qed.

(** Flushing a non-empty pending chunk as a layer. *)
Lemma loopInv_flush start consumed added chunk size next img :
  loopInv limit start consumed added chunk size next ->
  chunk <> [] ->
  loopInv limit start consumed (added ++ [mkLayer chunk next img]) [] 0
          (next + slots (mkLayer chunk next img)).
Proof.
  intros [Hr Hs Hc Hn Hb Hne Hp] Hchunk. split.
  - rewrite allParagraphs_app, app_nil_r, allParagraphs_one. exact Hr.
  - reflexivity.
  - apply chainFrom_app. split; [exact Hc|]. rewrite Hn. simpl. auto.
  - rewrite chainEnd_app, Hn. reflexivity.
  - apply Forall_app. split; [exact Hb|]. constructor; [|constructor].
    now apply pending_sizeBounded.
  - apply Forall_app. split; [exact Hne|]. constructor; [|constructor].
    exact Hchunk.
  - left; simpl; lia.
Qed.

(** Adding a paragraph to the pending chunk when no flush is due. *)
Lemma loopInv_push start consumed added chunk size next para :
  loopInv limit start consumed added chunk size next ->
  (chunk = [] \/ size + JS.length para <= limit) ->
  loopInv limit start (consumed ++ [para]) added (chunk ++ [para])
          (size + JS.length para) next.
Proof.
  intros [Hr Hs Hc Hn Hb Hne Hp] Hcond. split; auto.
  - now rewrite app_assoc, Hr.
  - rewrite chars_app, Hs. simpl. lia.
  - destruct Hcond as [->|Hle].
    + left; simpl; lia.
    + right. rewrite chars_app. simpl. lia.
Qed.

End ChunkLoopFacts.

(** The test [currentChunk.length > 0]. *)
Lemma nonempty_test {A : Type} (l : list A) :
  (0 <? Z.of_nat (List.length l)) = true <-> l <> [].
Proof.
  destruct l as [|x l]; simpl List.length.
  - split; [discriminate|congruence].
  - split; [discriminate|]. intros _. apply Z.ltb_lt. lia.
Qed.

Lemma empty_test {A : Type} (l : list A) :
  (0 <? Z.of_nat (List.length l)) = false <-> l = [].
Proof.
  destruct l as [|x l]; simpl List.length.
  - split; reflexivity.
  - split; [|discriminate]. intros H. apply Z.ltb_ge in H. lia.
Qed.

(** ** [TxtAdapter.chunkParagraphs] *)

Lemma slots_no_image (ps : list string) (i : Z) :
  slots (mkLayer ps i None) = Z.of_nat (List.length ps).
Proof. unfold slots, hasImage. simpl. lia. Qed.

(** One iteration keeps the loop invariant, and adds no image. *)
Lemma txt_chunkStep_inv (done : list string) (st : TxtAdapter.ChunkLoop)
    (para : string) :
  loopInv TxtAdapter.MAX_LAYER_LENGTH 0 done (TxtAdapter.out st)
    (TxtAdapter.currentChunk st) (TxtAdapter.currentChunkSize st)
    (TxtAdapter.nextStart st) /\
  Forall (fun l => image l = None) (TxtAdapter.out st) ->
  let st' := TxtAdapter.chunkStep st para in
  loopInv TxtAdapter.MAX_LAYER_LENGTH 0 (done ++ [para]) (TxtAdapter.out st')
    (TxtAdapter.currentChunk st') (TxtAdapter.currentChunkSize st')
    (TxtAdapter.nextStart st') /\
  Forall (fun l => image l = None) (TxtAdapter.out st').
Proof.
  intros [Hinv Himg]. unfold TxtAdapter.chunkStep.
  destruct (_ && _) eqn:Hc; cbn [TxtAdapter.out TxtAdapter.currentChunk
    TxtAdapter.currentChunkSize TxtAdapter.nextStart].
  - apply andb_true_iff in Hc. destruct Hc as [_ Hne].
    apply nonempty_test in Hne. split.
    + rewrite <- (slots_no_image (TxtAdapter.currentChunk st) (TxtAdapter.nextStart st)).
      exact (loopInv_push _ _ _ _ [] 0 _ para
               (loopInv_flush _ _ _ _ _ _ _ None Hinv Hne) (or_introl eq_refl)).
    + apply Forall_app. split; [exact Himg|]. now constructor.
  - split; [|exact Himg]. apply loopInv_push; [exact Hinv|].
    apply andb_false_iff in Hc. destruct Hc as [Hle|Hem].
    + right. rewrite Z.gtb_ltb in Hle. apply Z.ltb_ge in Hle. exact Hle.
    + left. now apply empty_test.
Qed.

(** The loop of [chunkParagraphs], from its initial state. *)
Lemma txt_loop_inv (ps : list string) :
  let st := fold_left TxtAdapter.chunkStep ps (TxtAdapter.mkLoop [] [] 0 0) in
  loopInv TxtAdapter.MAX_LAYER_LENGTH 0 ps (TxtAdapter.out st)
    (TxtAdapter.currentChunk st) (TxtAdapter.currentChunkSize st)
    (TxtAdapter.nextStart st) /\
  Forall (fun l => image l = None) (TxtAdapter.out st).
Proof.
  change ps with ([] ++ ps) at 2.
  apply (fold_left_invariant TxtAdapter.chunkStep
    (fun done st =>
       loopInv TxtAdapter.MAX_LAYER_LENGTH 0 done (TxtAdapter.out st)
         (TxtAdapter.currentChunk st) (TxtAdapter.currentChunkSize st)
         (TxtAdapter.nextStart st) /\
       Forall (fun l => image l = None) (TxtAdapter.out st))).
  - intros done a x H. exact (txt_chunkStep_inv done a x H).
  - split; [apply loopInv_init|constructor].
Qed.

(** What [chunkParagraphs] returns: a chain from index [0] of non-empty,
    size-bounded layers without images whose paragraphs are the input. *)
Lemma txt_chunkParagraphs_spec (ps : list string) :
  let ls := TxtAdapter.chunkParagraphs ps in
  allParagraphs ls = ps /\
  chainFrom 0 ls /\
  Forall (sizeBounded TxtAdapter.MAX_LAYER_LENGTH) ls /\
  Forall textLayer ls.
Proof.
  pose proof (txt_loop_inv ps) as H. cbv zeta in H |- *.
  unfold TxtAdapter.chunkParagraphs, TxtAdapter.chunkFinish.
  destruct H as [Hinv Himg].
  set (st := fold_left TxtAdapter.chunkStep ps (TxtAdapter.mkLoop [] [] 0 0)) in *.
  destruct (0 <? _) eqn:Hc.
  - apply nonempty_test in Hc.
    pose proof (loopInv_flush _ _ _ _ _ _ _ None Hinv Hc) as [Hr _ Hch _ Hb Hne _].
    rewrite app_nil_r in Hr. repeat split; auto.
    apply Forall_forall. intros l Hl. split.
    + exact (proj1 (Forall_forall _ _) Hne l Hl).
    + apply in_app_or in Hl. destruct Hl as [Hl|[<-|[]]]; [|reflexivity].
      exact (proj1 (Forall_forall _ _) Himg l Hl).
  - apply empty_test in Hc. destruct Hinv as [Hr _ Hch _ Hb Hne _].
    rewrite Hc, app_nil_r in Hr. repeat split; auto.
    apply Forall_forall. intros l Hl. split.
    + exact (proj1 (Forall_forall _ _) Hne l Hl).
    + exact (proj1 (Forall_forall _ _) Himg l Hl).
Qed.

(** ** [EpubAdapter.addParagraphsWithChunking] *)

(** The index after a flushed chunk counts the slots of its layer. *)
Lemma chunkNext_slots (image : option string) (st : EpubAdapter.ChunkLoop) :
  EpubAdapter.chunkNext image st
  = EpubAdapter.currentStartIndex st + slots (EpubAdapter.chunkLayer image st).
Proof.
  unfold EpubAdapter.chunkNext, EpubAdapter.chunkLayer, slots, hasImage.
  destruct (EpubAdapter.isFirstChunk st); simpl; reflexivity.
Qed.

(** One iteration keeps the loop invariant on the layers added to the
    array so far. *)
Lemma epub_chunkStep_inv (layers : list ContentLayer) (start : Z)
    (image : option string) (done : list string) (st : EpubAdapter.ChunkLoop)
    (para : string) :
  (exists added,
     EpubAdapter.out st = layers ++ added /\
     loopInv EpubAdapter.MAX_LAYER_LENGTH start done added
       (EpubAdapter.currentChunk st) (EpubAdapter.currentChunkSize st)
       (EpubAdapter.currentStartIndex st)) ->
  let st' := EpubAdapter.chunkStep image st para in
  exists added,
    EpubAdapter.out st' = layers ++ added /\
    loopInv EpubAdapter.MAX_LAYER_LENGTH start (done ++ [para]) added
      (EpubAdapter.currentChunk st') (EpubAdapter.currentChunkSize st')
      (EpubAdapter.currentStartIndex st').
Proof.
  intros (added & Hout & Hinv). unfold EpubAdapter.chunkStep.
  destruct (_ && _) eqn:Hc; cbn [EpubAdapter.out EpubAdapter.currentChunk
    EpubAdapter.currentChunkSize EpubAdapter.currentStartIndex
    EpubAdapter.isFirstChunk].
  - apply andb_true_iff in Hc. destruct Hc as [_ Hne].
    apply nonempty_test in Hne.
    exists (added ++ [EpubAdapter.chunkLayer image st]). split.
    + now rewrite Hout, app_assoc.
    + rewrite chunkNext_slots.
      exact (loopInv_push _ _ _ _ [] 0 _ para
               (loopInv_flush _ _ _ _ _ _ _ _ Hinv Hne) (or_introl eq_refl)).
  - exists added. split; [exact Hout|]. apply loopInv_push; [exact Hinv|].
    apply andb_false_iff in Hc. destruct Hc as [Hle|Hem].
    + right. rewrite Z.gtb_ltb in Hle. apply Z.ltb_ge in Hle. exact Hle.
    + left. now apply empty_test.
Qed.

(** What one call adds to the layers array: a chain from the start index,
    ending at the returned index, of size-bounded layers whose paragraphs
    are the input. *)
Lemma epub_addParagraphs_spec (layers : list ContentLayer) (ps : list string)
    (start : Z) (image : option string) :
  exists added,
    EpubAdapter.addParagraphsWithChunking layers ps start image
    = (layers ++ added, chainEnd start added) /\
    allParagraphs added = ps /\
    chainFrom start added /\
    Forall (sizeBounded EpubAdapter.MAX_LAYER_LENGTH) added.
Proof.
  unfold EpubAdapter.addParagraphsWithChunking. rewrite reduce_chars.
  destruct (0 + chars ps <=? EpubAdapter.MAX_LAYER_LENGTH) eqn:Hfast.
  - exists [mkLayer ps start image]. apply Z.leb_le in Hfast.
    split; [|split; [|split]].
    + unfold chainEnd, slots, hasImage. simpl. f_equal. lia.
    + apply allParagraphs_one.
    + simpl. auto.
    + constructor; [|constructor]. split; simpl; intros H; [lia|lia].
  - pose proof (fold_left_invariant (EpubAdapter.chunkStep image)
      (fun done st => exists added,
         EpubAdapter.out st = layers ++ added /\
         loopInv EpubAdapter.MAX_LAYER_LENGTH start done added
           (EpubAdapter.currentChunk st) (EpubAdapter.currentChunkSize st)
           (EpubAdapter.currentStartIndex st))
      (fun done a x H => epub_chunkStep_inv layers start image done a x H)
      ps [] (EpubAdapter.mkLoop layers [] 0 start true)) as H.
    simpl in H. destruct H as (added & Hout & Hinv).
    { exists []. split; [now rewrite app_nil_r|apply loopInv_init]. }
    set (st := fold_left _ ps _) in *.
    destruct (0 <? _) eqn:Hc.
    + apply nonempty_test in Hc.
      exists (added ++ [EpubAdapter.chunkLayer image st]).
      pose proof (loopInv_flush _ _ _ _ _ _ _
        (if EpubAdapter.isFirstChunk st then image else None) Hinv Hc)
        as [Hr _ Hch Hn Hb _ _].
      fold (EpubAdapter.chunkLayer image st) in *.
      rewrite app_nil_r in Hr. repeat split; auto.
      rewrite Hout, app_assoc, Hn, chunkNext_slots. reflexivity.
    + apply empty_test in Hc. destruct Hinv as [Hr _ Hch Hn Hb _ _].
      rewrite Hc, app_nil_r in Hr. exists added. repeat split; auto.
      now rewrite Hout, Hn.
Qed.

(** ** The tree walk of the EPUB adapter *)

(** [traverseDOM] is the loop over the children, with [visit] as body. *)
Lemma traverseDOM_unfold epubBook sec tag src text kids w :
  EpubAdapter.traverseDOM epubBook sec (Elem tag src text kids) w
  = fold_left (fun w child => EpubAdapter.visit epubBook sec child w) kids w.
Proof.
  revert w. induction kids as [|child rest IH]; intros w.
  - reflexivity.
  - simpl fold_left. rewrite <- IH. destruct child. reflexivity.
Qed.

(** Induction on element trees: the children of a node come with the
    property. *)
Lemma Element_tree_ind (P : Element -> Prop) :
  (forall tag src text kids, Forall P kids -> P (Elem tag src text kids)) ->
  forall e, P e.
Proof.
  intros H. fix IH 1. intros [tag src text kids]. apply H.
  induction kids as [|k kids IHk]; constructor; [apply IH|exact IHk].
Qed.

(** A minted blob URL is never the empty string, and is a blob URL. *)
Lemma createObjectURL_truthy (blob : string) :
  JS.truthy (createObjectURL blob) = true.
Proof. reflexivity. Qed.

Lemma fetchImage_truthy epubBook sec src url :
  EpubAdapter.fetchImage epubBook sec src = Some url -> JS.truthy url = true.
Proof.
  unfold EpubAdapter.fetchImage.
  destruct (EpubAdapter.resolvePath sec src); [|discriminate].
  destruct (archive epubBook s); [|discriminate].
  intros [= <-]. reflexivity.
Qed.

(** The layers emitted so far form a chain from [0] that ends at the
    running index. *)
Lemma pushText_layers text w :
  EpubAdapter.w_layers (EpubAdapter.pushText text w) = EpubAdapter.w_layers w /\
  EpubAdapter.globalIndex (EpubAdapter.pushText text w) = EpubAdapter.globalIndex w.
Proof.
  unfold EpubAdapter.pushText. destruct text as [t|]; [|now split].
  destruct (JS.truthy (JS.trim t)); now split.
Qed.

Lemma truncateAt_chain url w :
  JS.truthy url = true ->
  chainFrom 0 (EpubAdapter.w_layers w) ->
  chainEnd 0 (EpubAdapter.w_layers w) = EpubAdapter.globalIndex w ->
  let w' := EpubAdapter.truncateAt url w in
  chainFrom 0 (EpubAdapter.w_layers w') /\
  chainEnd 0 (EpubAdapter.w_layers w') = EpubAdapter.globalIndex w'.
Proof.
  intros Hurl Hch Hend. unfold EpubAdapter.truncateAt.
  destruct (0 <? _).
  - destruct (epub_addParagraphs_spec (EpubAdapter.w_layers w)
      (EpubAdapter.currentParagraphs w) (EpubAdapter.globalIndex w) (Some url))
      as (added & -> & _ & Hadd & _).
    cbn [EpubAdapter.w_layers EpubAdapter.globalIndex]. split.
    + apply chainFrom_app. rewrite Hend. now split.
    + now rewrite chainEnd_app, Hend.
  - cbn [EpubAdapter.w_layers EpubAdapter.globalIndex]. split.
    + apply chainFrom_app. rewrite Hend. simpl. auto.
    + rewrite chainEnd_app, Hend. unfold chainEnd, slots, hasImage. simpl.
      rewrite Hurl. reflexivity.
Qed.

Lemma visit_chain epubBook sec : forall child w,
  chainFrom 0 (EpubAdapter.w_layers w) ->
  chainEnd 0 (EpubAdapter.w_layers w) = EpubAdapter.globalIndex w ->
  let w' := EpubAdapter.visit epubBook sec child w in
  chainFrom 0 (EpubAdapter.w_layers w') /\
  chainEnd 0 (EpubAdapter.w_layers w') = EpubAdapter.globalIndex w'.
Proof.
  induction child as [tag src text kids IH] using Element_tree_ind.
  intros w Hch Hend. cbv zeta.
  assert (Htext : forall t,
    chainFrom 0 (EpubAdapter.w_layers (EpubAdapter.pushText t w)) /\
    chainEnd 0 (EpubAdapter.w_layers (EpubAdapter.pushText t w))
    = EpubAdapter.globalIndex (EpubAdapter.pushText t w)).
  { intros t. destruct (pushText_layers t w) as [-> ->]. now split. }
  unfold EpubAdapter.visit. cbv zeta.
  destruct (String.eqb _ "p"); [apply Htext|].
  destruct (EpubAdapter.isHeading _); [apply Htext|].
  destruct (String.eqb _ "img").
  - unfold EpubAdapter.onImage. destruct src as [s|]; [|now split].
    destruct (JS.truthy s); [|now split].
    destruct (EpubAdapter.fetchImage epubBook sec s) as [url|] eqn:Hf; [|now split].
    apply truncateAt_chain; auto. exact (fetchImage_truthy _ _ _ _ Hf).
  - destruct (0 <? _); [|apply Htext].
    rewrite traverseDOM_unfold. clear Htext.
    revert w Hch Hend. induction IH as [|k kids Hk _ IHkids]; intros w Hch Hend.
    + now split.
    + simpl fold_left. destruct (Hk w Hch Hend) as [H1 H2].
      apply IHkids; assumption.
Qed.

Lemma traverseDOM_chain epubBook sec element w :
  chainFrom 0 (EpubAdapter.w_layers w) ->
  chainEnd 0 (EpubAdapter.w_layers w) = EpubAdapter.globalIndex w ->
  let w' := EpubAdapter.traverseDOM epubBook sec element w in
  chainFrom 0 (EpubAdapter.w_layers w') /\
  chainEnd 0 (EpubAdapter.w_layers w') = EpubAdapter.globalIndex w'.
Proof.
  destruct element as [tag src text kids]. rewrite traverseDOM_unfold.
  revert w. induction kids as [|k kids IH]; intros w Hch Hend.
  - now split.
  - simpl fold_left. destruct (visit_chain epubBook sec k w Hch Hend) as [H1 H2].
    apply IH; assumption.
Qed.

(** The layers of a parsed document chain from index [0]. *)
Lemma parseHTML_chain epubBook sec body :
  chainFrom 0 (EpubAdapter.parseHTML epubBook sec body).
Proof.
  unfold EpubAdapter.parseHTML. destruct body as [b|]; [|exact I].
  destruct (traverseDOM_chain epubBook sec b (EpubAdapter.mkWalk [] [] 0) I eq_refl)
    as [Hch Hend].
  cbv zeta. destruct (0 <? _); [|exact Hch].
  destruct (epub_addParagraphs_spec
    (EpubAdapter.w_layers (EpubAdapter.traverseDOM epubBook sec b (EpubAdapter.mkWalk [] [] 0)))
    (EpubAdapter.currentParagraphs (EpubAdapter.traverseDOM epubBook sec b (EpubAdapter.mkWalk [] [] 0)))
    (EpubAdapter.globalIndex (EpubAdapter.traverseDOM epubBook sec b (EpubAdapter.mkWalk [] [] 0)))
    None) as (added & -> & _ & Hadd & _).
  simpl fst. apply chainFrom_app. rewrite Hend. now split.
Qed.

(** ** Loading a chapter *)

Lemma at_index_none {A : Type} (l : list A) (i : Z) :
  at_index l i = None <-> ~ (0 <= i < Z.of_nat (List.length l)).
Proof.
  unfold at_index. destruct (i <? 0) eqn:Hneg.
  - apply Z.ltb_lt in Hneg. split; [lia|reflexivity].
  - apply Z.ltb_ge in Hneg. rewrite nth_error_None. lia.
Qed.

Lemma chapterAt_none (book : UnifiedBook) (chapterId : Z) :
  chapterAt book chapterId = None <-> ~ inRange book chapterId.
Proof. apply at_index_none. Qed.

Lemma chapterAt_in (book : UnifiedBook) (chapterId : Z) (c : UnifiedChapter) :
  chapterAt book chapterId = Some c -> In c (chapters book).
Proof.
  unfold chapterAt, at_index. destruct (chapterId <? 0); [discriminate|].
  apply nth_error_In.
Qed.

(** A layer sequence of one layer is continuous. *)
Lemma indexContinuity_one (l : ContentLayer) : indexContinuity [l].
Proof. intros [|[|n]] a b Ha Hb; discriminate. Qed.

(** Both adapters throw for a missing chapter and for nothing else. *)
Lemma txt_loadChapter_throws (book : UnifiedBook) (chapterId : Z) :
  (exists m, TxtAdapter.loadChapter book chapterId = Throw m)
  <-> chapterAt book chapterId = None.
Proof.
  unfold TxtAdapter.loadChapter.
  destruct (chapterAt book chapterId) as [c|].
  - split; [|discriminate]. intros [m H].
    destruct (_ && _); [discriminate|].
    destruct (TxtAdapter.findChapterBounds _ _ _ _). discriminate.
  - split; [reflexivity|]. intros _. eexists. reflexivity.
Qed.

Lemma epub_loadChapter_throws (book : UnifiedBook) (chapterId : Z) :
  (exists m, EpubAdapter.loadChapter book chapterId = Throw m)
  <-> chapterAt book chapterId = None.
Proof.
  unfold EpubAdapter.loadChapter.
  destruct (chapterAt book chapterId) as [c|].
  - split; [|discriminate]. intros [m H].
    destruct (_ && _); [discriminate|].
    destruct (EpubAdapter.resolveSection _ _ _); discriminate.
  - split; [reflexivity|]. intros _. eexists. reflexivity.
Qed.

(** In the current revision every chapter load returns a continuous layer
    sequence, given that the layers the book already holds are. *)
Lemma loadChapter_index_continuity (book : UnifiedBook) (chapterId : Z)
    (ls : list ContentLayer) :
  storedContinuity book ->
  TxtAdapter.loadChapter book chapterId = Ok ls \/
  EpubAdapter.loadChapter book chapterId = Ok ls ->
  indexContinuity ls.
Proof.
  intros Hstored [H|H].
  - unfold TxtAdapter.loadChapter in H.
    destruct (chapterAt book chapterId) as [c|] eqn:Hc; [|discriminate].
    destruct (_ && _).
    + injection H as <-.
      exact (proj1 (Forall_forall _ _) Hstored c (chapterAt_in _ _ _ Hc)).
    + destruct (TxtAdapter.findChapterBounds _ _ _ _) as [a b].
      injection H as <-.
      apply (chainFrom_continuity _ 0).
      exact (proj1 (proj2 (txt_chunkParagraphs_spec _))).
  - unfold EpubAdapter.loadChapter in H.
    destruct (chapterAt book chapterId) as [c|] eqn:Hc; [|discriminate].
    destruct (_ && _).
    + injection H as <-.
      exact (proj1 (Forall_forall _ _) Hstored c (chapterAt_in _ _ _ Hc)).
    + destruct (EpubAdapter.resolveSection _ _ _); injection H as <-;
        try apply indexContinuity_one.
      apply (chainFrom_continuity _ 0), parseHTML_chain.
Qed.

(** C1 (index continuity), at the input where the adapter under
    [src/adapters] departs from it.  The claim: every chapter load returns
    layers in which each layer starts at the start of the one before plus
    its paragraphs plus one for its image.  On a chapter made of a
    paragraph, an image and a paragraph, the earlier revision of the EPUB
    adapter returns a second layer that starts at 0 again, where the
    invariant puts it at 2; [loadChapter_index_continuity] shows that the
    current revision and the plain-text adapter keep the invariant. *)
Theorem legacy_loadChapter_breaks_continuity :
  EpubAdapterLegacy.loadChapter Examples.book1 0
  = Ok [mkLayer ["one"] 0 (Some "blob:a"); mkLayer ["two"] 0 None] /\
  ~ indexContinuity [mkLayer ["one"] 0 (Some "blob:a"); mkLayer ["two"] 0 None].
Proof.
  split; [vm_compute; reflexivity|].
  intros H. specialize (H 0%nat _ _ eq_refl eq_refl). vm_compute in H.
  discriminate H.
Qed.

(** C9 (a failed image is skipped).  When an image of the tree cannot be
    resolved or fetched -- a source on the web is one such case -- the walk
    state after the image is the state before it: no layer is emitted, the
    pending paragraphs stay pending and the running index stays where it
    is; the walk of the whole element is the walk of the element without
    that image. *)
Theorem image_failure_contained (epubBook : Container) (sec : SpineSection)
    (tag s : string) (text : option string) (grandkids : list Element) :
  JS.toLowerCase tag = "img" ->
  EpubAdapter.isExternal s = true \/ EpubAdapter.fetchImage epubBook sec s = None ->
  forall w : EpubAdapter.Walk,
    EpubAdapter.visit epubBook sec (Elem tag (Some s) text grandkids) w = w /\
    forall t a x before after,
      EpubAdapter.traverseDOM epubBook sec
        (Elem t a x (before ++ Elem tag (Some s) text grandkids :: after)) w
      = EpubAdapter.traverseDOM epubBook sec (Elem t a x (before ++ after)) w.
Proof.
  intros Htag Hfail.
  assert (Hnone : EpubAdapter.fetchImage epubBook sec s = None).
  { destruct Hfail as [Hext|Hf]; [|exact Hf].
    unfold EpubAdapter.fetchImage, EpubAdapter.resolvePath. now rewrite Hext. }
  assert (Hvisit : forall w,
    EpubAdapter.visit epubBook sec (Elem tag (Some s) text grandkids) w = w).
  { intros w. unfold EpubAdapter.visit. rewrite Htag. cbn.
    rewrite Hnone. now destruct (JS.truthy s). }
  intros w. split; [apply Hvisit|].
  intros t a x before after. rewrite !traverseDOM_unfold, !fold_left_app.
  cbn [fold_left]. now rewrite Hvisit.
Qed.

(** The sample body with an image from the web walks like the body
    without it. *)
Lemma image_failure_contained_witness :
  JS.toLowerCase "IMG" = "img" /\
  EpubAdapter.traverseDOM Examples.container1 Examples.sec1 Examples.body2
    (EpubAdapter.mkWalk [] [] 0)
  = EpubAdapter.traverseDOM Examples.container1 Examples.sec1 Examples.body1
    (EpubAdapter.mkWalk [] [] 0).
Proof.
  split; [reflexivity|].
  exact (proj2 (image_failure_contained Examples.container1 Examples.sec1
                  "IMG" "https://example.org/x.png" None [] eq_refl
                  (or_introl eq_refl) (EpubAdapter.mkWalk [] [] 0))
               "body" None None [Examples.para "one"]
               [Examples.img "../img/a.png"; Examples.para " two "]).
Defined.

(** ** The chunking contract *)

(** C2 (round trip).  For every paragraph sequence [P], the paragraphs of
    the layers [TxtAdapter.chunkParagraphs] returns, concatenated in
    order, are exactly [P]; and for every layers array, start index and
    image, the paragraphs of the layers one call of
    [EpubAdapter.addParagraphsWithChunking] adds, concatenated in order,
    are exactly [P]. *)
Theorem chunking_roundtrip (P : list string) :
  allParagraphs (TxtAdapter.chunkParagraphs P) = P /\
  forall (layers : list ContentLayer) (start : Z) (image : option string),
  exists added,
    fst (EpubAdapter.addParagraphsWithChunking layers P start image)
    = layers ++ added /\
    allParagraphs added = P.
Proof.
  split.
  - exact (proj1 (txt_chunkParagraphs_spec P)).
  - intros layers start image.
    destruct (epub_addParagraphs_spec layers P start image)
      as (added & Heq & Hr & _).
    exists added. rewrite Heq. split; [reflexivity|exact Hr].
Qed.

(** C3 (size bound).  Every layer a chunking call returns that holds two
    or more paragraphs has at most 15000 characters, and a layer of more
    than 15000 characters is a single paragraph that is itself longer than
    15000: for [TxtAdapter.chunkParagraphs] and for the layers one call of
    [EpubAdapter.addParagraphsWithChunking] adds. *)
Theorem chunking_size_bound (P : list string) :
  Forall (sizeBounded 15000) (TxtAdapter.chunkParagraphs P) /\
  forall (layers : list ContentLayer) (start : Z) (image : option string),
  exists added,
    fst (EpubAdapter.addParagraphsWithChunking layers P start image)
    = layers ++ added /\
    Forall (sizeBounded 15000) added.
Proof.
  split.
  - exact (proj1 (proj2 (proj2 (txt_chunkParagraphs_spec P)))).
  - intros layers start image.
    destruct (epub_addParagraphs_spec layers P start image)
      as (added & Heq & _ & _ & Hb).
    exists added. rewrite Heq. split; [reflexivity|exact Hb].
Qed.

(** C10 (no empty layer).  Every layer [TxtAdapter.chunkParagraphs]
    returns holds at least one paragraph and no image; an empty input
    gives no layer at all, and a non-empty input gives a first layer with
    [startIndex] 0. *)
Theorem chunkParagraphs_no_empty_layer (P : list string) :
  Forall (fun l => paragraphs l <> [] /\ image l = None)
         (TxtAdapter.chunkParagraphs P) /\
  match P with
  | [] => TxtAdapter.chunkParagraphs P = []
  | _ :: _ => exists first rest,
      TxtAdapter.chunkParagraphs P = first :: rest /\ startIndex first = 0
  end.
Proof.
  destruct (txt_chunkParagraphs_spec P) as (Hr & Hch & _ & Ht).
  split; [exact Ht|].
  destruct P as [|p P']; [reflexivity|].
  destruct (TxtAdapter.chunkParagraphs (p :: P')) as [|first rest].
  - discriminate Hr.
  - exists first, rest. split; [reflexivity|]. exact (proj1 Hch).
Qed.

(** ** The cache: the map *)

(** Arithmetic on the size of a concrete map against the cap. *)
Ltac cap_arith :=
  unfold ChapterCache.size, ChapterCache.MAX_CACHE_SIZE in *; simpl in *; lia.

Lemma get_has (m : list (Z * ChapterCache.CacheEntry)) (k : Z) :
  ChapterCache.has m k = true <-> exists e, ChapterCache.get m k = Some e.
Proof.
  induction m as [|[k' v] m IH]; simpl.
  - split; [discriminate|intros [e H]; discriminate].
  - destruct (k' =? k); simpl; [|exact IH].
    split; [now exists v|reflexivity].
Qed.

Lemma has_in_keys (m : list (Z * ChapterCache.CacheEntry)) (k : Z) :
  ChapterCache.has m k = true <-> In k (ChapterCache.keys m).
Proof.
  induction m as [|[k' v] m IH]; simpl.
  - split; [discriminate|tauto].
  - destruct (Z.eqb_spec k' k); simpl; [tauto|]. rewrite IH. tauto.
Qed.

Lemma keys_set (m : list (Z * ChapterCache.CacheEntry)) (k : Z)
    (v : ChapterCache.CacheEntry) :
  ChapterCache.keys (ChapterCache.set m k v)
  = if ChapterCache.has m k then ChapterCache.keys m
    else ChapterCache.keys m ++ [k].
Proof.
  induction m as [|[k' v'] m IH]; simpl; [reflexivity|].
  destruct (Z.eqb_spec k' k); simpl; [now subst|].
  rewrite IH. now destruct (ChapterCache.has m k).
Qed.

Lemma size_set (m : list (Z * ChapterCache.CacheEntry)) (k : Z)
    (v : ChapterCache.CacheEntry) :
  ChapterCache.size (ChapterCache.set m k v)
  = if ChapterCache.has m k then ChapterCache.size m
    else ChapterCache.size m + 1.
Proof.
  unfold ChapterCache.size.
  rewrite <- !(length_map fst). fold (ChapterCache.keys (ChapterCache.set m k v)).
  fold (ChapterCache.keys m). rewrite keys_set.
  destruct (ChapterCache.has m k); [reflexivity|].
  rewrite length_app. simpl. lia.
Qed.

Lemma has_set (m : list (Z * ChapterCache.CacheEntry)) (k j : Z)
    (v : ChapterCache.CacheEntry) :
  ChapterCache.has (ChapterCache.set m k v) j = (j =? k) || ChapterCache.has m j.
Proof.
  apply eq_true_iff_eq. rewrite orb_true_iff, !has_in_keys, keys_set, Z.eqb_eq.
  destruct (ChapterCache.has m k) eqn:Hk.
  - apply has_in_keys in Hk. split; [tauto|]. intros [->|H]; assumption.
  - rewrite in_app_iff. simpl. intuition congruence.
Qed.

Lemma keys_delete (m : list (Z * ChapterCache.CacheEntry)) (k : Z) :
  ChapterCache.keys (ChapterCache.delete m k)
  = filter (fun x => negb (x =? k)) (ChapterCache.keys m).
Proof.
  induction m as [|[k' v] m IH]; simpl; [reflexivity|].
  destruct (k' =? k); simpl; now rewrite IH.
Qed.

Lemma has_delete (m : list (Z * ChapterCache.CacheEntry)) (k j : Z) :
  ChapterCache.has (ChapterCache.delete m k) j
  = ChapterCache.has m j && negb (j =? k).
Proof.
  apply eq_true_iff_eq.
  rewrite andb_true_iff, !has_in_keys, keys_delete, filter_In. tauto.
Qed.

Lemma size_delete (m : list (Z * ChapterCache.CacheEntry)) (k : Z) :
  In k (ChapterCache.keys m) ->
  ChapterCache.size (ChapterCache.delete m k) < ChapterCache.size m.
Proof.
  unfold ChapterCache.size. intros Hin.
  induction m as [|[k' v] m IH]; simpl in *; [tauto|].
  destruct (Z.eqb_spec k' k); simpl.
  - pose proof (filter_length_le (fun kv => negb (fst kv =? k)) m).
    unfold ChapterCache.delete in *. lia.
  - destruct Hin as [Heq|Hin]; [congruence|]. specialize (IH Hin).
    unfold ChapterCache.delete in *. lia.
Qed.

Lemma NoDup_keys_set (m : list (Z * ChapterCache.CacheEntry)) (k : Z)
    (v : ChapterCache.CacheEntry) :
  NoDup (ChapterCache.keys m) -> NoDup (ChapterCache.keys (ChapterCache.set m k v)).
Proof.
  intros H. rewrite keys_set. destruct (ChapterCache.has m k) eqn:Hk; [exact H|].
  apply NoDup_app; [exact H|repeat constructor; simpl; tauto|].
  intros x Hx [<-|[]]. apply has_in_keys in Hx. congruence.
Qed.

Lemma NoDup_keys_delete (m : list (Z * ChapterCache.CacheEntry)) (k : Z) :
  NoDup (ChapterCache.keys m) -> NoDup (ChapterCache.keys (ChapterCache.delete m k)).
Proof. intros H. rewrite keys_delete. now apply NoDup_filter. Qed.

(** Deleting the key of an entry of a map without duplicate keys takes
    out that entry and nothing else. *)
Lemma delete_unique (pre post : list (Z * ChapterCache.CacheEntry)) (k : Z)
    (e : ChapterCache.CacheEntry) :
  NoDup (ChapterCache.keys (pre ++ (k, e) :: post)) ->
  ChapterCache.delete (pre ++ (k, e) :: post) k = pre ++ post.
Proof.
  unfold ChapterCache.keys, ChapterCache.delete. rewrite map_app. simpl.
  intros H. apply NoDup_remove_2 in H. rewrite in_app_iff in H.
  rewrite filter_app. simpl. rewrite Z.eqb_refl. simpl.
  assert (Hkeep : forall l : list (Z * ChapterCache.CacheEntry),
    ~ In k (map fst l) -> filter (fun kv => negb (fst kv =? k)) l = l).
  { induction l as [|[k' v] l IH]; simpl; [reflexivity|]. intros Hn.
    destruct (Z.eqb_spec k' k); simpl; [tauto|]. rewrite IH; tauto. }
  rewrite !Hkeep; tauto.
Qed.

(** ** The cache: finding the oldest entry *)

Lemma oldestStep_inv (seen : list (Z * ChapterCache.CacheEntry))
    (acc : option Z * option Z) (x : Z * ChapterCache.CacheEntry) :
  searchInv seen acc -> searchInv (seen ++ [x]) (ChapterCache.oldestStep acc x).
Proof.
  intros [[-> ->]|(pre & k & e & post & -> & -> & Hpre & Hpost)].
  - right. exists [], (fst x), (snd x), []. destruct x as [k e]. simpl.
    repeat split; simpl; tauto.
  - right. unfold ChapterCache.oldestStep. simpl.
    destruct (Z.ltb_spec (ChapterCache.lastAccess (snd x)) (ChapterCache.lastAccess e))
      as [Hlt|Hge].
    + exists (pre ++ (k, e) :: post), (fst x), (snd x), [].
      destruct x as [k' e']. simpl in *. repeat split; simpl; try tauto.
      intros y Hy. apply in_app_or in Hy. destruct Hy as [Hy|[<-|Hy]].
      * specialize (Hpre y Hy). lia.
      * simpl. lia.
      * specialize (Hpost y Hy). lia.
    + exists pre, k, e, (post ++ [x]). repeat split.
      * now rewrite <- app_assoc.
      * exact Hpre.
      * intros y Hy. apply in_app_or in Hy. destruct Hy as [Hy|[<-|[]]].
        -- exact (Hpost y Hy).
        -- exact Hge.
Qed.

(** The search finds the least recently accessed entry, the first
    inserted one among equals. *)
Lemma findOldest_spec (m : list (Z * ChapterCache.CacheEntry)) :
  m <> [] ->
  exists pre k e post,
    m = pre ++ (k, e) :: post /\
    ChapterCache.findOldest m = Some k /\
    oldestAt pre e post.
Proof.
  intros Hne. unfold ChapterCache.findOldest.
  pose proof (fold_left_invariant ChapterCache.oldestStep searchInv
                oldestStep_inv m [] (None, None) (or_introl (conj eq_refl eq_refl)))
    as H.
  simpl in H. destruct H as [[-> _]|(pre & k & e & post & Hm & -> & Hold)];
    [congruence|].
  exists pre, k, e, post. auto.
Qed.

(** ** The cache: the book *)

Lemma updateAt_nth {A : Type} (f : A -> A) : forall (l : list A) (n j : nat),
  nth_error (ChapterCache.updateAt l n f) j
  = if Nat.eqb j n then option_map f (nth_error l j) else nth_error l j.
Proof.
  induction l as [|x l IH]; intros n j.
  - simpl. destruct j; destruct (Nat.eqb _ n); reflexivity.
  - destruct n as [|n], j as [|j]; simpl; try reflexivity. apply IH.
Qed.

(** Reading a chapter after [writeChapter]. *)
Lemma chapterAt_write (b : UnifiedBook) (k j : Z) (ls : list ContentLayer)
    (ld : bool) :
  0 <= k ->
  chapterAt (ChapterCache.writeChapter b k ls ld) j
  = if j =? k
    then option_map (fun c => mkChapter (id c) (title c) ls ld (href c))
                    (chapterAt b j)
    else chapterAt b j.
Proof.
  intros Hk. unfold chapterAt, at_index, ChapterCache.writeChapter. simpl chapters.
  destruct (Z.ltb_spec j 0) as [Hj|Hj].
  - destruct (Z.eqb_spec j k); [lia|reflexivity].
  - rewrite updateAt_nth.
    destruct (Z.eqb_spec j k) as [->|Hne].
    + now rewrite Nat.eqb_refl.
    + destruct (Nat.eqb_spec (Z.to_nat j) (Z.to_nat k)); [lia|reflexivity].
Qed.

Lemma chapterAt_nonneg (b : UnifiedBook) (k : Z) (c : UnifiedChapter) :
  chapterAt b k = Some c -> 0 <= k.
Proof.
  unfold chapterAt, at_index. destruct (Z.ltb_spec k 0); [discriminate|lia].
Qed.

(** A load through the cache succeeds only for a chapter of the book. *)
Lemma cache_loadChapter_ok (s : ChapterCache.State) (i : Z)
    (ls : list ContentLayer) :
  ChapterCache.loadChapter s i = Ok ls ->
  exists c, chapterAt (ChapterCache.book s) i = Some c.
Proof.
  unfold ChapterCache.loadChapter. intros H.
  destruct (chapterAt (ChapterCache.book s) i) as [c|] eqn:Hc; [now exists c|].
  exfalso. destruct (format (ChapterCache.book s)).
  - destruct (proj2 (epub_loadChapter_throws _ _) Hc) as [m Hm]. congruence.
  - destruct (proj2 (txt_loadChapter_throws _ _) Hc) as [m Hm]. congruence.
Qed.

(** ** The cache: eviction *)

Lemma cleanupBlobUrls_fields (i : Z) (s : ChapterCache.State) :
  ChapterCache.cache (ChapterCache.cleanupBlobUrls i s) = ChapterCache.cache s /\
  ChapterCache.book (ChapterCache.cleanupBlobUrls i s) = ChapterCache.book s.
Proof.
  unfold ChapterCache.cleanupBlobUrls.
  destruct (chapterAt (ChapterCache.book s) i); now split.
Qed.

Lemma schedulePrefetch_fields (i : Z) (s : ChapterCache.State) :
  ChapterCache.cache (ChapterCache.schedulePrefetch i s) = ChapterCache.cache s /\
  ChapterCache.book (ChapterCache.schedulePrefetch i s) = ChapterCache.book s /\
  ChapterCache.revoked (ChapterCache.schedulePrefetch i s) = ChapterCache.revoked s.
Proof.
  unfold ChapterCache.schedulePrefetch. cbv zeta.
  destruct (_ =? 0); now repeat split.
Qed.

(** The map after [evictIfNeeded]: untouched within the cap, else without
    the key the search found. *)
Lemma evictIfNeeded_cache (s : ChapterCache.State) :
  ChapterCache.cache (ChapterCache.evictIfNeeded s) = evictMap (ChapterCache.cache s).
Proof.
  unfold ChapterCache.evictIfNeeded, evictMap.
  destruct (_ <=? _); [reflexivity|].
  destruct (ChapterCache.findOldest _) as [k|]; [|reflexivity].
  cbv zeta. rewrite (proj1 (cleanupBlobUrls_fields _ _)).
  now destruct (chapterAt _ k).
Qed.

(** The book after [evictIfNeeded]. *)
Lemma evictIfNeeded_book (s : ChapterCache.State) :
  ChapterCache.book (ChapterCache.evictIfNeeded s)
  = if ChapterCache.size (ChapterCache.cache s) <=? ChapterCache.MAX_CACHE_SIZE
    then ChapterCache.book s
    else match ChapterCache.findOldest (ChapterCache.cache s) with
         | Some k =>
             match chapterAt (ChapterCache.book s) k with
             | Some _ => ChapterCache.writeChapter (ChapterCache.book s) k [] false
             | None => ChapterCache.book s
             end
         | None => ChapterCache.book s
         end.
Proof.
  unfold ChapterCache.evictIfNeeded.
  destruct (_ <=? _); [reflexivity|].
  destruct (ChapterCache.findOldest _) as [k|]; [|reflexivity].
  cbv zeta. rewrite (proj2 (cleanupBlobUrls_fields _ _)).
  now destruct (chapterAt _ k).
Qed.

Lemma findOldest_in (m : list (Z * ChapterCache.CacheEntry)) :
  m <> [] -> exists k, ChapterCache.findOldest m = Some k /\ In k (ChapterCache.keys m).
Proof.
  intros Hne. destruct (findOldest_spec m Hne) as (pre & k & e & post & -> & Hk & _).
  exists k. split; [exact Hk|]. unfold ChapterCache.keys.
  rewrite map_app, in_app_iff. simpl. tauto.
Qed.

(** One eviction brings a map of at most six entries back to the cap. *)
Lemma evictMap_size (m : list (Z * ChapterCache.CacheEntry)) :
  ChapterCache.size m <= ChapterCache.MAX_CACHE_SIZE + 1 ->
  ChapterCache.size (evictMap m) <= ChapterCache.MAX_CACHE_SIZE.
Proof.
  intros H. unfold evictMap.
  destruct (Z.leb_spec (ChapterCache.size m) ChapterCache.MAX_CACHE_SIZE)
    as [Hle|Hgt]; [exact Hle|].
  destruct (findOldest_in m) as (k & -> & Hin).
  - intros Hnil. rewrite Hnil in Hgt. cap_arith.
  - pose proof (size_delete _ _ Hin). lia.
Qed.

(** Eviction never calls [URL.revokeObjectURL]: the layers of the evicted
    chapter are emptied before [cleanupBlobUrls] reads them. *)
Lemma evictIfNeeded_revokes_nothing (s : ChapterCache.State) :
  ChapterCache.revoked (ChapterCache.evictIfNeeded s) = ChapterCache.revoked s.
Proof.
  unfold ChapterCache.evictIfNeeded.
  destruct (_ <=? _); [reflexivity|].
  destruct (ChapterCache.findOldest _) as [k|]; [|reflexivity].
  cbv zeta. unfold ChapterCache.withCache at 1 2. simpl ChapterCache.book.
  destruct (chapterAt (ChapterCache.book s) k) as [c|] eqn:Hc.
  - unfold ChapterCache.cleanupBlobUrls, ChapterCache.withBook.
    simpl ChapterCache.book.
    rewrite chapterAt_write by exact (chapterAt_nonneg _ _ _ Hc).
    rewrite Z.eqb_refl, Hc. simpl. now rewrite app_nil_r.
  - unfold ChapterCache.cleanupBlobUrls, ChapterCache.withCache.
    simpl ChapterCache.book. now rewrite Hc.
Qed.

(** C5 (LRU order).  When the map holds more than 5 entries, eviction
    removes exactly one entry; its [lastAccess] is the minimum over the
    resident entries, and among the entries with that minimum it is the
    first in insertion order: every entry inserted before it was accessed
    strictly later. *)
Theorem eviction_removes_least_recent (s : ChapterCache.State) :
  NoDup (ChapterCache.keys (ChapterCache.cache s)) ->
  ChapterCache.MAX_CACHE_SIZE < ChapterCache.size (ChapterCache.cache s) ->
  exists pre k e post,
    ChapterCache.cache s = pre ++ (k, e) :: post /\
    ChapterCache.cache (ChapterCache.evictIfNeeded s) = pre ++ post /\
    (forall x, In x pre ->
       ChapterCache.lastAccess e < ChapterCache.lastAccess (snd x)) /\
    (forall x, In x post ->
       ChapterCache.lastAccess e <= ChapterCache.lastAccess (snd x)).
Proof.
  intros Hnd Hgt.
  destruct (findOldest_spec (ChapterCache.cache s))
    as (pre & k & e & post & Hm & Hk & Hpre & Hpost).
  - intros Hnil. rewrite Hnil in Hgt. cap_arith.
  - exists pre, k, e, post. repeat split; auto.
    rewrite evictIfNeeded_cache. unfold evictMap. rewrite Hk.
    destruct (Z.leb_spec (ChapterCache.size (ChapterCache.cache s))
                         ChapterCache.MAX_CACHE_SIZE) as [Hle|_]; [lia|].
    rewrite Hm. apply delete_unique. now rewrite <- Hm.
Qed.

(** The sample state of six entries meets the conditions of the theorem. *)
Lemma eviction_removes_least_recent_witness :
  NoDup (ChapterCache.keys (ChapterCache.cache Examples.state6)) /\
  ChapterCache.MAX_CACHE_SIZE < ChapterCache.size (ChapterCache.cache Examples.state6) /\
  exists pre k e post,
    ChapterCache.cache Examples.state6 = pre ++ (k, e) :: post /\
    ChapterCache.cache (ChapterCache.evictIfNeeded Examples.state6) = pre ++ post /\
    (forall x, In x pre ->
       ChapterCache.lastAccess e < ChapterCache.lastAccess (snd x)) /\
    (forall x, In x post ->
       ChapterCache.lastAccess e <= ChapterCache.lastAccess (snd x)).
Proof.
  assert (Hnd : NoDup (ChapterCache.keys (ChapterCache.cache Examples.state6))).
  { simpl. repeat constructor; simpl; intuition discriminate. }
  assert (Hgt : ChapterCache.MAX_CACHE_SIZE
                < ChapterCache.size (ChapterCache.cache Examples.state6)).
  { reflexivity. }
  split; [exact Hnd|]. split; [exact Hgt|].
  exact (eviction_removes_least_recent Examples.state6 Hnd Hgt).
Defined.

(** On the sample state the entry of chapter 1 goes: it shares the oldest
    access time with chapter 3 and was inserted first. *)
Example eviction_sample :
  ChapterCache.keys (ChapterCache.cache (ChapterCache.evictIfNeeded Examples.state6))
  = [0; 2; 3; 4; 5].
Proof. vm_compute. reflexivity. Qed.

(** ** The cache: runs *)

(** The three ways through [getChapter]: a hit, a failed load, a load. *)
Lemma getChapter_cases (i now : Z) (s : ChapterCache.State) :
  (exists e, ChapterCache.get (ChapterCache.cache s) i = Some e /\
     ChapterCache.getChapter i now s
     = (ChapterCache.withCache s
          (ChapterCache.set (ChapterCache.cache s) i
             (ChapterCache.mkEntry (ChapterCache.chapterId e)
                (ChapterCache.entry_layers e) now)),
        Ok (ChapterCache.entry_layers e))) \/
  (ChapterCache.has (ChapterCache.cache s) i = false /\
   exists m, ChapterCache.loadChapter s i = Throw m /\
     ChapterCache.getChapter i now s = (s, Throw m)) \/
  (ChapterCache.has (ChapterCache.cache s) i = false /\
   exists ls c, ChapterCache.loadChapter s i = Ok ls /\
     chapterAt (ChapterCache.book s) i = Some c /\
     ChapterCache.getChapter i now s = (afterLoad i ls now s, Ok ls)).
Proof.
  unfold ChapterCache.getChapter.
  destruct (ChapterCache.get (ChapterCache.cache s) i) as [e|] eqn:Hget.
  - left. now exists e.
  - right.
    assert (Hhas : ChapterCache.has (ChapterCache.cache s) i = false).
    { destruct (ChapterCache.has _ i) eqn:Hh; [|reflexivity].
      apply get_has in Hh. destruct Hh as [e He]. congruence. }
    destruct (ChapterCache.loadChapter s i) as [ls|m] eqn:Hload.
    + right. split; [exact Hhas|].
      destruct (cache_loadChapter_ok s i ls Hload) as [c Hc].
      exists ls, c. repeat split; auto.
      unfold ChapterCache.stored, afterLoad. cbv zeta.
      unfold ChapterCache.withCache at 1. simpl ChapterCache.book.
      now rewrite Hc.
    + left. split; [exact Hhas|]. now exists m.
Qed.

Lemma afterLoad_cache (i : Z) (ls : list ContentLayer) (now : Z)
    (s : ChapterCache.State) :
  ChapterCache.cache (afterLoad i ls now s)
  = evictMap (ChapterCache.set (ChapterCache.cache s) i (ChapterCache.mkEntry i ls now)).
Proof.
  unfold afterLoad. rewrite (proj1 (schedulePrefetch_fields _ _)).
  now rewrite evictIfNeeded_cache.
Qed.

(** The map after [getChapter]. *)
Lemma getChapter_cache (i now : Z) (s : ChapterCache.State) :
  let m := ChapterCache.cache s in
  let m' := ChapterCache.cache (fst (ChapterCache.getChapter i now s)) in
  (exists e, ChapterCache.has m i = true /\ m' = ChapterCache.set m i e) \/
  m' = m \/
  (exists e, ChapterCache.has m i = false /\ m' = evictMap (ChapterCache.set m i e)).
Proof.
  cbv zeta.
  destruct (getChapter_cases i now s)
    as [(e & Hget & ->)|[(Hhas & m & _ & ->)|(Hhas & ls & c & _ & _ & ->)]].
  - left. eexists. split; [|reflexivity]. apply get_has. now exists e.
  - right. now left.
  - right. right. eexists. split; [exact Hhas|]. apply afterLoad_cache.
Qed.

(** The map after one iteration of the prefetch loop is the map after
    [getChapter], or the map as it was. *)
Lemma prefetchChapter_cache (i now : Z) (s : ChapterCache.State) :
  ChapterCache.cache (ChapterCache.prefetchChapter i now s) = ChapterCache.cache s \/
  exists s0, ChapterCache.cache s0 = ChapterCache.cache s /\
    ChapterCache.cache (ChapterCache.prefetchChapter i now s)
    = ChapterCache.cache (fst (ChapterCache.getChapter i now s0)).
Proof.
  unfold ChapterCache.prefetchChapter.
  destruct (ChapterCache.has _ i); [now left|].
  right. eexists. split; [|reflexivity]. reflexivity.
Qed.

Lemma evictMap_NoDup (m : list (Z * ChapterCache.CacheEntry)) :
  NoDup (ChapterCache.keys m) -> NoDup (ChapterCache.keys (evictMap m)).
Proof.
  intros H. unfold evictMap. destruct (_ <=? _); [exact H|].
  destruct (ChapterCache.findOldest m); [|exact H]. now apply NoDup_keys_delete.
Qed.

(** Every operation keeps the map within the cap and its keys distinct. *)
Lemma step_capacity (s : ChapterCache.State) (o : ChapterCache.Op) :
  ChapterCache.size (ChapterCache.cache s) <= ChapterCache.MAX_CACHE_SIZE /\
  NoDup (ChapterCache.keys (ChapterCache.cache s)) ->
  ChapterCache.size (ChapterCache.cache (ChapterCache.step s o))
  <= ChapterCache.MAX_CACHE_SIZE /\
  NoDup (ChapterCache.keys (ChapterCache.cache (ChapterCache.step s o))).
Proof.
  assert (Hget : forall i now s,
    ChapterCache.size (ChapterCache.cache s) <= ChapterCache.MAX_CACHE_SIZE /\
    NoDup (ChapterCache.keys (ChapterCache.cache s)) ->
    ChapterCache.size (ChapterCache.cache (fst (ChapterCache.getChapter i now s)))
    <= ChapterCache.MAX_CACHE_SIZE /\
    NoDup (ChapterCache.keys (ChapterCache.cache (fst (ChapterCache.getChapter i now s))))).
  { intros i now s0 [Hsz Hnd].
    destruct (getChapter_cache i now s0)
      as [(e & Hhas & ->)|[->|(e & Hhas & ->)]].
    - rewrite size_set, Hhas. split; [exact Hsz|now apply NoDup_keys_set].
    - now split.
    - split.
      + apply evictMap_size. rewrite size_set, Hhas. lia.
      + now apply evictMap_NoDup, NoDup_keys_set. }
  intros H. destruct o as [i now|i now|]; simpl.
  - now apply Hget.
  - destruct (prefetchChapter_cache i now s) as [->|(s0 & Hs0 & ->)]; [exact H|].
    apply Hget. now rewrite Hs0.
  - split; [cap_arith|constructor].
Qed.

Lemma run_capacity (ops : list ChapterCache.Op) : forall s,
  ChapterCache.size (ChapterCache.cache s) <= ChapterCache.MAX_CACHE_SIZE /\
  NoDup (ChapterCache.keys (ChapterCache.cache s)) ->
  ChapterCache.size (ChapterCache.cache (ChapterCache.run ops s))
  <= ChapterCache.MAX_CACHE_SIZE /\
  NoDup (ChapterCache.keys (ChapterCache.cache (ChapterCache.run ops s))).
Proof.
  induction ops as [|o ops IH]; intros s H; [exact H|].
  apply IH, step_capacity, H.
Qed.

(** C4 (cache capacity).  After any sequence of [getChapter] calls on a
    new cache -- calls made by the reader, calls made by the prefetch loop,
    with [clear] in between or not -- the size [getStats] reports is at
    most 5. *)
Theorem cache_capacity (book : UnifiedBook) (ops : list ChapterCache.Op) :
  ChapterCache.stat_size
    (ChapterCache.getStats (ChapterCache.run ops (ChapterCache.create book))) <= 5.
Proof.
  apply (run_capacity ops (ChapterCache.create book)).
  split; [cap_arith|constructor].
Qed.

(** ** The cache and the book it mirrors into *)

Lemma mirrors_fields (s s' : ChapterCache.State) :
  ChapterCache.cache s' = ChapterCache.cache s ->
  ChapterCache.book s' = ChapterCache.book s ->
  mirrors s -> mirrors s'.
Proof. unfold mirrors. intros -> ->. auto. Qed.

(** A new cache over a book mirrors it when no chapter is marked loaded. *)
Lemma create_mirrors (book : UnifiedBook) :
  Forall (fun c => isLoaded c = false) (chapters book) ->
  mirrors (ChapterCache.create book).
Proof.
  intros H i c Hc. simpl in *.
  exact (proj1 (Forall_forall _ _) H c (chapterAt_in _ _ _ Hc)).
Qed.

Lemma evictIfNeeded_mirrors (s : ChapterCache.State) :
  mirrors s -> mirrors (ChapterCache.evictIfNeeded s).
Proof.
  intros H i c. rewrite evictIfNeeded_cache, evictIfNeeded_book. unfold evictMap.
  destruct (_ <=? _); [apply H|].
  destruct (ChapterCache.findOldest _) as [k|]; [|apply H].
  rewrite has_delete.
  destruct (chapterAt (ChapterCache.book s) k) as [ck|] eqn:Hk.
  - rewrite chapterAt_write by exact (chapterAt_nonneg _ _ _ Hk).
    destruct (Z.eqb_spec i k) as [->|Hne].
    + rewrite Hk. simpl. intros [= <-]. simpl. now rewrite andb_false_r.
    + intros Hc. rewrite (H i c Hc). simpl. now rewrite andb_true_r.
  - intros Hc. destruct (Z.eqb_spec i k) as [->|Hne]; [congruence|].
    rewrite (H i c Hc). simpl. now rewrite andb_true_r.
Qed.

Lemma getChapter_mirrors (i now : Z) (s : ChapterCache.State) :
  mirrors s -> mirrors (fst (ChapterCache.getChapter i now s)).
Proof.
  intros H.
  destruct (getChapter_cases i now s)
    as [(e & Hget & ->)|[(Hhas & m & _ & ->)|(Hhas & ls & c & _ & Hc & ->)]];
    simpl fst.
  - intros j cj Hj. simpl in *. rewrite has_set, (H j cj Hj).
    destruct (Z.eqb_spec j i) as [->|]; [|reflexivity].
    simpl. apply get_has. now exists e.
  - exact H.
  - unfold afterLoad.
    eapply mirrors_fields;
      [exact (proj1 (schedulePrefetch_fields _ _))
      |exact (proj1 (proj2 (schedulePrefetch_fields _ _)))|].
    apply evictIfNeeded_mirrors. intros j cj. simpl.
    rewrite has_set, chapterAt_write by exact (chapterAt_nonneg _ _ _ Hc).
    destruct (Z.eqb_spec j i) as [->|Hne]; simpl.
    + rewrite Hc. simpl. now intros [= <-].
    + apply H.
Qed.

(** Reads through the cache -- by the reader or by the prefetch loop -- keep
    the book a mirror of the cache. *)
Lemma reads_keep_mirror (ops : list ChapterCache.Op) : forall s,
  forallb ChapterCache.isRead ops = true ->
  mirrors s -> mirrors (ChapterCache.run ops s).
Proof.
  induction ops as [|o ops IH]; intros s Hops H; [exact H|].
  simpl in Hops. apply andb_true_iff in Hops. destruct Hops as [Ho Hops].
  apply IH; [exact Hops|]. destruct o as [i now|i now|]; simpl.
  - now apply getChapter_mirrors.
  - unfold ChapterCache.prefetchChapter.
    destruct (ChapterCache.has _ i); [exact H|].
    eapply mirrors_fields; [reflexivity|reflexivity|].
    apply getChapter_mirrors.
    eapply mirrors_fields; [reflexivity|reflexivity|exact H].
  - discriminate Ho.
Qed.

(** [clear] revokes the blob URLs of the resident chapters and leaves the
    book as it is. *)
Lemma clear_book (s : ChapterCache.State) :
  ChapterCache.book (ChapterCache.clear s) = ChapterCache.book s /\
  ChapterCache.cache (ChapterCache.clear s) = [].
Proof.
  unfold ChapterCache.clear. cbv zeta. split; [|reflexivity].
  simpl ChapterCache.book.
  generalize (ChapterCache.cache s) at 1. intros m. revert s.
  induction m as [|kv m IH]; intros s; [reflexivity|].
  simpl. rewrite IH. apply cleanupBlobUrls_fields.
Qed.

(** C6 (release at eviction), at the input where the cache departs from
    it.  The claim: when eviction removes a chapter's entry, the blob URLs
    held by that chapter's layers are revoked in the eviction step.  Five
    chapters of the sample book are resident and chapter 0 holds the URL
    [blob:a]; reading a sixth chapter evicts chapter 0, empties its layers
    and clears its flag, and revokes nothing: [cleanupBlobUrls] runs after
    the layers were emptied.  [clear] on the same state revokes the URL of
    each resident chapter. *)
Theorem eviction_leaves_blob_urls_unrevoked :
  let before := ChapterCache.run (firstn 5 Examples.readSix)
                  (ChapterCache.create Examples.book6) in
  let after := ChapterCache.run Examples.readSix
                 (ChapterCache.create Examples.book6) in
  ChapterCache.keys (ChapterCache.cache before) = [0; 1; 2; 3; 4] /\
  option_map (fun c => ChapterCache.blobUrls (layers c))
             (chapterAt (ChapterCache.book before) 0) = Some ["blob:a"] /\
  ChapterCache.keys (ChapterCache.cache after) = [1; 2; 3; 4; 5] /\
  option_map (fun c => (isLoaded c, layers c))
             (chapterAt (ChapterCache.book after) 0) = Some (false, []) /\
  ChapterCache.revoked after = [] /\
  ChapterCache.revoked (ChapterCache.clear before)
  = ["blob:a"; "blob:a"; "blob:a"; "blob:a"; "blob:a"].
Proof. vm_compute. repeat split; reflexivity. Qed.

(** C7 (the book mirrors the cache), at the input where the cache departs
    from it.  The claim: a chapter is marked [isLoaded] exactly when its id
    is resident, and [clear] leaves no chapter marked loaded or holding
    layers.  After reading chapter 0 of the sample book and calling
    [clear], the map is empty, and chapter 0 is still marked loaded and
    still holds its layers, among them the URL [clear] has just revoked;
    [reads_keep_mirror] shows that reads and evictions keep the mirror. *)
Theorem clear_leaves_chapters_loaded :
  let s := ChapterCache.run [ChapterCache.GetChapter 0 1; ChapterCache.Clear]
             (ChapterCache.create Examples.book1) in
  ChapterCache.cache s = [] /\
  option_map (fun c => (isLoaded c, layers c)) (chapterAt (ChapterCache.book s) 0)
  = Some (true, [mkLayer ["one"] 0 (Some "blob:a"); mkLayer ["two"] 2 None]) /\
  ChapterCache.revoked s = ["blob:a"] /\
  ~ mirrors s.
Proof.
  cbv zeta. split; [vm_compute; reflexivity|].
  split; [vm_compute; reflexivity|]. split; [vm_compute; reflexivity|].
  intros H.
  specialize (H 0 (mkChapter 0 "One"
    [mkLayer ["one"] 0 (Some "blob:a"); mkLayer ["two"] 2 None] true
    (Some "text/ch1.xhtml"))).
  vm_compute in H. specialize (H eq_refl). discriminate H.
Qed.

(** After [clear], the next read of the chapter gets the layers the book
    still holds, revoked URL included. *)
Example read_after_clear :
  let s := ChapterCache.run [ChapterCache.GetChapter 0 1; ChapterCache.Clear]
             (ChapterCache.create Examples.book1) in
  snd (ChapterCache.getChapter 0 2 s)
  = Ok [mkLayer ["one"] 0 (Some "blob:a"); mkLayer ["two"] 2 None] /\
  In "blob:a" (ChapterCache.revoked s).
Proof. vm_compute. split; [reflexivity|]. left. reflexivity. Qed.

(** A new cache over a freshly parsed book stays a mirror under reads. *)
Example mirror_sample :
  mirrors (ChapterCache.run Examples.readSix (ChapterCache.create Examples.book6)).
Proof.
  apply reads_keep_mirror; [reflexivity|].
  apply create_mirrors. simpl. repeat constructor.
Qed.

(** ** Index continuity through the cache (current revision) *)

Lemma indexContinuity_nil : indexContinuity [].
Proof. intros [|n] a b Ha; discriminate. Qed.

Lemma Forall_set (P : Z * ChapterCache.CacheEntry -> Prop)
    (m : list (Z * ChapterCache.CacheEntry)) (k : Z) (v : ChapterCache.CacheEntry) :
  Forall P m -> P (k, v) -> Forall P (ChapterCache.set m k v).
Proof.
  intros Hm Hv. induction Hm as [|[k' v'] m Hx Hm IH]; simpl.
  - now repeat constructor.
  - destruct (k' =? k); constructor; auto.
Qed.

Lemma Forall_get (P : Z * ChapterCache.CacheEntry -> Prop)
    (m : list (Z * ChapterCache.CacheEntry)) (k : Z) (e : ChapterCache.CacheEntry) :
  Forall P m -> ChapterCache.get m k = Some e -> exists k', P (k', e).
Proof.
  intros Hm. induction Hm as [|[k' v'] m Hx Hm IH]; simpl; [discriminate|].
  destruct (k' =? k); [|exact IH]. intros [= <-]. now exists k'.
Qed.

Lemma Forall_updateAt {A : Type} (P : A -> Prop) (f : A -> A) :
  forall (l : list A) (n : nat),
  Forall P l -> (forall x, P x -> P (f x)) -> Forall P (ChapterCache.updateAt l n f).
Proof.
  induction l as [|x l IH]; intros n Hl Hf; [constructor|].
  inversion Hl as [|? ? Hx Hl']; subst.
  destruct n as [|n]; simpl; constructor; auto.
Qed.

Lemma writeChapter_continuity (b : UnifiedBook) (k : Z) (ls : list ContentLayer)
    (ld : bool) :
  storedContinuity b -> indexContinuity ls ->
  storedContinuity (ChapterCache.writeChapter b k ls ld).
Proof.
  intros Hb Hls. unfold storedContinuity, ChapterCache.writeChapter. simpl.
  apply Forall_updateAt; [exact Hb|]. intros c _. exact Hls.
Qed.

Lemma evictIfNeeded_continuity (s : ChapterCache.State) :
  heldContinuity s -> heldContinuity (ChapterCache.evictIfNeeded s).
Proof.
  intros [Hb Hc]. unfold heldContinuity.
  rewrite evictIfNeeded_cache, evictIfNeeded_book. unfold evictMap.
  destruct (_ <=? _); [now split|].
  destruct (ChapterCache.findOldest _) as [k|]; [|now split]. split.
  - destruct (chapterAt _ k); [|exact Hb].
    apply writeChapter_continuity; [exact Hb|apply indexContinuity_nil].
  - apply Forall_forall. intros x Hx. apply filter_In in Hx.
    exact (proj1 (Forall_forall _ _) Hc x (proj1 Hx)).
Qed.

(** Every read through the cache returns a continuous layer sequence, and
    leaves continuous what the cache and the book hold. *)
Lemma getChapter_continuity (i now : Z) (s : ChapterCache.State) :
  heldContinuity s ->
  heldContinuity (fst (ChapterCache.getChapter i now s)) /\
  forall ls, snd (ChapterCache.getChapter i now s) = Ok ls -> indexContinuity ls.
Proof.
  intros [Hb Hc].
  destruct (getChapter_cases i now s)
    as [(e & Hget & ->)|[(Hhas & m & _ & ->)|(Hhas & ls & c & Hload & Hch & ->)]];
    simpl fst; simpl snd.
  - destruct (Forall_get _ _ _ _ Hc Hget) as [k' He]. simpl in He.
    split; [split; [exact Hb|]|now intros ls [= <-]].
    simpl. apply Forall_set; [exact Hc|exact He].
  - split; [now split|discriminate].
  - assert (Hls : indexContinuity ls).
    { apply (loadChapter_index_continuity (ChapterCache.book s) i ls Hb).
      unfold ChapterCache.loadChapter in Hload.
      destruct (format (ChapterCache.book s)); [now right|now left]. }
    split; [|now intros ls' [= <-]].
    unfold afterLoad, heldContinuity.
    rewrite (proj1 (schedulePrefetch_fields _ _)),
            (proj1 (proj2 (schedulePrefetch_fields _ _))).
    apply evictIfNeeded_continuity. split; simpl.
    + now apply writeChapter_continuity.
    + apply Forall_set; [exact Hc|exact Hls].
Qed.

(** ** Samples: the adapters at work *)

Example regex_heading : TxtAdapter.CHAPTER_REGEX "第十二章 风起" = true.
Proof. vm_compute. reflexivity. Qed.

Example regex_no_numeral : TxtAdapter.CHAPTER_REGEX "第章" = false.
Proof. vm_compute. reflexivity. Qed.

Example trim_blanks : JS.trim "　 a b	" = "a b".
Proof. vm_compute. reflexivity. Qed.

Example length_counts_code_units : JS.length "第3回" = 3.
Proof. vm_compute. reflexivity. Qed.

Example resolve_relative :
  EpubAdapter.resolvePath Examples.sec1 "../img/./a.png" = Some "/OEBPS/img/a.png".
Proof. vm_compute. reflexivity. Qed.

(** Scenario A: one paragraph of 16000 characters makes one oversized layer. *)
Example scenario_oversized :
  map (fun l => (List.length (paragraphs l), startIndex l))
      (TxtAdapter.chunkParagraphs [Examples.letters 16000]) = [(1%nat, 0)].
Proof. vm_compute. reflexivity. Qed.

(** Scenario B: three paragraphs of 7000 characters make two layers. *)
Example scenario_three_paragraphs :
  map (fun l => (List.length (paragraphs l), startIndex l))
      (TxtAdapter.chunkParagraphs
         [Examples.letters 7000; Examples.letters 7000; Examples.letters 7000])
  = [(2%nat, 0); (1%nat, 2)].
Proof. vm_compute. reflexivity. Qed.

(** Scenario C: each chapter of the plain-text book loads its own lines. *)
Example scenario_text_chapters :
  TxtAdapter.loadChapter Examples.bookTxt 0 = Ok [mkLayer ["alpha"; "beta"] 0 None] /\
  TxtAdapter.loadChapter Examples.bookTxt 1 = Ok [mkLayer ["gamma"] 0 None].
Proof. vm_compute. split; reflexivity. Qed.

(** The current revision on the sample chapter: the image takes index 1. *)
Example epub_sample_chapter :
  EpubAdapter.loadChapter Examples.book1 0
  = Ok [mkLayer ["one"] 0 (Some "blob:a"); mkLayer ["two"] 2 None].
Proof. vm_compute. reflexivity. Qed.

(* ================================================================== *)
(** * Further properties of the cache *)

(** ** The prefetch window *)

(** The ids [schedulePrefetch] keeps, for a chapter of the book, are the
    prefetch window. *)
Lemma schedulePrefetch_toFetch (K : Z) (s : ChapterCache.State) :
  inRange (ChapterCache.book s) K ->
  filter (fun i => negb (ChapterCache.has (ChapterCache.cache s) i)
                   && negb (ChapterCache.setHas (ChapterCache.prefetchQueue s) i))
         ((if K >? 0 then [K - 1] else [])
          ++ filter (fun nextId =>
                       nextId <? Z.of_nat (List.length (chapters (ChapterCache.book s))))
                    [K + 1; K + 2])
  = prefetchWindow K s.
Proof.
  unfold inRange, prefetchWindow. intros HK.
  set (N := Z.of_nat (List.length (chapters (ChapterCache.book s)))) in *.
  simpl filter. rewrite Z.gtb_ltb.
  destruct (Z.ltb_spec 0 K), (Z.ltb_spec (K + 1) N), (Z.ltb_spec (K + 2) N),
           (Z.leb_spec 0 (K - 1)), (Z.leb_spec 0 (K + 1)), (Z.leb_spec 0 (K + 2)),
           (Z.ltb_spec (K - 1) N);
    try lia; simpl;
    repeat match goal with
           | |- context [negb ?a && negb ?b] => destruct (negb a && negb b)
           end; reflexivity.
Qed.

(** X1.  For a chapter of the book, [schedulePrefetch] hands the scheduler one
    batch: the ids among [K-1], [K+1], [K+2] that are inside the book and
    neither resident nor in flight, in that order; it hands over nothing
    when there is no such id, and leaves the in-flight set alone. *)
Theorem schedulePrefetch_window (K : Z) (s : ChapterCache.State) :
  inRange (ChapterCache.book s) K ->
  ChapterCache.scheduled (ChapterCache.schedulePrefetch K s)
  = match prefetchWindow K s with
    | [] => ChapterCache.scheduled s
    | batch => ChapterCache.scheduled s ++ [batch]
    end /\
  ChapterCache.prefetchQueue (ChapterCache.schedulePrefetch K s)
  = ChapterCache.prefetchQueue s.
Proof.
  intros HK. unfold ChapterCache.schedulePrefetch. cbv zeta.
  rewrite (schedulePrefetch_toFetch K s HK).
  destruct (prefetchWindow K s) as [|i batch]; simpl; now split.
Qed.

Lemma schedulePrefetch_window_witness :
  inRange Examples.book6 2 /\
  ChapterCache.scheduled
    (ChapterCache.schedulePrefetch 2 (ChapterCache.create Examples.book6))
  = [[1; 3; 4]].
Proof.
  assert (H : inRange Examples.book6 2) by (unfold inRange; simpl; lia).
  split; [exact H|].
  exact (proj1 (schedulePrefetch_window 2 (ChapterCache.create Examples.book6) H)).
Defined.

(** ** Hits, failed loads and residency *)

Lemma get_set_same (m : list (Z * ChapterCache.CacheEntry)) (k : Z)
    (v : ChapterCache.CacheEntry) :
  ChapterCache.get (ChapterCache.set m k v) k = Some v.
Proof.
  induction m as [|[k' v'] m IH]; simpl.
  - now rewrite Z.eqb_refl.
  - destruct (Z.eqb_spec k' k) as [->|Hne]; simpl.
    + now rewrite Z.eqb_refl.
    + destruct (Z.eqb_spec k' k); [contradiction|exact IH].
Qed.

Lemma get_delete (m : list (Z * ChapterCache.CacheEntry)) (k j : Z) :
  ChapterCache.get (ChapterCache.delete m k) j
  = if j =? k then None else ChapterCache.get m j.
Proof.
  induction m as [|[k' v'] m IH]; simpl.
  - now destruct (j =? k).
  - destruct (Z.eqb_spec k' k) as [Heq|Hne]; simpl; rewrite IH;
      destruct (Z.eqb_spec j k) as [Hjk|Hjk]; try reflexivity;
      destruct (Z.eqb_spec k' j); try reflexivity; congruence.
Qed.

Lemma get_evictMap (m : list (Z * ChapterCache.CacheEntry)) (j : Z)
    (e : ChapterCache.CacheEntry) :
  ChapterCache.get (evictMap m) j = Some e -> ChapterCache.get m j = Some e.
Proof.
  unfold evictMap. destruct (_ <=? _); [auto|].
  destruct (ChapterCache.findOldest m) as [k|]; [|auto].
  rewrite get_delete. now destruct (j =? k).
Qed.

(** What [getChapter] leaves alone: the in-flight set and the revoked
    URLs. *)
Lemma getChapter_frame (i now : Z) (s : ChapterCache.State) :
  ChapterCache.prefetchQueue (fst (ChapterCache.getChapter i now s))
  = ChapterCache.prefetchQueue s /\
  ChapterCache.revoked (fst (ChapterCache.getChapter i now s))
  = ChapterCache.revoked s.
Proof.
  destruct (getChapter_cases i now s)
    as [(e & _ & ->)|[(_ & m & _ & ->)|(_ & ls & c & _ & _ & ->)]];
    simpl fst; [now split|now split|].
  unfold afterLoad. split.
  - unfold ChapterCache.schedulePrefetch. cbv zeta.
    destruct (_ =? 0); simpl;
      unfold ChapterCache.evictIfNeeded;
      destruct (_ <=? _); try reflexivity;
      destruct (ChapterCache.findOldest _); try reflexivity;
      cbv zeta; unfold ChapterCache.cleanupBlobUrls;
      repeat match goal with
             | |- context [match chapterAt ?b ?k with _ => _ end] =>
                 destruct (chapterAt b k)
             end; reflexivity.
  - rewrite (proj2 (proj2 (schedulePrefetch_fields _ _))).
    now rewrite evictIfNeeded_revokes_nothing.
Qed.

(** The entry [getChapter] leaves for the chapter, when it leaves one,
    holds the layers it returned. *)
Lemma getChapter_entry (K now : Z) (s : ChapterCache.State)
    (ls : list ContentLayer) (e : ChapterCache.CacheEntry) :
  snd (ChapterCache.getChapter K now s) = Ok ls ->
  ChapterCache.get (ChapterCache.cache (fst (ChapterCache.getChapter K now s))) K
  = Some e ->
  ChapterCache.entry_layers e = ls.
Proof.
  destruct (getChapter_cases K now s)
    as [(e0 & _ & ->)|[(_ & m & _ & ->)|(_ & ls0 & c & _ & _ & ->)]];
    simpl fst; simpl snd.
  - intros [= <-]. simpl. rewrite get_set_same. now intros [= <-].
  - discriminate.
  - intros [= <-]. rewrite afterLoad_cache. intros H.
    apply get_evictMap in H. rewrite get_set_same in H. now injection H as <-.
Qed.

(** X2.  Idempotent read: when a read of chapter [K] has returned layers and
    [K] is resident afterwards, the next read of [K] returns the same
    layers from the entry; it leaves the book, the resident ids and their
    order, the in-flight set and the revoked URLs as they are. *)
Theorem getChapter_twice (K t1 t2 : Z) (s : ChapterCache.State)
    (ls : list ContentLayer) :
  snd (ChapterCache.getChapter K t1 s) = Ok ls ->
  ChapterCache.has (ChapterCache.cache (fst (ChapterCache.getChapter K t1 s))) K
  = true ->
  let s1 := fst (ChapterCache.getChapter K t1 s) in
  let s2 := fst (ChapterCache.getChapter K t2 s1) in
  snd (ChapterCache.getChapter K t2 s1) = Ok ls /\
  ChapterCache.book s2 = ChapterCache.book s1 /\
  ChapterCache.keys (ChapterCache.cache s2) = ChapterCache.keys (ChapterCache.cache s1) /\
  ChapterCache.prefetchQueue s2 = ChapterCache.prefetchQueue s1 /\
  ChapterCache.scheduled s2 = ChapterCache.scheduled s1 /\
  ChapterCache.revoked s2 = ChapterCache.revoked s1.
Proof.
  intros Hok Hres. cbv zeta.
  set (s1 := fst (ChapterCache.getChapter K t1 s)) in *.
  destruct (proj1 (get_has _ _) Hres) as [e He].
  pose proof (getChapter_entry K t1 s ls e Hok He) as Hls.
  unfold ChapterCache.getChapter at 1 2 3 4 5 6. rewrite He. simpl.
  rewrite Hls, keys_set, Hres. now repeat split.
Qed.

Lemma getChapter_twice_witness :
  snd (ChapterCache.getChapter 0 1 (ChapterCache.create Examples.book1))
  = Ok [mkLayer ["one"] 0 (Some "blob:a"); mkLayer ["two"] 2 None] /\
  snd (ChapterCache.getChapter 0 2
         (fst (ChapterCache.getChapter 0 1 (ChapterCache.create Examples.book1))))
  = Ok [mkLayer ["one"] 0 (Some "blob:a"); mkLayer ["two"] 2 None].
Proof.
  assert (H : snd (ChapterCache.getChapter 0 1 (ChapterCache.create Examples.book1))
              = Ok [mkLayer ["one"] 0 (Some "blob:a"); mkLayer ["two"] 2 None])
    by (vm_compute; reflexivity).
  split; [exact H|].
  exact (proj1 (getChapter_twice 0 1 2 (ChapterCache.create Examples.book1) _ H
                  eq_refl)).
Defined.

(** X3.  A read of an id outside the book that is not resident throws and
    leaves the cache object as it was: nothing is stored, evicted,
    scheduled or written to the book.  For a safe integer the error is the
    adapter's error for that id, with the id in decimal digits. *)
Theorem getChapter_out_of_range (i now : Z) (s : ChapterCache.State) :
  ~ inRange (ChapterCache.book s) i ->
  ChapterCache.has (ChapterCache.cache s) i = false ->
  exists m,
    ChapterCache.getChapter i now s = (s, Throw m) /\
    (isSafeInteger i -> m = notFound i).
Proof.
  intros Hout Hhas. apply chapterAt_none in Hout.
  exists (notFound i). split; [|reflexivity].
  unfold ChapterCache.getChapter.
  destruct (ChapterCache.get (ChapterCache.cache s) i) as [e|] eqn:Hget.
  - assert (ChapterCache.has (ChapterCache.cache s) i = true)
      by (apply get_has; now exists e).
    congruence.
  - unfold ChapterCache.loadChapter, TxtAdapter.loadChapter,
      EpubAdapter.loadChapter. rewrite Hout. now destruct (format _).
Qed.

Lemma getChapter_out_of_range_witness :
  ~ inRange Examples.book1 7 /\
  isSafeInteger 7 /\
  exists m,
    ChapterCache.getChapter 7 1 (ChapterCache.create Examples.book1)
    = (ChapterCache.create Examples.book1, Throw m) /\
    m = notFound 7.
Proof.
  assert (H : ~ inRange Examples.book1 7) by (unfold inRange; simpl; lia).
  assert (Hsafe : isSafeInteger 7) by (unfold isSafeInteger; lia).
  split; [exact H|]. split; [exact Hsafe|].
  destruct (getChapter_out_of_range 7 1 (ChapterCache.create Examples.book1) H eq_refl)
    as (m & Hm & Hmsg).
  exists m. split; [exact Hm|exact (Hmsg Hsafe)].
Defined.

(** X4.  With a clock that has not run backwards -- no resident entry was
    accessed later than [now] -- the chapter a read returns is resident
    after the read: eviction takes another entry. *)
Theorem read_chapter_stays_resident (K now : Z) (s : ChapterCache.State)
    (ls : list ContentLayer) :
  (forall kv, In kv (ChapterCache.cache s) ->
     ChapterCache.lastAccess (snd kv) <= now) ->
  snd (ChapterCache.getChapter K now s) = Ok ls ->
  ChapterCache.has (ChapterCache.cache (fst (ChapterCache.getChapter K now s))) K
  = true.
Proof.
  intros Hclock.
  destruct (getChapter_cases K now s)
    as [(e0 & _ & ->)|[(_ & m & _ & ->)|(Hhas & ls0 & c & _ & _ & ->)]];
    simpl fst; simpl snd.
  - intros _. simpl. rewrite has_set, Z.eqb_refl. reflexivity.
  - discriminate.
  - intros _. rewrite afterLoad_cache.
    set (entry := ChapterCache.mkEntry K ls0 now).
    set (m' := ChapterCache.set (ChapterCache.cache s) K entry).
    assert (Hm' : m' = ChapterCache.cache s ++ [(K, entry)]).
    { unfold m'. clear -Hhas. induction (ChapterCache.cache s) as [|[k v] m IH];
        [reflexivity|]. simpl in *. destruct (k =? K); [discriminate|].
      simpl in Hhas. now rewrite IH. }
    assert (HK : ChapterCache.has m' K = true)
      by (unfold m'; rewrite has_set, Z.eqb_refl; reflexivity).
    unfold evictMap. destruct (Z.leb_spec (ChapterCache.size m')
                                 ChapterCache.MAX_CACHE_SIZE) as [|Hgt]; [exact HK|].
    destruct (findOldest_spec m') as (pre & k & e & post & Hsplit & -> & Hpre & _).
    { rewrite Hm'. now destruct (ChapterCache.cache s). }
    rewrite has_delete, HK. simpl.
    destruct (Z.eqb_spec K k) as [<-|]; [exfalso|reflexivity].
    rewrite Hm' in Hsplit.
    destruct post as [|x post].
    + apply app_inj_tail in Hsplit. destruct Hsplit as [Hcache [= <-]].
      rewrite Hm' in Hgt. destruct (ChapterCache.cache s) as [|kv m0] eqn:Hc.
      * cap_arith.
      * assert (Hin : In kv pre) by (rewrite <- Hcache; now left).
        specialize (Hpre kv Hin). specialize (Hclock kv (or_introl eq_refl)).
        simpl in Hpre. lia.
    + assert (Hin : In (K, e) (ChapterCache.cache s)).
      { apply (f_equal (@removelast _)) in Hsplit.
        rewrite removelast_last, removelast_app in Hsplit by discriminate.
        rewrite Hsplit. apply in_or_app. right. now left. }
      apply (in_map fst) in Hin. simpl in Hin. apply has_in_keys in Hin. congruence.
Qed.

Lemma read_chapter_stays_resident_witness :
  let s := ChapterCache.run (firstn 5 Examples.readSix)
             (ChapterCache.create Examples.book6) in
  (forall kv, In kv (ChapterCache.cache s) ->
     ChapterCache.lastAccess (snd kv) <= 105) /\
  ChapterCache.has (ChapterCache.cache (fst (ChapterCache.getChapter 5 105 s))) 5
  = true.
Proof.
  cbv zeta.
  assert (Hclock : forall kv,
    In kv (ChapterCache.cache (ChapterCache.run (firstn 5 Examples.readSix)
                                 (ChapterCache.create Examples.book6))) ->
    ChapterCache.lastAccess (snd kv) <= 105).
  { intros kv Hin. vm_compute in Hin.
    repeat (destruct Hin as [<-|Hin]; [simpl; lia|]). destruct Hin. }
  split; [exact Hclock|].
  eapply read_chapter_stays_resident; [exact Hclock|].
  vm_compute. reflexivity.
Defined.

(** ** Releasing blob URLs *)

Lemma cleanup_fold (m : list (Z * ChapterCache.CacheEntry)) :
  forall s : ChapterCache.State,
  let s' := fold_left (fun s kv => ChapterCache.cleanupBlobUrls (fst kv) s) m s in
  ChapterCache.book s' = ChapterCache.book s /\
  ChapterCache.scheduled s' = ChapterCache.scheduled s /\
  ChapterCache.revoked s'
  = ChapterCache.revoked s
    ++ flat_map (fun kv => match chapterAt (ChapterCache.book s) (fst kv) with
                           | Some c => ChapterCache.blobUrls (layers c)
                           | None => []
                           end) m.
Proof.
  induction m as [|kv m IH]; intros s; cbv zeta.
  - simpl. now rewrite app_nil_r.
  - simpl fold_left. destruct (IH (ChapterCache.cleanupBlobUrls (fst kv) s))
      as (Hb & Hs & Hr).
    rewrite Hb, Hs, Hr. unfold ChapterCache.cleanupBlobUrls.
    destruct (chapterAt (ChapterCache.book s) (fst kv)) as [c|] eqn:Hc; simpl.
    + rewrite Hc. now rewrite <- app_assoc.
    + rewrite Hc. now repeat split.
Qed.

(** X5.  [clear] empties the map and the in-flight set, leaves the book and the
    scheduled batches as they are, and revokes, for every resident id in
    insertion order, the blob URLs of the layers the book holds for that
    chapter. *)
Theorem clear_effect (s : ChapterCache.State) :
  ChapterCache.cache (ChapterCache.clear s) = [] /\
  ChapterCache.prefetchQueue (ChapterCache.clear s) = [] /\
  ChapterCache.book (ChapterCache.clear s) = ChapterCache.book s /\
  ChapterCache.scheduled (ChapterCache.clear s) = ChapterCache.scheduled s /\
  ChapterCache.revoked (ChapterCache.clear s)
  = ChapterCache.revoked s ++ residentBlobUrls s.
Proof.
  unfold ChapterCache.clear. cbv zeta. simpl.
  destruct (cleanup_fold (ChapterCache.cache s) s) as (Hb & Hs & Hr).
  now repeat split.
Qed.

(** X6.  Reading never revokes a blob URL: over any sequence of reads, by the
    reader or by the prefetch loop, with all the evictions they cause, the
    list of revoked URLs stays as it was.  Only [clear] revokes. *)
Theorem reads_never_revoke (ops : list ChapterCache.Op) :
  forall s : ChapterCache.State,
  forallb ChapterCache.isRead ops = true ->
  ChapterCache.revoked (ChapterCache.run ops s) = ChapterCache.revoked s.
Proof.
  induction ops as [|o ops IH]; intros s Hops; [reflexivity|].
  simpl in Hops. apply andb_true_iff in Hops. destruct Hops as [Ho Hops].
  simpl. rewrite (IH _ Hops). destruct o as [i now|i now|]; simpl.
  - apply getChapter_frame.
  - unfold ChapterCache.prefetchChapter.
    destruct (ChapterCache.has _ i); [reflexivity|]. simpl.
    apply (getChapter_frame i now
             (ChapterCache.withQueue s
                (ChapterCache.setAdd (ChapterCache.prefetchQueue s) i))).
  - discriminate Ho.
Qed.

Lemma reads_never_revoke_witness :
  forallb ChapterCache.isRead Examples.readSix = true /\
  ChapterCache.revoked
    (ChapterCache.run Examples.readSix (ChapterCache.create Examples.book6)) = [].
Proof.
  split; [reflexivity|].
  exact (reads_never_revoke Examples.readSix (ChapterCache.create Examples.book6)
           eq_refl).
Defined.

(** ** The book as a mirror, and continuity, over whole runs *)

(** X7.  On a new cache over a book in which no chapter is marked loaded, after
    any sequence of reads a chapter is marked [isLoaded] exactly when its
    id is resident. *)
Theorem fresh_reads_mirror (book : UnifiedBook) (ops : list ChapterCache.Op) :
  Forall (fun c => isLoaded c = false) (chapters book) ->
  forallb ChapterCache.isRead ops = true ->
  forall i c,
    chapterAt (ChapterCache.book (ChapterCache.run ops (ChapterCache.create book))) i
    = Some c ->
    isLoaded c
    = ChapterCache.has
        (ChapterCache.cache (ChapterCache.run ops (ChapterCache.create book))) i.
Proof.
  intros Hfresh Hops.
  exact (reads_keep_mirror ops _ Hops (create_mirrors book Hfresh)).
Qed.

Lemma fresh_reads_mirror_witness :
  Forall (fun c => isLoaded c = false) (chapters Examples.book6) /\
  forall i c,
    chapterAt (ChapterCache.book
                 (ChapterCache.run Examples.readSix (ChapterCache.create Examples.book6))) i
    = Some c ->
    isLoaded c
    = ChapterCache.has
        (ChapterCache.cache
           (ChapterCache.run Examples.readSix (ChapterCache.create Examples.book6))) i.
Proof.
  assert (H : Forall (fun c => isLoaded c = false) (chapters Examples.book6))
    by (simpl; repeat constructor).
  split; [exact H|].
  exact (fresh_reads_mirror Examples.book6 Examples.readSix H eq_refl).
Defined.

Lemma step_continuity (s : ChapterCache.State) (o : ChapterCache.Op) :
  heldContinuity s -> heldContinuity (ChapterCache.step s o).
Proof.
  intros H. destruct o as [i now|i now|]; simpl.
  - now apply getChapter_continuity.
  - unfold ChapterCache.prefetchChapter.
    destruct (ChapterCache.has _ i); [exact H|].
    exact (proj1 (getChapter_continuity i now
                    (ChapterCache.withQueue s
                       (ChapterCache.setAdd (ChapterCache.prefetchQueue s) i)) H)).
  - destruct H as [Hb _]. split.
    + now rewrite (proj1 (clear_book s)).
    + rewrite (proj2 (clear_book s)). constructor.
Qed.

(** X8.  With the revised EPUB adapter and the plain-text adapter, every layer
    sequence a read through the cache returns obeys index continuity,
    whatever was read, prefetched, evicted or cleared before, on a book
    that starts with continuous (for a parsed book: empty) layers. *)
Theorem cache_reads_continuous (book : UnifiedBook) (ops : list ChapterCache.Op)
    (i now : Z) (ls : list ContentLayer) :
  storedContinuity book ->
  snd (ChapterCache.getChapter i now
         (ChapterCache.run ops (ChapterCache.create book))) = Ok ls ->
  indexContinuity ls.
Proof.
  intros Hbook.
  assert (Hrun : forall ops s, heldContinuity s ->
                 heldContinuity (ChapterCache.run ops s)).
  { clear. induction ops as [|o ops IH]; intros s H; [exact H|].
    apply IH, step_continuity, H. }
  apply (getChapter_continuity i now _
           (Hrun ops (ChapterCache.create book) (conj Hbook (Forall_nil _)))).
Qed.

Lemma cache_reads_continuous_witness :
  storedContinuity Examples.book6 /\
  indexContinuity [mkLayer ["one"] 0 (Some "blob:a"); mkLayer ["two"] 2 None].
Proof.
  assert (H : storedContinuity Examples.book6).
  { unfold storedContinuity. simpl. repeat constructor; apply indexContinuity_nil. }
  split; [exact H|].
  apply (cache_reads_continuous Examples.book6 Examples.readSix 3 200 _ H).
  vm_compute. reflexivity.
Defined.

(** ** The prefetch loop *)

Lemma setDelete_setAdd (q : list Z) (i : Z) :
  ChapterCache.setDelete (ChapterCache.setAdd q i) i = ChapterCache.setDelete q i.
Proof.
  unfold ChapterCache.setAdd, ChapterCache.setDelete.
  destruct (ChapterCache.setHas q i); [reflexivity|].
  rewrite filter_app. simpl. rewrite Z.eqb_refl. simpl. apply app_nil_r.
Qed.

Lemma setDelete_absent (q : list Z) (i : Z) :
  ChapterCache.setHas (ChapterCache.setDelete q i) i = false.
Proof.
  unfold ChapterCache.setHas, ChapterCache.setDelete.
  induction q as [|x q IH]; [reflexivity|]. simpl.
  destruct (Z.eqb_spec x i) as [->|Hne]; simpl; [exact IH|].
  rewrite IH. destruct (Z.eqb_spec i x); [congruence|reflexivity].
Qed.

(** X9.  One iteration of the prefetch loop for an id that is not resident:
    whether the load succeeds or throws, the id is not in the in-flight set
    afterwards -- also when another batch had put it there before -- and
    every other in-flight id stays. *)
Theorem prefetchChapter_in_flight (i now : Z) (s : ChapterCache.State) :
  ChapterCache.has (ChapterCache.cache s) i = false ->
  ChapterCache.prefetchQueue (ChapterCache.prefetchChapter i now s)
  = ChapterCache.setDelete (ChapterCache.prefetchQueue s) i /\
  ChapterCache.setHas
    (ChapterCache.prefetchQueue (ChapterCache.prefetchChapter i now s)) i = false.
Proof.
  intros Hhas. unfold ChapterCache.prefetchChapter. rewrite Hhas. simpl.
  rewrite (proj1 (getChapter_frame i now _)). simpl.
  rewrite setDelete_setAdd. split; [reflexivity|apply setDelete_absent].
Qed.

Lemma prefetchChapter_in_flight_witness :
  ChapterCache.has (ChapterCache.cache Examples.state6) 9 = false /\
  ChapterCache.prefetchQueue (ChapterCache.prefetchChapter 9 1 Examples.state6) = [].
Proof.
  split; [reflexivity|].
  exact (proj1 (prefetchChapter_in_flight 9 1 Examples.state6 eq_refl)).
Defined.

Lemma updateAt_length {A : Type} (f : A -> A) : forall (l : list A) (n : nat),
  List.length (ChapterCache.updateAt l n f) = List.length l.
Proof.
  induction l as [|x l IH]; intros [|n]; simpl; auto.
Qed.

(** No operation of the cache changes the number of chapters of the book. *)
Lemma getChapter_chapter_count (i now : Z) (s : ChapterCache.State) :
  List.length (chapters (ChapterCache.book (fst (ChapterCache.getChapter i now s))))
  = List.length (chapters (ChapterCache.book s)).
Proof.
  destruct (getChapter_cases i now s)
    as [(e & _ & ->)|[(_ & m & _ & ->)|(_ & ls & c & _ & _ & ->)]];
    simpl fst; try reflexivity.
  unfold afterLoad. rewrite (proj1 (proj2 (schedulePrefetch_fields _ _))).
  rewrite evictIfNeeded_book.
  destruct (_ <=? _); [simpl; apply updateAt_length|].
  destruct (ChapterCache.findOldest _) as [k|]; [|simpl; apply updateAt_length].
  destruct (chapterAt _ k); simpl; now rewrite ?updateAt_length.
Qed.

(** A miss under the cap on a chapter of the book adds the id at the end of
    the map and evicts nothing. *)
Lemma getChapter_miss_keys (i now : Z) (s : ChapterCache.State) :
  inRange (ChapterCache.book s) i ->
  ChapterCache.has (ChapterCache.cache s) i = false ->
  ChapterCache.size (ChapterCache.cache s) < ChapterCache.MAX_CACHE_SIZE ->
  ChapterCache.keys (ChapterCache.cache (fst (ChapterCache.getChapter i now s)))
  = ChapterCache.keys (ChapterCache.cache s) ++ [i].
Proof.
  intros Hin Hhas Hsize.
  destruct (getChapter_cases i now s)
    as [(e & Hget & _)|[(_ & m & Hload & _)|(_ & ls & c & _ & _ & ->)]].
  - assert (ChapterCache.has (ChapterCache.cache s) i = true)
      by (apply get_has; now exists e).
    congruence.
  - exfalso. apply (proj1 (chapterAt_none (ChapterCache.book s) i)); [|exact Hin].
    unfold ChapterCache.loadChapter in Hload. destruct (format _).
    + apply epub_loadChapter_throws. now exists m.
    + apply txt_loadChapter_throws. now exists m.
  - simpl fst. rewrite afterLoad_cache. unfold evictMap.
    rewrite size_set, Hhas.
    destruct (Z.leb_spec (ChapterCache.size (ChapterCache.cache s) + 1)
                         ChapterCache.MAX_CACHE_SIZE); [|lia].
    now rewrite keys_set, Hhas.
Qed.

Lemma size_keys (m : list (Z * ChapterCache.CacheEntry)) :
  ChapterCache.size m = Z.of_nat (List.length (ChapterCache.keys m)).
Proof. unfold ChapterCache.size, ChapterCache.keys. now rewrite length_map. Qed.

(** A prefetch iteration for a chapter of the book that is not resident,
    under the cap: the map gains the id at the end, the book keeps its
    number of chapters. *)
Lemma prefetchChapter_miss (i now : Z) (s : ChapterCache.State) :
  inRange (ChapterCache.book s) i ->
  ChapterCache.has (ChapterCache.cache s) i = false ->
  ChapterCache.size (ChapterCache.cache s) < ChapterCache.MAX_CACHE_SIZE ->
  let s' := ChapterCache.prefetchChapter i now s in
  ChapterCache.keys (ChapterCache.cache s')
  = ChapterCache.keys (ChapterCache.cache s) ++ [i] /\
  List.length (chapters (ChapterCache.book s'))
  = List.length (chapters (ChapterCache.book s)).
Proof.
  intros Hin Hhas Hsize. cbv zeta. unfold ChapterCache.prefetchChapter.
  rewrite Hhas. simpl ChapterCache.cache. simpl ChapterCache.book.
  set (sq := ChapterCache.withQueue s
               (ChapterCache.setAdd (ChapterCache.prefetchQueue s) i)).
  split.
  - exact (getChapter_miss_keys i now sq Hin Hhas Hsize).
  - exact (getChapter_chapter_count i now sq).
Qed.

(** A batch of distinct ids of the book, none resident, that fits under
    the cap: after the prefetch loop exactly these ids have joined the map,
    in the order of the batch, and nothing was evicted. *)
Lemma prefetch_batch (now : Z -> Z) (ids : list Z) :
  forall s : ChapterCache.State,
  NoDup ids ->
  (forall i, In i ids ->
     inRange (ChapterCache.book s) i /\
     ChapterCache.has (ChapterCache.cache s) i = false) ->
  ChapterCache.size (ChapterCache.cache s) + Z.of_nat (List.length ids)
  <= ChapterCache.MAX_CACHE_SIZE ->
  ChapterCache.keys (ChapterCache.cache (ChapterCache.prefetchChapters ids now s))
  = ChapterCache.keys (ChapterCache.cache s) ++ ids.
Proof.
  unfold ChapterCache.prefetchChapters.
  induction ids as [|i ids IH]; intros s Hnd Hids Hsize.
  - simpl. now rewrite app_nil_r.
  - simpl fold_left. simpl List.length in Hsize.
    destruct (Hids i (or_introl eq_refl)) as [Hin Hhas].
    assert (Hlt : ChapterCache.size (ChapterCache.cache s)
                  < ChapterCache.MAX_CACHE_SIZE) by lia.
    destruct (prefetchChapter_miss i (now i) s Hin Hhas Hlt) as [Hk Hn].
    inversion Hnd as [|? ? Hni Hnd']; subst.
    rewrite IH; [rewrite Hk; now rewrite <- app_assoc|exact Hnd'| |].
    + intros j Hj. destruct (Hids j (or_intror Hj)) as [Hjin Hjhas]. split.
      * unfold inRange in *. now rewrite Hn.
      * destruct (ChapterCache.has
                    (ChapterCache.cache (ChapterCache.prefetchChapter i (now i) s)) j)
          eqn:Hh; [|reflexivity].
        apply has_in_keys in Hh. rewrite Hk in Hh. apply in_app_or in Hh.
        destruct Hh as [Hh|[->|[]]]; [|contradiction].
        apply has_in_keys in Hh. congruence.
    + rewrite size_keys, Hk, length_app. rewrite size_keys in Hsize.
      simpl List.length. lia.
Qed.

(** X10.  Reading chapter [K] on a new cache and letting the scheduled batch run:
    the read schedules the neighbours [K-1], [K+1], [K+2] that are inside
    the book, as one batch, and after the batch the resident chapters are
    [K] and these neighbours -- at most four, nothing evicted. *)
Theorem prefetch_fills_window (book : UnifiedBook) (K t : Z) (now : Z -> Z) :
  inRange book K ->
  let s1 := fst (ChapterCache.getChapter K t (ChapterCache.create book)) in
  let window :=
    filter (fun i => (0 <=? i) && (i <? Z.of_nat (List.length (chapters book))))
           [K - 1; K + 1; K + 2] in
  ChapterCache.scheduled s1 = match window with [] => [] | _ => [window] end /\
  ChapterCache.keys
    (ChapterCache.cache (ChapterCache.prefetchChapters window now s1))
  = K :: window.
Proof.
  intros HK. cbv zeta.
  set (s0 := ChapterCache.create book).
  set (N := Z.of_nat (List.length (chapters book))).
  set (window := filter (fun i => (0 <=? i) && (i <? N)) [K - 1; K + 1; K + 2]).
  assert (Hkeys : ChapterCache.keys (ChapterCache.cache (fst (ChapterCache.getChapter K t s0)))
                  = [K]).
  { apply (getChapter_miss_keys K t s0 HK eq_refl). unfold s0. cap_arith. }
  assert (Hcount : List.length (chapters (ChapterCache.book (fst (ChapterCache.getChapter K t s0))))
                   = List.length (chapters book))
    by apply getChapter_chapter_count.
  assert (Hwin : forall i, In i window -> i <> K /\ 0 <= i < N).
  { intros i Hi. unfold window in Hi. apply filter_In in Hi.
    destruct Hi as [Hi Hb]. apply andb_true_iff in Hb. destruct Hb as [H0 H1].
    apply Z.leb_le in H0. apply Z.ltb_lt in H1. simpl in Hi. lia. }
  split.
  - destruct (getChapter_cases K t s0)
      as [(e & Hget & _)|[(_ & m & _ & Heq)|(_ & ls & c & _ & _ & Heq)]].
    + discriminate Hget.
    + rewrite Heq in Hkeys. discriminate Hkeys.
    + rewrite Heq in Hkeys, Hcount. rewrite Heq. simpl fst in *. unfold afterLoad in *.
      set (s2 := ChapterCache.evictIfNeeded _) in *.
      rewrite (proj1 (schedulePrefetch_fields _ _)) in Hkeys.
      rewrite (proj1 (proj2 (schedulePrefetch_fields _ _))) in Hcount.
      assert (HK2 : inRange (ChapterCache.book s2) K)
        by (unfold inRange in *; now rewrite Hcount).
      unfold ChapterCache.schedulePrefetch. cbv zeta.
      rewrite (schedulePrefetch_toFetch K s2 HK2).
      assert (Hsched : ChapterCache.scheduled s2 = []).
      { unfold s2. unfold ChapterCache.evictIfNeeded.
        destruct (_ <=? _); [reflexivity|].
        destruct (ChapterCache.findOldest _); [|reflexivity]. cbv zeta.
        unfold ChapterCache.cleanupBlobUrls.
        repeat match goal with
               | |- context [match chapterAt ?b ?k with _ => _ end] =>
                   destruct (chapterAt b k)
               end; reflexivity. }
      assert (Hqueue : ChapterCache.prefetchQueue s2 = []).
      { unfold s2. unfold ChapterCache.evictIfNeeded.
        destruct (_ <=? _); [reflexivity|].
        destruct (ChapterCache.findOldest _); [|reflexivity]. cbv zeta.
        unfold ChapterCache.cleanupBlobUrls.
        repeat match goal with
               | |- context [match chapterAt ?b ?k with _ => _ end] =>
                   destruct (chapterAt b k)
               end; reflexivity. }
      assert (Hsame : prefetchWindow K s2 = window).
      { unfold prefetchWindow, window. rewrite Hcount, Hqueue. fold N.
        apply filter_ext_in. intros i Hi.
        assert (Hne : i <> K) by (simpl in Hi; lia).
        destruct (ChapterCache.has (ChapterCache.cache s2) i) eqn:Hh.
        - apply has_in_keys in Hh. rewrite Hkeys in Hh. simpl in Hh. lia.
        - simpl. now rewrite !andb_true_r. }
      rewrite Hsame. destruct window; simpl ChapterCache.scheduled;
        rewrite ?Hsched; reflexivity.
  - rewrite (prefetch_batch now window).
    + now rewrite Hkeys.
    + unfold window. apply NoDup_filter.
      repeat constructor; simpl; lia.
    + intros i Hi. destruct (Hwin i Hi) as [Hne Hr]. split.
      * unfold inRange. rewrite Hcount. exact Hr.
      * destruct (ChapterCache.has _ i) eqn:Hh; [|reflexivity].
        apply has_in_keys in Hh. rewrite Hkeys in Hh. simpl in Hh. lia.
    + rewrite size_keys, Hkeys. simpl List.length.
      pose proof (filter_length_le (fun i => (0 <=? i) && (i <? N))
                    [K - 1; K + 1; K + 2]) as Hl.
      fold window in Hl. simpl List.length in Hl.
      unfold ChapterCache.MAX_CACHE_SIZE. lia.
Qed.

Lemma prefetch_fills_window_witness :
  inRange Examples.book6 2 /\
  ChapterCache.keys
    (ChapterCache.cache
       (ChapterCache.prefetchChapters [1; 3; 4] (fun i => 10 + i)
          (fst (ChapterCache.getChapter 2 1 (ChapterCache.create Examples.book6)))))
  = [2; 1; 3; 4].
Proof.
  assert (H : inRange Examples.book6 2) by (unfold inRange; simpl; lia).
  split; [exact H|].
  exact (proj2 (prefetch_fills_window Examples.book6 2 1 (fun i => 10 + i) H)).
Defined.

(* ================================================================== *)
(** * Further properties of the chunking *)

(** ** Where the image goes, and the index that comes back *)

(** The image placement the chunk loop keeps: no layer added while the
    first chunk is pending; afterwards the image sits on the first layer
    added and on no other. *)
Lemma epub_chunkStep_image (layers : list ContentLayer) (img : option string)
    (st : EpubAdapter.ChunkLoop) (para : string) :
  (exists added, EpubAdapter.out st = layers ++ added /\
     if EpubAdapter.isFirstChunk st then added = [] else imageOnFirst img added) ->
  let st' := EpubAdapter.chunkStep img st para in
  exists added, EpubAdapter.out st' = layers ++ added /\
    if EpubAdapter.isFirstChunk st' then added = [] else imageOnFirst img added.
Proof.
  intros (added & Hout & Himg). unfold EpubAdapter.chunkStep.
  destruct (_ && _); cbn [EpubAdapter.out EpubAdapter.isFirstChunk];
    [|now exists added].
  exists (added ++ [EpubAdapter.chunkLayer img st]). split.
  - now rewrite Hout, app_assoc.
  - unfold EpubAdapter.chunkLayer. destruct (EpubAdapter.isFirstChunk st).
    + subst added. now exists (mkLayer (EpubAdapter.currentChunk st)
                                 (EpubAdapter.currentStartIndex st) img), [].
    + destruct Himg as (first & rest & -> & Hf & Hr).
      exists first, (rest ++ [mkLayer (EpubAdapter.currentChunk st)
                                (EpubAdapter.currentStartIndex st) None]).
      repeat split; auto. apply Forall_app. split; [exact Hr|now constructor].
Qed.

Lemma chainEnd_count (ls : list ContentLayer) : forall s,
  chainEnd s ls
  = s + Z.of_nat (List.length (allParagraphs ls))
    + Z.of_nat (List.length (filter hasImage ls)).
Proof.
  unfold chainEnd, allParagraphs.
  induction ls as [|l ls IH]; intros s; simpl; [lia|].
  rewrite IH, length_app. unfold slots.
  destruct (hasImage l); simpl List.length; lia.
Qed.

Lemma filter_hasImage_none (ls : list ContentLayer) :
  Forall (fun l => image l = None) ls -> filter hasImage ls = [].
Proof.
  induction 1 as [|l ls Hl _ IH]; [reflexivity|].
  simpl. unfold hasImage at 1. now rewrite Hl.
Qed.

(** One call adds at least one layer, and the image sits on the first
    layer added and on no other. *)
Lemma addParagraphs_image_placement (layers : list ContentLayer)
    (P : list string) (start : Z) (img : option string) :
  exists added,
    fst (EpubAdapter.addParagraphsWithChunking layers P start img)
    = layers ++ added /\
    imageOnFirst img added.
Proof.
  destruct (epub_addParagraphs_spec layers P start img)
    as (added & Heq & Hround & _ & _).
  exists added. rewrite Heq. simpl fst. split; [reflexivity|].
  unfold EpubAdapter.addParagraphsWithChunking in Heq. rewrite reduce_chars in Heq.
  destruct (0 + chars P <=? EpubAdapter.MAX_LAYER_LENGTH) eqn:Hfast.
  - injection Heq as Heq _. apply app_inv_head in Heq. subst added.
    now exists (mkLayer P start img), [].
  - assert (HP : P <> []).
    { intros ->. simpl in Hfast. discriminate Hfast. }
    pose proof (fold_left_invariant (EpubAdapter.chunkStep img)
      (fun _ st => exists added, EpubAdapter.out st = layers ++ added /\
         if EpubAdapter.isFirstChunk st then added = [] else imageOnFirst img added)
      (fun done a x H => epub_chunkStep_image layers img a x H)
      P [] (EpubAdapter.mkLoop layers [] 0 start true)) as H.
    destruct H as (added0 & Hout & Hplace).
    { exists []. split; [now rewrite app_nil_r|reflexivity]. }
    simpl app in *. set (st := fold_left _ P _) in *.
    destruct (0 <? _).
    + injection Heq as Heq _. rewrite Hout, <- app_assoc in Heq.
      apply app_inv_head in Heq. subst added.
      unfold EpubAdapter.chunkLayer. destruct (EpubAdapter.isFirstChunk st).
      * subst added0. now exists (mkLayer (EpubAdapter.currentChunk st)
                                    (EpubAdapter.currentStartIndex st) img), [].
      * destruct Hplace as (first & rest & -> & Hf & Hr).
        exists first, (rest ++ [mkLayer (EpubAdapter.currentChunk st)
                                  (EpubAdapter.currentStartIndex st) None]).
        repeat split; auto. apply Forall_app. split; [exact Hr|now constructor].
    + injection Heq as Heq _. rewrite Hout in Heq.
      apply app_inv_head in Heq. subst added.
      destruct (EpubAdapter.isFirstChunk st); [|exact Hplace].
      subst added0. now contradiction HP.
Qed.

(** X11.  Image attachment and the returned index.  One call of
    [addParagraphsWithChunking] adds at least one layer; the image it was
    given sits on the first layer added and on no other; and the index it
    returns is the start index plus the number of paragraphs, plus one when
    there is an image. *)
Theorem addParagraphs_image_and_index (layers : list ContentLayer)
    (P : list string) (start : Z) (img : option string) :
  exists added,
    fst (EpubAdapter.addParagraphsWithChunking layers P start img)
    = layers ++ added /\
    imageOnFirst img added /\
    snd (EpubAdapter.addParagraphsWithChunking layers P start img)
    = start + Z.of_nat (List.length P) + (if JS.truthyOpt img then 1 else 0).
Proof.
  destruct (epub_addParagraphs_spec layers P start img)
    as (added & Heq & Hround & _ & _).
  destruct (addParagraphs_image_placement layers P start img)
    as (added' & Heq' & Himg).
  rewrite Heq in Heq'. simpl fst in Heq'. apply app_inv_head in Heq'. subst added'.
  exists added. rewrite Heq. simpl fst. simpl snd.
  split; [reflexivity|]. split; [exact Himg|].
  destruct Himg as (first & rest & -> & Hf & Hr).
  rewrite chainEnd_count, Hround. simpl filter.
  rewrite (filter_hasImage_none rest Hr). unfold hasImage. rewrite Hf.
  destruct (JS.truthyOpt img); simpl List.length; lia.
Qed.

(** ** Cuts are forced *)

Lemma cutChain_extend (limit : Z) (p : string) : forall (xs : list (list string))
    (c : list string),
  c <> [] -> cutChain limit (xs ++ [c]) -> cutChain limit (xs ++ [c ++ [p]]).
Proof.
  induction xs as [|a xs IH]; intros c Hc H; [exact I|].
  destruct xs as [|b xs].
  - simpl in *. destruct H as [(q & r & -> & Hlt) _]. split; [|exact I].
    now exists q, (r ++ [p]).
  - simpl app in *. destruct H as [Hab Hrest]. split; [exact Hab|].
    apply (IH c Hc Hrest).
Qed.

Lemma cutChain_cut (limit : Z) (p : string) : forall (xs : list (list string))
    (c : list string),
  limit < chars c + JS.length p ->
  cutChain limit (xs ++ [c]) -> cutChain limit ((xs ++ [c]) ++ [[p]]).
Proof.
  induction xs as [|a xs IH]; intros c Hlt H.
  - simpl. split; [now exists p, []|exact I].
  - destruct xs as [|b xs].
    + simpl in *. destruct H as [Hab _]. split; [exact Hab|].
      split; [now exists p, []|exact I].
    + simpl app in *. destruct H as [Hab Hrest]. split; [exact Hab|].
      apply (IH c Hlt Hrest).
Qed.

Lemma cutChain_forced (limit : Z) (ls : list ContentLayer) :
  cutChain limit (map paragraphs ls) -> forcedCuts limit ls.
Proof.
  induction ls as [|l ls IH]; intros H n a b Ha Hb.
  - destruct n; discriminate.
  - destruct ls as [|l' ls'].
    + destruct n as [|[|n]]; discriminate.
    + simpl map in H. destruct H as [Hcut Hrest].
      destruct n as [|n].
      * simpl in Ha, Hb. injection Ha as <-. injection Hb as <-. exact Hcut.
      * apply (IH Hrest n a b); assumption.
Qed.

(** The loop of [chunkParagraphs] cuts only where it has to. *)
Lemma txt_chunkStep_cuts (st : TxtAdapter.ChunkLoop) (para : string) :
  TxtAdapter.currentChunkSize st = chars (TxtAdapter.currentChunk st) /\
  (TxtAdapter.currentChunk st = [] -> TxtAdapter.out st = []) /\
  (TxtAdapter.currentChunk st <> [] ->
   cutChain TxtAdapter.MAX_LAYER_LENGTH
     (map paragraphs (TxtAdapter.out st) ++ [TxtAdapter.currentChunk st])) ->
  let st' := TxtAdapter.chunkStep st para in
  TxtAdapter.currentChunkSize st' = chars (TxtAdapter.currentChunk st') /\
  TxtAdapter.currentChunk st' <> [] /\
  cutChain TxtAdapter.MAX_LAYER_LENGTH
    (map paragraphs (TxtAdapter.out st') ++ [TxtAdapter.currentChunk st']).
Proof.
  intros (Hsize & Hempty & Hcut). unfold TxtAdapter.chunkStep.
  destruct (_ && _) eqn:Hc; cbn [TxtAdapter.out TxtAdapter.currentChunk
    TxtAdapter.currentChunkSize TxtAdapter.nextStart].
  - apply andb_true_iff in Hc. destruct Hc as [Hover Hne].
    apply nonempty_test in Hne. rewrite Z.gtb_ltb in Hover. apply Z.ltb_lt in Hover.
    split; [simpl; lia|]. split; [discriminate|].
    rewrite map_app. simpl map. simpl app at 2.
    apply cutChain_cut; [rewrite <- Hsize; exact Hover|exact (Hcut Hne)].
  - split; [rewrite chars_app, Hsize; simpl; lia|].
    split; [now destruct (TxtAdapter.currentChunk st)|].
    destruct (TxtAdapter.currentChunk st) as [|p0 c0] eqn:Hchunk.
    + rewrite (Hempty eq_refl). exact I.
    + apply cutChain_extend; [discriminate|]. apply Hcut. discriminate.
Qed.

(** X12.  Forced cuts.  Between two consecutive layers of [chunkParagraphs] the
    cut was needed: the first paragraph of the later layer would have taken
    the earlier one over 15000 characters. *)
Theorem chunkParagraphs_forced_cuts (P : list string) :
  forcedCuts 15000 (TxtAdapter.chunkParagraphs P).
Proof.
  apply cutChain_forced.
  unfold TxtAdapter.chunkParagraphs, TxtAdapter.chunkFinish.
  destruct P as [|p P]; [exact I|].
  simpl fold_left.
  pose proof (txt_chunkStep_cuts (TxtAdapter.mkLoop [] [] 0 0) p) as H0.
  cbv zeta in H0.
  assert (Hloop : forall ps st,
    (TxtAdapter.currentChunkSize st = chars (TxtAdapter.currentChunk st) /\
     TxtAdapter.currentChunk st <> [] /\
     cutChain TxtAdapter.MAX_LAYER_LENGTH
       (map paragraphs (TxtAdapter.out st) ++ [TxtAdapter.currentChunk st])) ->
    let st' := fold_left TxtAdapter.chunkStep ps st in
    TxtAdapter.currentChunk st' <> [] /\
    cutChain TxtAdapter.MAX_LAYER_LENGTH
      (map paragraphs (TxtAdapter.out st') ++ [TxtAdapter.currentChunk st'])).
  { induction ps as [|x ps IH]; intros st (Hs & Hne & Hc); cbv zeta.
    - now split.
    - simpl fold_left. apply IH. apply txt_chunkStep_cuts.
      split; [exact Hs|]. split; [intros He; contradiction|]. intros _. exact Hc. }
  destruct (Hloop P _ (H0 (conj eq_refl (conj (fun _ => eq_refl)
                                           (fun H => False_ind _ (H eq_refl))))))
    as [Hne Hcut].
  apply nonempty_test in Hne. rewrite Hne.
  rewrite map_app. simpl map. exact Hcut.
Qed.

(** ** The chunkers cut at the same places *)

Lemma fold_left_simulation {A B C : Type} (f : A -> C -> A) (g : B -> C -> B)
    (R : A -> B -> Prop) :
  (forall a b x, R a b -> R (f a x) (g b x)) ->
  forall l a b, R a b -> R (fold_left f l a) (fold_left g l b).
Proof.
  intros Hstep l. induction l as [|x l IH]; intros a b H; [exact H|].
  simpl. apply IH, Hstep, H.
Qed.

Lemma sameCuts_step (layers : list ContentLayer) (img : option string)
    (t : TxtAdapter.ChunkLoop) (e : EpubAdapter.ChunkLoop) (para : string) :
  sameCuts layers t e ->
  sameCuts layers (TxtAdapter.chunkStep t para) (EpubAdapter.chunkStep img e para) /\
  sameCuts layers (TxtAdapter.chunkStep t para)
           (EpubAdapterLegacy.chunkStep img e para).
Proof.
  intros ((added & Hout & Hmap) & Hchunk & Hsize).
  unfold TxtAdapter.chunkStep, EpubAdapter.chunkStep, EpubAdapterLegacy.chunkStep.
  rewrite Hchunk, Hsize.
  destruct (_ && _); unfold sameCuts;
    cbn [TxtAdapter.out TxtAdapter.currentChunk TxtAdapter.currentChunkSize
         EpubAdapter.out EpubAdapter.currentChunk EpubAdapter.currentChunkSize].
  - split; (split; [|split; reflexivity]);
      [exists (added ++ [EpubAdapter.chunkLayer img e])
      |exists (added ++ [EpubAdapterLegacy.chunkLayer img e])];
      (split; [now rewrite Hout, app_assoc|]);
      rewrite !map_app, Hmap; simpl; now rewrite Hchunk.
  - rewrite Hchunk, Hsize.
    split; (split; [now exists added|split; reflexivity]).
Qed.

(** Within the limit, [chunkParagraphs] does not cut. *)
Lemma txt_loop_no_cut (ps : list string) : forall st : TxtAdapter.ChunkLoop,
  TxtAdapter.currentChunkSize st = chars (TxtAdapter.currentChunk st) ->
  chars (TxtAdapter.currentChunk st) + chars ps <= TxtAdapter.MAX_LAYER_LENGTH ->
  fold_left TxtAdapter.chunkStep ps st
  = TxtAdapter.mkLoop (TxtAdapter.out st) (TxtAdapter.currentChunk st ++ ps)
      (TxtAdapter.currentChunkSize st + chars ps) (TxtAdapter.nextStart st).
Proof.
  induction ps as [|p ps IH]; intros st Hs Hle.
  - simpl. rewrite app_nil_r, Z.add_0_r. now destruct st.
  - simpl fold_left. simpl chars in Hle.
    pose proof (chars_nonneg ps). pose proof (length_nonneg p).
    assert (Hstep : TxtAdapter.chunkStep st p
                    = TxtAdapter.mkLoop (TxtAdapter.out st)
                        (TxtAdapter.currentChunk st ++ [p])
                        (TxtAdapter.currentChunkSize st + JS.length p)
                        (TxtAdapter.nextStart st)).
    { unfold TxtAdapter.chunkStep.
      destruct (Z.gtb_spec (TxtAdapter.currentChunkSize st + JS.length p)
                  TxtAdapter.MAX_LAYER_LENGTH); [lia|reflexivity]. }
    rewrite Hstep, IH; cbn [TxtAdapter.out TxtAdapter.currentChunk
      TxtAdapter.currentChunkSize TxtAdapter.nextStart].
    + rewrite <- app_assoc. simpl. f_equal. lia.
    + rewrite chars_app. simpl. lia.
    + rewrite chars_app. simpl. lia.
Qed.

Lemma txt_chunkParagraphs_fast (P : list string) :
  P <> [] -> chars P <= TxtAdapter.MAX_LAYER_LENGTH ->
  TxtAdapter.chunkParagraphs P = [mkLayer P 0 None].
Proof.
  intros HP Hle. unfold TxtAdapter.chunkParagraphs.
  rewrite txt_loop_no_cut by (simpl; auto).
  unfold TxtAdapter.chunkFinish. simpl.
  now rewrite (proj2 (nonempty_test P) HP).
Qed.

(** Both revisions of the EPUB chunker cut where [chunkParagraphs] cuts. *)
Lemma epub_cuts_as_txt (layers : list ContentLayer) (P : list string)
    (start : Z) (img : option string) :
  P <> [] ->
  (exists added,
     fst (EpubAdapter.addParagraphsWithChunking layers P start img)
     = layers ++ added /\
     map paragraphs added = map paragraphs (TxtAdapter.chunkParagraphs P)) /\
  (exists added,
     fst (EpubAdapterLegacy.addParagraphsWithChunking layers P start img)
     = layers ++ added /\
     map paragraphs added = map paragraphs (TxtAdapter.chunkParagraphs P)).
Proof.
  intros HP.
  unfold EpubAdapter.addParagraphsWithChunking,
    EpubAdapterLegacy.addParagraphsWithChunking.
  rewrite reduce_chars.
  change EpubAdapterLegacy.MAX_LAYER_LENGTH with EpubAdapter.MAX_LAYER_LENGTH.
  destruct (Z.leb_spec (0 + chars P) EpubAdapter.MAX_LAYER_LENGTH) as [Hfast|Hslow].
  - rewrite txt_chunkParagraphs_fast by (auto; exact Hfast).
    split; now exists [mkLayer P start img].
  - assert (Hinit : sameCuts layers (TxtAdapter.mkLoop [] [] 0 0)
                      (EpubAdapter.mkLoop layers [] 0 start true)).
    { split; [exists []; now rewrite app_nil_r|now split]. }
    pose proof (fold_left_simulation TxtAdapter.chunkStep (EpubAdapter.chunkStep img)
      (sameCuts layers)
      (fun a b x H => proj1 (sameCuts_step layers img a b x H)) P _ _ Hinit) as Hcur.
    pose proof (fold_left_simulation TxtAdapter.chunkStep
      (EpubAdapterLegacy.chunkStep img) (sameCuts layers)
      (fun a b x H => proj2 (sameCuts_step layers img a b x H)) P _ _ Hinit) as Hleg.
    unfold TxtAdapter.chunkParagraphs, TxtAdapter.chunkFinish.
    destruct Hcur as ((a1 & Ho1 & Hm1) & Hc1 & _).
    destruct Hleg as ((a2 & Ho2 & Hm2) & Hc2 & _).
    rewrite Hc1, Hc2.
    destruct (0 <? _); simpl fst.
    + split;
        [exists (a1 ++ [EpubAdapter.chunkLayer img
                         (fold_left (EpubAdapter.chunkStep img) P
                            (EpubAdapter.mkLoop layers [] 0 start true))])
        |exists (a2 ++ [EpubAdapterLegacy.chunkLayer img
                         (fold_left (EpubAdapterLegacy.chunkStep img) P
                            (EpubAdapter.mkLoop layers [] 0 start true))])];
        (split; [rewrite ?Ho1, ?Ho2; now rewrite app_assoc|]);
        rewrite !map_app, ?Hm1, ?Hm2; simpl; now rewrite ?Hc1, ?Hc2.
    + split; [now exists a1|now exists a2].
Qed.

(** X13.  The chunkers agree.  On a non-empty paragraph sequence the layers one
    call of [EpubAdapter.addParagraphsWithChunking] adds hold the same
    chunks of paragraphs, in the same order, as the layers of
    [TxtAdapter.chunkParagraphs]: the layers array, the start index and the
    image have no influence on where the sequence is cut. *)
Theorem chunkers_agree (layers : list ContentLayer) (P : list string)
    (start : Z) (img : option string) :
  P <> [] ->
  exists added,
    fst (EpubAdapter.addParagraphsWithChunking layers P start img)
    = layers ++ added /\
    map paragraphs added = map paragraphs (TxtAdapter.chunkParagraphs P).
Proof.
  intros HP. exact (proj1 (epub_cuts_as_txt layers P start img HP)).
Qed.

Lemma chunkers_agree_witness :
  ["a"; "b"] <> [] /\
  exists added,
    fst (EpubAdapter.addParagraphsWithChunking [] ["a"; "b"] 7 (Some "blob:x"))
    = [] ++ added /\
    map paragraphs added = map paragraphs (TxtAdapter.chunkParagraphs ["a"; "b"]).
Proof.
  assert (H : ["a"; "b"] <> []) by discriminate.
  split; [exact H|].
  exact (chunkers_agree [] ["a"; "b"] 7 (Some "blob:x") H).
Defined.

(** ** The chunker of the earlier revision *)

Lemma sizeBounded_same_paragraphs (limit : Z) (xs ys : list ContentLayer) :
  map paragraphs xs = map paragraphs ys ->
  Forall (sizeBounded limit) ys -> Forall (sizeBounded limit) xs.
Proof.
  revert ys. induction xs as [|x xs IH]; intros [|y ys] Hmap Hys;
    try discriminate; [constructor|].
  simpl in Hmap. injection Hmap as Hp Hmap.
  inversion Hys as [|? ? Hy Hys']; subst. constructor; [|now apply (IH ys)].
  unfold sizeBounded in *. now rewrite Hp.
Qed.

(** The counter of the earlier revision counts the paragraphs of the
    layers added so far. *)
Lemma legacy_chunkStep_count (layers : list ContentLayer) (start : Z)
    (img : option string) (st : EpubAdapter.ChunkLoop) (para : string) :
  (exists added, EpubAdapter.out st = layers ++ added /\
     EpubAdapter.currentStartIndex st
     = start + Z.of_nat (List.length (allParagraphs added))) ->
  let st' := EpubAdapterLegacy.chunkStep img st para in
  exists added, EpubAdapter.out st' = layers ++ added /\
    EpubAdapter.currentStartIndex st'
    = start + Z.of_nat (List.length (allParagraphs added)).
Proof.
  intros (added & Hout & Hidx). unfold EpubAdapterLegacy.chunkStep.
  destruct (_ && _); cbn [EpubAdapter.out EpubAdapter.currentStartIndex];
    [|now exists added].
  exists (added ++ [EpubAdapterLegacy.chunkLayer img st]). split.
  - now rewrite Hout, app_assoc.
  - rewrite allParagraphs_app, allParagraphs_one, length_app, Hidx. simpl. lia.
Qed.

(** X14.  The chunker of the earlier revision keeps the paragraphs and the size
    bound, and counts paragraphs only: the layers one call adds hold the
    input paragraphs in order, each layer of two or more paragraphs has at
    most 15000 characters and a larger layer is one over-long paragraph, and
    the counter that comes back is the start plus the number of paragraphs,
    image or not. *)
Theorem legacy_chunking (layers : list ContentLayer) (P : list string)
    (start : Z) (img : option string) :
  exists added,
    fst (EpubAdapterLegacy.addParagraphsWithChunking layers P start img)
    = layers ++ added /\
    allParagraphs added = P /\
    Forall (sizeBounded 15000) added /\
    snd (EpubAdapterLegacy.addParagraphsWithChunking layers P start img)
    = start + Z.of_nat (List.length P).
Proof.
  destruct P as [|p P'].
  - exists [mkLayer [] start img]. repeat split; try reflexivity.
    constructor; [|constructor]. split; simpl; [lia|].
    unfold chars. simpl. lia.
  - set (P := p :: P') in *.
    destruct (proj2 (epub_cuts_as_txt layers P start img ltac:(discriminate)))
      as (added & Hfst & Hmap).
    destruct (txt_chunkParagraphs_spec P) as (Hround & _ & Hb & _).
    assert (Hall : allParagraphs added = P).
    { unfold allParagraphs in *. now rewrite Hmap. }
    exists added. split; [exact Hfst|]. split; [exact Hall|].
    split; [exact (sizeBounded_same_paragraphs _ _ _ Hmap Hb)|].
    revert Hfst. unfold EpubAdapterLegacy.addParagraphsWithChunking.
    destruct (_ <=? _).
    + simpl. intros _. reflexivity.
    + cbv zeta.
      pose proof (fold_left_invariant (EpubAdapterLegacy.chunkStep img)
        (fun _ st => exists added, EpubAdapter.out st = layers ++ added /\
           EpubAdapter.currentStartIndex st
           = start + Z.of_nat (List.length (allParagraphs added)))
        (fun done a x H => legacy_chunkStep_count layers start img a x H)
        P [] (EpubAdapter.mkLoop layers [] 0 start true)) as H.
      destruct H as (added0 & Hout & Hidx).
      { exists []. split; [now rewrite app_nil_r|simpl; lia]. }
      simpl app in *. set (st := fold_left _ P _) in *.
      destruct (0 <? _) eqn:Hc; cbn [fst snd]; intros Hfst;
        change (fold_left (EpubAdapterLegacy.chunkStep img) P' _) with st in Hfst.
      * rewrite Hout, <- app_assoc in Hfst. apply app_inv_head in Hfst.
        rewrite <- Hall, <- Hfst, allParagraphs_app, allParagraphs_one, length_app.
        rewrite Hidx. simpl. lia.
      * rewrite Hout in Hfst. apply app_inv_head in Hfst. subst added0.
        now rewrite Hidx, Hall.
Qed.

(* ================================================================== *)
(** * Further properties of the EPUB adapter *)

(** ** The layers hold the content of the document *)










(** ** Which elements of the document the layers hold *)








(** *** No layer is empty *)












(** An image inside a paragraph is on no layer, though it can be fetched:
    the walk takes the text of the paragraph and does not look inside. *)
Example image_inside_paragraph :
  EpubAdapter.parseHTML Examples.container1 Examples.sec1 (Some Examples.body3)
  = [mkLayer ["see"; "two"] 0 None] /\
  fetchedImages Examples.container1 Examples.sec1 Examples.body3 = ["blob:a"] /\
  imagesStandAlone Examples.body3 = false.
Proof. repeat split; reflexivity. Qed.

(* ================================================================== *)
(** * Further properties of the plain-text adapter *)

Example parse_sample :
  map title (chapters (TxtAdapter.parse (mkBuffer Examples.text2 Examples.container1)
                         "novel.txt"))
  = ["第一章 起"; "第二章 承"] /\
  book_title (TxtAdapter.parse (mkBuffer Examples.text2 Examples.container1) "novel.TXT")
  = "novel".
Proof. vm_compute. split; reflexivity. Qed.

(** ** Splitting a text into chapters *)

Lemma falsy_empty (s : string) : JS.truthy s = false -> s = "".
Proof. now destruct s. Qed.

(** The loop of [splitChapters] against the blocks of the trimmed lines. *)
Lemma splitChapters_loop (L : list string) : forall st : TxtAdapter.SplitLoop,
  TxtAdapter.pushCurrent (fold_left TxtAdapter.splitStep L st)
  = TxtAdapter.found st
    ++ match TxtAdapter.currentChapter st with
       | Some c =>
           c :: skeletonsFrom (TxtAdapter.chapterIndex st)
                  (map fst (snd (blocks (map JS.trim L))))
       | None =>
           if existsb JS.truthy (fst (blocks (map JS.trim L)))
           then TxtAdapter.skeleton (TxtAdapter.chapterIndex st) "正文"
                :: skeletonsFrom (TxtAdapter.chapterIndex st + 1)
                     (map fst (snd (blocks (map JS.trim L))))
           else skeletonsFrom (TxtAdapter.chapterIndex st)
                  (map fst (snd (blocks (map JS.trim L))))
       end.
Proof.
  induction L as [|l L IH]; intros [fnd cur idx].
  - simpl. unfold TxtAdapter.pushCurrent. simpl.
    destruct cur; [reflexivity|now rewrite app_nil_r].
  - simpl fold_left. rewrite IH. clear IH. simpl map. simpl blocks.
    destruct (blocks (map JS.trim L)) as [pre bs].
    unfold TxtAdapter.splitStep. cbv zeta.
    cbn [TxtAdapter.found TxtAdapter.currentChapter TxtAdapter.chapterIndex].
    destruct (JS.truthy (JS.trim l)) eqn:Hblank; simpl negb; cbv iota.
    + destruct (TxtAdapter.CHAPTER_REGEX (JS.trim l)) eqn:Hh;
        cbn [TxtAdapter.found TxtAdapter.currentChapter TxtAdapter.chapterIndex
             fst snd map skeletonsFrom existsb].
      * unfold TxtAdapter.pushCurrent. simpl.
        destruct cur; [now rewrite <- app_assoc|reflexivity].
      * rewrite Hblank. simpl orb. destruct cur; reflexivity.
    + apply falsy_empty in Hblank. rewrite Hblank.
      change (TxtAdapter.CHAPTER_REGEX "") with false. cbv iota.
      cbn [fst snd existsb JS.truthy orb]. reflexivity.
Qed.

(** ** Loading a chapter of a container *)




(** The chapters of [splitChapters] are the skeletons of the sections of
    the text, numbered from 0. *)
Lemma splitChapters_sections (text : string) :
  TxtAdapter.splitChapters text
  = skeletonsFrom 0 (map fst (sections (trimmedLines text))).
Proof.
  unfold TxtAdapter.splitChapters, sections, trimmedLines. cbv zeta.
  rewrite splitChapters_loop. simpl TxtAdapter.found.
  simpl TxtAdapter.currentChapter. simpl TxtAdapter.chapterIndex. simpl app.
  destruct (blocks _) as [pre bs]. cbn [fst snd].
  assert (Hfst : map fst (map (fun hb : string * list string =>
                                 (fst hb, filter JS.truthy (snd hb))) bs)
                 = map fst bs)
    by (rewrite map_map; reflexivity).
  destruct (existsb JS.truthy pre).
  - simpl app. cbn [map fst skeletonsFrom]. rewrite Hfst. reflexivity.
  - simpl app. destruct bs as [|[h B] bs]; [reflexivity|].
    simpl in Hfst. injection Hfst as Hfst.
    cbn [map fst snd skeletonsFrom]. rewrite Hfst. reflexivity.
Qed.

Lemma skeletonsFrom_nth (ts : list string) : forall (index : Z) (i : nat),
  nth_error (skeletonsFrom index ts) i
  = option_map (TxtAdapter.skeleton (index + Z.of_nat i)) (nth_error ts i).
Proof.
  induction ts as [|t ts IH]; intros index [|i]; simpl nth_error; try reflexivity.
  - simpl. now rewrite Z.add_0_r.
  - rewrite IH. replace (index + 1 + Z.of_nat i) with (index + Z.of_nat (S i)) by lia.
    reflexivity.
Qed.

Lemma skeletonsFrom_titles (ts : list string) : forall index,
  map title (skeletonsFrom index ts) = ts.
Proof. induction ts as [|t ts IH]; intros index; simpl; now rewrite ?IH. Qed.

Lemma sections_nonempty (lines : list string) : sections lines <> [].
Proof.
  unfold sections. destruct (blocks lines) as [pre bs].
  destruct (_ ++ _); discriminate.
Qed.

(** X16.  Chapters of a parsed text.  [splitChapters] never returns an empty
    list; the chapter at position [i] has id [i], no layers, is not loaded
    and has no href; and the titles are, in order: the default title when
    text comes before the first heading, then every heading line -- or the
    one title for the whole text when the text has no line at all. *)
Theorem splitChapters_chapters (text : string) :
  TxtAdapter.splitChapters text <> [] /\
  map title (TxtAdapter.splitChapters text) = map fst (sections (trimmedLines text)) /\
  forall (i : nat) (c : UnifiedChapter),
    nth_error (TxtAdapter.splitChapters text) i = Some c ->
    id c = Z.of_nat i /\ layers c = [] /\ isLoaded c = false /\ href c = None.
Proof.
  rewrite splitChapters_sections. split; [|split].
  - pose proof (sections_nonempty (trimmedLines text)) as H.
    destruct (sections (trimmedLines text)); [congruence|discriminate].
  - apply skeletonsFrom_titles.
  - intros i c. rewrite skeletonsFrom_nth.
    destruct (nth_error _ i); [|discriminate]. intros [= <-]. simpl. now repeat split.
Qed.

(** ** Finding the bounds of a chapter *)

Lemma findFrom_none {A : Type} (p : A -> bool) (l : list A) : forall from,
  (forall x, In x l -> p x = false) -> TxtAdapter.findFrom p from l = None.
Proof.
  induction l as [|x l IH]; intros from H; [reflexivity|].
  simpl. destruct from as [|k].
  - rewrite (H x (or_introl eq_refl)), IH; [reflexivity|]. intros y Hy. apply H. now right.
  - rewrite IH; [reflexivity|]. intros y Hy. apply H. now right.
Qed.

Lemma findFrom_hit {A : Type} (p : A -> bool) (t : A) (R : list A) :
  forall B : list A,
  (forall x, In x B -> p x = false) -> p t = true ->
  TxtAdapter.findFrom p 0 (B ++ t :: R) = Some (List.length B).
Proof.
  induction B as [|x B IH]; intros HB Ht; simpl.
  - now rewrite Ht.
  - rewrite (HB x (or_introl eq_refl)), IH; [reflexivity| |exact Ht].
    intros y Hy. apply HB. now right.
Qed.

Lemma findFrom_skip {A : Type} (p : A -> bool) (R : list A) :
  forall (S0 : list A),
  TxtAdapter.findFrom p (List.length S0) (S0 ++ R)
  = option_map (Nat.add (List.length S0)) (TxtAdapter.findFrom p 0 R).
Proof.
  induction S0 as [|x S0 IH].
  - simpl. now destruct (TxtAdapter.findFrom p 0 R).
  - simpl. rewrite IH. now destruct (TxtAdapter.findFrom p 0 R).
Qed.

Lemma findFrom_map {A B : Type} (f : A -> B) (p : B -> bool) (l : list A) :
  forall from,
  TxtAdapter.findFrom (fun x => p (f x)) from l = TxtAdapter.findFrom p from (map f l).
Proof.
  induction l as [|x l IH]; intros from; [reflexivity|].
  simpl. destruct from; now rewrite IH.
Qed.

(** The paragraphs collected between two bounds, on the trimmed lines. *)
Lemma collectParagraphs_trimmed (L : list string) (a b : nat) :
  TxtAdapter.collectParagraphs L a b
  = filter (fun line => negb (TxtAdapter.CHAPTER_REGEX line) && JS.truthy line)
           (firstn (b - a) (skipn a (map JS.trim L))).
Proof.
  unfold TxtAdapter.collectParagraphs. now rewrite skipn_map, firstn_map.
Qed.

Lemma filter_body (B : list string) :
  Forall (fun l => TxtAdapter.CHAPTER_REGEX l = false) B ->
  filter (fun line => negb (TxtAdapter.CHAPTER_REGEX line) && JS.truthy line) B
  = filter JS.truthy B.
Proof.
  induction 1 as [|l B Hl _ IH]; [reflexivity|]. simpl. now rewrite Hl, IH.
Qed.

(** ** Loading the chapters of a parsed text *)

(** The blocks of a list of lines give the lines back, and cut them at
    the headings. *)
Lemma blocks_spec (T : list string) :
  T = fst (blocks T) ++ flatBlocks (snd (blocks T)) /\
  headingFree (fst (blocks T)) /\
  Forall (fun hb => TxtAdapter.CHAPTER_REGEX (fst hb) = true /\ headingFree (snd hb))
         (snd (blocks T)).
Proof.
  induction T as [|l T (Hflat & Hpre & Hbs)]; simpl.
  - repeat split; constructor.
  - destruct (blocks T) as [pre bs]. simpl in *.
    destruct (TxtAdapter.CHAPTER_REGEX l) eqn:Hl; simpl.
    + repeat split; [now rewrite Hflat at 1|constructor|].
      constructor; [now split|exact Hbs].
    + repeat split; [now rewrite Hflat at 1| |exact Hbs]. now constructor.
Qed.

(** The body of a chapter.  The trimmed lines are [A ++ B ++ R]: [A] ends
    with the first line equal to the title (or is empty when no line is),
    [B] has no heading, and [R] is empty for the last chapter or starts
    with the heading that is the title of the next.  Then the lines between
    the bounds are [B], and the paragraphs are its non-blank lines. *)
Lemma chapter_body (L : list string) (t : string) (k : Z)
    (chs : list UnifiedChapter) (A B R : list string) :
  map JS.trim L = A ++ B ++ R ->
  ((exists A0, A = A0 ++ [t] /\ forall x, In x A0 -> x <> t) \/
   (A = [] /\ forall x, In x (B ++ R) -> x <> t)) ->
  headingFree B ->
  ((R = [] /\ Z.of_nat (List.length chs) - 1 <= k) \/
   (exists t' R' c', R = t' :: R' /\ TxtAdapter.CHAPTER_REGEX t' = true /\
      k < Z.of_nat (List.length chs) - 1 /\
      at_index chs (k + 1) = Some c' /\ title c' = t')) ->
  TxtAdapter.collectParagraphs L
    (fst (TxtAdapter.findChapterBounds L t k chs))
    (snd (TxtAdapter.findChapterBounds L t k chs))
  = filter JS.truthy B.
Proof.
  intros HT Hstart HB Hend.
  assert (Hneq : forall (u : string) (X : list string),
    (forall x, In x X -> x <> u) -> forall x, In x X -> String.eqb x u = false).
  { intros u X H x Hx. apply String.eqb_neq. now apply H. }
  assert (Hs : match TxtAdapter.findFrom (fun l => String.eqb (JS.trim l) t) 0 L with
               | Some i => S i
               | None => O
               end = List.length A).
  { rewrite (findFrom_map JS.trim (fun x => String.eqb x t)), HT.
    destruct Hstart as [(A0 & -> & HA0)|[-> Hall]].
    - rewrite <- !app_assoc. simpl.
      rewrite (findFrom_hit _ t (B ++ R) A0 (Hneq t A0 HA0) (String.eqb_refl t)).
      rewrite length_app. simpl. lia.
    - simpl. now rewrite (findFrom_none _ (B ++ R) 0 (Hneq t _ Hall)). }
  assert (Hlen : List.length L = (List.length A + List.length B + List.length R)%nat).
  { rewrite <- (length_map JS.trim L), HT, !length_app. lia. }
  unfold TxtAdapter.findChapterBounds. cbv zeta. cbn [fst snd]. rewrite Hs.
  assert (He : (if k <? Z.of_nat (List.length chs) - 1
                then match at_index chs (k + 1) with
                     | Some next =>
                         match TxtAdapter.findFrom
                                 (fun l => String.eqb (JS.trim l) (title next))
                                 (List.length A) L with
                         | Some i => i
                         | None => List.length L
                         end
                     | None => List.length L
                     end
                else List.length L) = (List.length A + List.length B)%nat).
  { destruct Hend as [[-> Hlast]|(t' & R' & c' & -> & Ht' & Hk & Hat & Htitle)].
    - destruct (Z.ltb_spec k (Z.of_nat (List.length chs) - 1)); [lia|].
      rewrite Hlen. simpl. lia.
    - destruct (Z.ltb_spec k (Z.of_nat (List.length chs) - 1)); [|lia].
      rewrite Hat, Htitle.
      rewrite (findFrom_map JS.trim (fun x => String.eqb x t')), HT, findFrom_skip.
      rewrite (findFrom_hit _ t' R' B); [reflexivity| |apply String.eqb_refl].
      intros x Hx. apply String.eqb_neq. intros ->.
      pose proof (proj1 (Forall_forall _ _) HB t' Hx) as Hno. simpl in Hno. congruence. }
  rewrite He, collectParagraphs_trimmed, HT.
  replace (List.length A + List.length B - List.length A)%nat with (List.length B) by lia.
  rewrite skipn_app, skipn_all, Nat.sub_diag. simpl.
  rewrite firstn_app, firstn_all, Nat.sub_diag. simpl. rewrite app_nil_r.
  apply filter_body, HB.
Qed.

Lemma at_index_nat {A : Type} (l : list A) (n : nat) :
  at_index l (Z.of_nat n) = nth_error l n.
Proof.
  unfold at_index. destruct (Z.ltb_spec (Z.of_nat n) 0); [lia|].
  now rewrite Nat2Z.id.
Qed.

Lemma nth_error_title (chs : list UnifiedChapter) (n : nat) (t : string) :
  nth_error (map title chs) n = Some t ->
  exists c, nth_error chs n = Some c /\ title c = t.
Proof.
  rewrite nth_error_map. destruct (nth_error chs n) as [c|]; [|discriminate].
  intros [= <-]. now exists c.
Qed.

(** What follows the lines of a chapter: nothing, for the last chapter, or
    the heading that is the title of the next. *)
Lemma next_chapter (chs : list UnifiedChapter) (before : list string)
    (t : string) (bs2 : list (string * list string)) :
  map title chs = before ++ t :: map fst bs2 ->
  Forall (fun hb => TxtAdapter.CHAPTER_REGEX (fst hb) = true /\ headingFree (snd hb))
         bs2 ->
  let k := Z.of_nat (List.length before) in
  (flatBlocks bs2 = [] /\ Z.of_nat (List.length chs) - 1 <= k) \/
  (exists t' R' c', flatBlocks bs2 = t' :: R' /\ TxtAdapter.CHAPTER_REGEX t' = true /\
     k < Z.of_nat (List.length chs) - 1 /\
     at_index chs (k + 1) = Some c' /\ title c' = t').
Proof.
  intros Htitles Hbs2. cbv zeta.
  assert (Hlen : List.length chs
                 = (List.length before + 1 + List.length bs2)%nat).
  { rewrite <- (length_map title chs), Htitles, length_app. simpl.
    rewrite length_map. lia. }
  destruct bs2 as [|[h' B'] bs2'].
  - left. split; [reflexivity|]. simpl in Hlen. lia.
  - right. inversion Hbs2 as [|? ? [Hh' _] _]; subst. simpl in Hh'.
    destruct (nth_error_title chs (S (List.length before)) h') as (c' & Hc' & Ht').
    { rewrite Htitles, nth_error_app2 by lia.
      replace (S (List.length before) - List.length before)%nat with 1%nat by lia.
      reflexivity. }
    exists h', (B' ++ flatBlocks bs2'), c'. repeat split; auto.
    + simpl in Hlen. lia.
    + replace (Z.of_nat (List.length before) + 1)
        with (Z.of_nat (S (List.length before))) by lia.
      now rewrite at_index_nat.
Qed.

(** The chapter of a heading: with distinct heading lines, the lines
    between its bounds are the lines of its block. *)
Lemma heading_chapter_body (L : list string) (pre : list string)
    (bs1 bs2 : list (string * list string)) (h : string) (Bj : list string)
    (titles0 : list string) (chs : list UnifiedChapter) :
  map JS.trim L = pre ++ flatBlocks (bs1 ++ (h, Bj) :: bs2) ->
  headingFree pre ->
  Forall (fun hb => TxtAdapter.CHAPTER_REGEX (fst hb) = true /\ headingFree (snd hb))
         (bs1 ++ (h, Bj) :: bs2) ->
  NoDup (map fst (bs1 ++ (h, Bj) :: bs2)) ->
  map title chs = titles0 ++ map fst (bs1 ++ (h, Bj) :: bs2) ->
  let k := Z.of_nat (List.length titles0 + List.length bs1) in
  TxtAdapter.collectParagraphs L
    (fst (TxtAdapter.findChapterBounds L h k chs))
    (snd (TxtAdapter.findChapterBounds L h k chs))
  = filter JS.truthy Bj.
Proof.
  intros HT Hpre Hbs Hnd Htitles. cbv zeta.
  apply Forall_app in Hbs. destruct Hbs as [Hbs1 Hbs2].
  inversion Hbs2 as [|? ? [Hh HBj] Hbs2']; subst. simpl in Hh, HBj.
  apply (chapter_body L h _ chs ((pre ++ flatBlocks bs1) ++ [h]) Bj (flatBlocks bs2)).
  - rewrite HT. unfold flatBlocks. rewrite flat_map_app. simpl.
    now rewrite <- !app_assoc.
  - left. exists (pre ++ flatBlocks bs1). split; [reflexivity|].
    intros x Hx ->. apply in_app_or in Hx. destruct Hx as [Hx|Hx].
    + pose proof (proj1 (Forall_forall _ _) Hpre h Hx) as Hno. simpl in Hno. congruence.
    + unfold flatBlocks in Hx. apply in_flat_map in Hx.
      destruct Hx as ([h0 B0] & Hin & [Heq|Hx]); simpl in *.
      * subst h0. rewrite map_app in Hnd. simpl in Hnd.
        apply NoDup_remove_2 in Hnd. apply Hnd, in_or_app. left.
        now apply (in_map fst) in Hin.
      * destruct (proj1 (Forall_forall _ _) Hbs1 _ Hin) as [_ HB0]. simpl in HB0.
        pose proof (proj1 (Forall_forall _ _) HB0 h Hx) as Hno. simpl in Hno. congruence.
  - exact HBj.
  - rewrite map_app in Htitles. simpl in Htitles.
    rewrite app_assoc in Htitles.
    pose proof (next_chapter chs (titles0 ++ map fst bs1) h bs2 Htitles Hbs2') as Hn.
    cbv zeta in Hn. rewrite length_app, length_map in Hn. exact Hn.
Qed.

Lemma sections_body_nth (bs : list (string * list string)) (j : nat)
    (t : string) (b : list string) :
  nth_error (map (fun hb : string * list string =>
                    (fst hb, filter JS.truthy (snd hb))) bs) j = Some (t, b) ->
  exists bs1 Bj bs2,
    bs = bs1 ++ (t, Bj) :: bs2 /\ List.length bs1 = j /\ b = filter JS.truthy Bj.
Proof.
  rewrite nth_error_map. destruct (nth_error bs j) as [[h Bj]|] eqn:Hj; [|discriminate].
  simpl. intros [= <- <-].
  destruct (nth_error_split bs j Hj) as (bs1 & bs2 & -> & Hlen).
  now exists bs1, Bj, bs2.
Qed.

Lemma no_text_filter (pre : list string) :
  existsb JS.truthy pre = false ->
  filter JS.truthy pre = [] /\ forall x, In x pre -> x = "".
Proof.
  induction pre as [|l pre IH]; simpl; [now split|].
  destruct (JS.truthy l) eqn:Hl; [discriminate|]. simpl. intros H.
  destruct (IH H) as [Hf Hall]. split; [exact Hf|].
  intros x [<-|Hx]; [now apply falsy_empty|now apply Hall].
Qed.

(** X17.  Parse, then load.  When no heading line occurs twice in the text, and
    -- if there is text before the first heading -- no line is the default
    title, every chapter of the parsed book loads as the chunking of the
    body of its own section: the non-blank lines after its heading up to
    the next heading, or the non-blank lines before the first heading for
    the default chapter. *)
Theorem parsed_chapters_load (arrayBuffer : ArrayBuffer) (filename : string) :
  let T := trimmedLines (decodeText arrayBuffer) in
  NoDup (map fst (snd (blocks T))) ->
  (existsb JS.truthy (fst (blocks T)) = true -> ~ In "正文" T) ->
  forall (k : nat) (t : string) (b : list string),
    nth_error (sections T) k = Some (t, b) ->
    TxtAdapter.loadChapter (TxtAdapter.parse arrayBuffer filename) (Z.of_nat k)
    = Ok (TxtAdapter.chunkParagraphs b).
Proof.
  cbv zeta. intros Hnd Hdefault k t b Hnth.
  set (text := decodeText arrayBuffer) in *.
  set (L := JS.split "010"%char text).
  set (chs := TxtAdapter.splitChapters text).
  assert (Htitles : map title chs = map fst (sections (trimmedLines text))).
  { unfold chs. rewrite splitChapters_sections. apply skeletonsFrom_titles. }
  assert (Hat : chapterAt (TxtAdapter.parse arrayBuffer filename) (Z.of_nat k)
                = Some (TxtAdapter.skeleton (Z.of_nat k) t)).
  { unfold chapterAt. simpl chapters. fold text. rewrite at_index_nat.
    rewrite splitChapters_sections, skeletonsFrom_nth, nth_error_map, Hnth.
    reflexivity. }
  unfold TxtAdapter.loadChapter. rewrite Hat. simpl isLoaded. simpl andb. cbv iota.
  simpl rawData. fold text. fold L. simpl chapters. fold text. fold chs.
  simpl title.
  assert (Hbody : TxtAdapter.collectParagraphs L
                    (fst (TxtAdapter.findChapterBounds L t (Z.of_nat k) chs))
                    (snd (TxtAdapter.findChapterBounds L t (Z.of_nat k) chs)) = b);
    [|destruct (TxtAdapter.findChapterBounds L t (Z.of_nat k) chs);
      simpl in Hbody; now rewrite Hbody].
  destruct (blocks_spec (trimmedLines text)) as (HT & Hpre & Hbs).
  unfold sections in Hnth, Htitles.
  destruct (blocks (trimmedLines text)) as [pre bs]. cbn [fst snd] in *.
  assert (Hfst : map fst (map (fun hb : string * list string =>
                                 (fst hb, filter JS.truthy (snd hb))) bs)
                 = map fst bs)
    by (rewrite map_map; reflexivity).
  destruct (existsb JS.truthy pre) eqn:Htext.
  - simpl app in Hnth, Htitles. cbn [map fst] in Htitles. rewrite Hfst in Htitles.
    destruct k as [|j].
    + simpl in Hnth. injection Hnth as <- <-.
      apply (chapter_body L "正文" _ chs [] pre (flatBlocks bs)); auto.
      * right. split; [reflexivity|]. intros x Hx ->.
        apply (Hdefault eq_refl). unfold trimmedLines in HT. fold L in HT.
        unfold trimmedLines. fold L. now rewrite HT.
      * exact (next_chapter chs [] "正文" bs Htitles Hbs).
    + simpl nth_error in Hnth.
      destruct (sections_body_nth bs j t b Hnth) as (bs1 & Bj & bs2 & -> & <- & ->).
      exact (heading_chapter_body L pre bs1 bs2 t Bj ["正文"] chs HT Hpre Hbs Hnd Htitles).
  - simpl app in Hnth, Htitles. destruct bs as [|hb bs'].
    + simpl in Hnth, Htitles. destruct k as [|k]; [|destruct k; discriminate].
      simpl in Hnth. injection Hnth as <- <-.
      destruct (no_text_filter pre Htext) as [Hnone Hblank].
      rewrite <- Hnone.
      apply (chapter_body L "全文" _ chs [] pre []).
      * simpl. rewrite app_nil_r. simpl in HT. now rewrite app_nil_r in HT.
      * right. split; [reflexivity|]. intros x Hx ->. rewrite app_nil_r in Hx.
        specialize (Hblank _ Hx). discriminate.
      * exact Hpre.
      * left. split; [reflexivity|].
        rewrite <- (length_map title chs), Htitles. simpl. lia.
    + set (bs := hb :: bs') in *.
      assert (Hsec : match map (fun hb : string * list string =>
                                  (fst hb, filter JS.truthy (snd hb))) bs with
                     | [] => [("全文", [])]
                     | ss => ss
                     end
                     = map (fun hb : string * list string =>
                              (fst hb, filter JS.truthy (snd hb))) bs)
        by reflexivity.
      rewrite Hsec in Hnth, Htitles. rewrite Hfst in Htitles.
      destruct (sections_body_nth bs k t b Hnth) as (bs1 & Bj & bs2 & Heq & <- & ->).
      rewrite Heq in *.
      exact (heading_chapter_body L pre bs1 bs2 t Bj [] chs HT Hpre Hbs Hnd Htitles).
Qed.

(** The sample text: its first chapter loads the two lines of its
    section. *)
Lemma parsed_chapters_load_witness :
  NoDup (map fst (snd (blocks (trimmedLines Examples.text2)))) /\
  TxtAdapter.loadChapter
    (TxtAdapter.parse (mkBuffer Examples.text2 Examples.container1) "novel.txt") 0
  = Ok (TxtAdapter.chunkParagraphs ["alpha"; "beta"]).
Proof.
  assert (H1 : NoDup (map fst (snd (blocks (trimmedLines Examples.text2))))).
  { vm_compute. repeat constructor; simpl; intuition discriminate. }
  split; [exact H1|].
  apply (parsed_chapters_load (mkBuffer Examples.text2 Examples.container1)
           "novel.txt" H1
           (fun H : existsb JS.truthy
                      (fst (blocks (trimmedLines Examples.text2))) = true =>
              False_ind _ (Bool.diff_false_true H))
           0%nat "第一章 起" ["alpha"; "beta"]).
  vm_compute. reflexivity.
Defined.

Lemma in_firstn {A : Type} (x : A) : forall (n : nat) (l : list A),
  In x (firstn n l) -> In x l.
Proof.
  induction n as [|n IH]; intros [|y l] H; simpl in *; try tauto.
  destruct H as [H|H]; [now left|right; now apply IH].
Qed.

Lemma in_skipn {A : Type} (x : A) : forall (n : nat) (l : list A),
  In x (skipn n l) -> In x l.
Proof.
  induction n as [|n IH]; intros [|y l] H; simpl in *; try tauto.
  right. now apply IH.
Qed.

(** X18.  What a chapter is made of.  For a chapter of the book that is not yet
    loaded, [loadChapter] returns layers, and every paragraph in them is a
    line of the text, trimmed, that is neither blank nor a heading --
    whatever the titles, also when the bounds of the chapter are found in
    the wrong place. *)
Theorem txt_load_paragraphs (book : UnifiedBook) (chapterId : Z) (c : UnifiedChapter) :
  chapterAt book chapterId = Some c ->
  isLoaded c && (0 <? Z.of_nat (List.length (layers c))) = false ->
  exists ls,
    TxtAdapter.loadChapter book chapterId = Ok ls /\
    forall p, In p (allParagraphs ls) ->
      In p (trimmedLines (decodeText (rawData book))) /\
      JS.truthy p = true /\
      TxtAdapter.CHAPTER_REGEX p = false.
Proof.
  intros Hc Hfresh. unfold TxtAdapter.loadChapter. rewrite Hc, Hfresh.
  destruct (TxtAdapter.findChapterBounds _ _ _ _) as [a b].
  eexists. split; [reflexivity|]. intros p Hp.
  rewrite (proj1 (txt_chunkParagraphs_spec _)) in Hp.
  rewrite collectParagraphs_trimmed in Hp. apply filter_In in Hp.
  destruct Hp as [Hin Hok]. apply andb_true_iff in Hok. destruct Hok as [Hh Ht].
  split; [|split; [exact Ht|now apply negb_true_iff in Hh]].
  unfold trimmedLines. now apply in_firstn, in_skipn in Hin.
Qed.

Lemma txt_load_paragraphs_witness :
  chapterAt Examples.bookTxt 1
  = Some (mkChapter 1 "第二章 承" [] false None) /\
  exists ls,
    TxtAdapter.loadChapter Examples.bookTxt 1 = Ok ls /\
    forall p, In p (allParagraphs ls) ->
      In p (trimmedLines (decodeText (rawData Examples.bookTxt))) /\
      JS.truthy p = true /\
      TxtAdapter.CHAPTER_REGEX p = false.
Proof.
  split; [reflexivity|].
  exact (txt_load_paragraphs Examples.bookTxt 1
           (mkChapter 1 "第二章 承" [] false None) eq_refl eq_refl).
Defined.

(* ================================================================== *)
(** * The book table *)

Lemma ascending_above (x : Z) (rest : list Z) :
  ascending (x :: rest) -> ascending rest /\ forall y, In y rest -> x < y.
Proof.
  revert x. induction rest as [|y rest IH]; intros x H.
  - split; [exact I|intros y []].
  - destruct H as [Hxy Hrest]. split; [exact Hrest|].
    intros z [<-|Hz]; [exact Hxy|].
    destruct (IH y Hrest) as [_ Habove]. specialize (Habove z Hz). lia.
Qed.

(** The loop from position [i], on ascending ids all above [i]: what it
    returns -- the id after the last one when it finds no gap -- is above
    [i], is not among the ids, and every id between [i] and it is. *)
Lemma firstGap_spec (ids : list Z) : forall i : Z,
  ascending ids ->
  (forall x, In x ids -> i + 1 <= x) ->
  let e := match Db.firstGap i ids with
           | Some expectedId => expectedId
           | None => i + Z.of_nat (List.length ids) + 1
           end in
  i + 1 <= e /\ ~ In e ids /\ forall j, i + 1 <= j < e -> In j ids.
Proof.
  induction ids as [|x rest IH]; intros i Hasc Hlow; cbv zeta.
  - simpl. repeat split; [lia|tauto|lia].
  - destruct (ascending_above x rest Hasc) as [Hrest Habove].
    pose proof (Hlow x (or_introl eq_refl)) as Hx.
    simpl Db.firstGap. destruct (Z.eqb_spec x (i + 1)) as [->|Hne]; simpl negb; cbv iota.
    + specialize (IH (i + 1) Hrest).
      assert (Hlow' : forall y, In y rest -> i + 1 + 1 <= y).
      { intros y Hy. specialize (Habove y Hy). lia. }
      specialize (IH Hlow'). cbv zeta in IH.
      replace (i + Z.of_nat (List.length (i + 1 :: rest)) + 1)
        with (i + 1 + Z.of_nat (List.length rest) + 1)
        by (simpl List.length; lia).
      destruct (Db.firstGap (i + 1) rest) as [e|];
        destruct IH as (He & Hnot & Hall); (split; [lia|split]);
        try (intros [Heq|Hin]; [lia|now apply Hnot]);
        intros j Hj; (destruct (Z.eq_dec j (i + 1)) as [->|Hj'];
                      [now left|right; apply Hall; lia]).
    + repeat split; [lia| |lia].
      intros [Heq|Hin]; [lia|]. specialize (Habove _ Hin). lia.
Qed.

(** X19.  The next book id is the smallest free one.  On ids in ascending order,
    none below 1, [getNextAvailableBookId] returns an id of at least 1 that
    no book has, and every smaller id from 1 on is taken: gaps left by
    deleted books are filled first. *)
Theorem getNextAvailableBookId_smallest_free (allBooks : list Z) :
  ascending allBooks ->
  (forall x, In x allBooks -> 1 <= x) ->
  let next := Db.getNextAvailableBookId allBooks in
  1 <= next /\ ~ In next allBooks /\ forall j, 1 <= j < next -> In j allBooks.
Proof.
  intros Hasc Hlow. cbv zeta. unfold Db.getNextAvailableBookId.
  destruct allBooks as [|x rest].
  - simpl. repeat split; [lia|tauto|lia].
  - replace (Z.of_nat (List.length (x :: rest)) =? 0) with false
      by (symmetry; apply Z.eqb_neq; simpl List.length; lia).
    exact (firstGap_spec (x :: rest) 0 Hasc Hlow).
Qed.

Lemma getNextAvailableBookId_smallest_free_witness :
  ascending [1; 2; 4; 7] /\
  Db.getNextAvailableBookId [1; 2; 4; 7] = 3 /\
  ~ In (Db.getNextAvailableBookId [1; 2; 4; 7]) [1; 2; 4; 7].
Proof.
  assert (Hasc : ascending [1; 2; 4; 7]) by (simpl; lia).
  assert (Hlow : forall x, In x [1; 2; 4; 7] -> 1 <= x)
    by (intros x Hx; simpl in Hx; lia).
  split; [exact Hasc|]. split; [reflexivity|].
  exact (proj1 (proj2 (getNextAvailableBookId_smallest_free [1; 2; 4; 7] Hasc Hlow))).
Defined.

(* ================================================================== *)
(** * The chapter list of a container *)

Lemma tocStep_loop (spineGet : string -> bool) (toc : list EpubAdapter.NavItem) :
  forall st : EpubAdapter.ExtractLoop,
    let st' := fold_left (EpubAdapter.tocStep spineGet) toc st in
    map title (EpubAdapter.ex_chapters st') =
      map title (EpubAdapter.ex_chapters st) ++
      map EpubAdapter.label (validEntries spineGet toc) /\
    map href (EpubAdapter.ex_chapters st') =
      map href (EpubAdapter.ex_chapters st) ++
      map (fun item => Some (EpubAdapter.nav_href item)) (validEntries spineGet toc) /\
    (EpubAdapter.validChapterIndex st =
       Z.of_nat (List.length (EpubAdapter.ex_chapters st)) ->
     (forall (i : nat) c, nth_error (EpubAdapter.ex_chapters st) i = Some c ->
        id c = Z.of_nat i /\ layers c = [] /\ isLoaded c = false) ->
     forall (i : nat) c, nth_error (EpubAdapter.ex_chapters st') i = Some c ->
        id c = Z.of_nat i /\ layers c = [] /\ isLoaded c = false).
Proof.
  induction toc as [|item toc IH]; intros st; cbv zeta.
  - simpl. rewrite !app_nil_r. split; [reflexivity|split; [reflexivity|]].
    intros _ Hold. exact Hold.
  - simpl fold_left. unfold validEntries. simpl filter. fold (validEntries spineGet toc).
    destruct (spineGet (EpubAdapter.nav_href item)) eqn:Hget.
    + assert (Hstep : EpubAdapter.tocStep spineGet st item =
                      EpubAdapter.mkExtract
                        (EpubAdapter.ex_chapters st ++
                         [mkChapter (EpubAdapter.validChapterIndex st)
                                    (EpubAdapter.label item) [] false
                                    (Some (EpubAdapter.nav_href item))])
                        (EpubAdapter.validChapterIndex st + 1))
        by (unfold EpubAdapter.tocStep; rewrite Hget; reflexivity).
      rewrite Hstep. specialize (IH (EpubAdapter.mkExtract
                        (EpubAdapter.ex_chapters st ++
                         [mkChapter (EpubAdapter.validChapterIndex st)
                                    (EpubAdapter.label item) [] false
                                    (Some (EpubAdapter.nav_href item))])
                        (EpubAdapter.validChapterIndex st + 1))).
      cbv zeta in IH. cbn [EpubAdapter.ex_chapters EpubAdapter.validChapterIndex] in IH.
      destruct IH as (Ht & Hh & Hid). split; [|split].
      * rewrite Ht, map_app, <- app_assoc. reflexivity.
      * rewrite Hh, map_app, <- app_assoc. reflexivity.
      * intros Hidx Hold. apply Hid.
        -- rewrite length_app. simpl List.length. lia.
        -- intros i c Hi.
           destruct (Nat.lt_ge_cases i (List.length (EpubAdapter.ex_chapters st)))
             as [Hlt|Hge].
           ++ rewrite nth_error_app1 in Hi by exact Hlt. now apply Hold.
           ++ rewrite nth_error_app2 in Hi by exact Hge.
              destruct (i - List.length (EpubAdapter.ex_chapters st))%nat as [|n] eqn:E.
              ** injection Hi as <-. simpl. repeat split. lia.
              ** destruct n; discriminate.
    + assert (Hstep : EpubAdapter.tocStep spineGet st item = st)
        by (unfold EpubAdapter.tocStep; rewrite Hget; reflexivity).
      rewrite Hstep. apply IH.
Qed.

Lemma spineStep_loop {A : Type} (spineItems : list A) :
  forall st : EpubAdapter.ExtractLoop,
    let st' := fold_left EpubAdapter.spineStep spineItems st in
    List.length (EpubAdapter.ex_chapters st') =
      (List.length (EpubAdapter.ex_chapters st) + List.length spineItems)%nat /\
    (EpubAdapter.validChapterIndex st =
       Z.of_nat (List.length (EpubAdapter.ex_chapters st)) ->
     (forall (i : nat) c, nth_error (EpubAdapter.ex_chapters st) i = Some c ->
        id c = Z.of_nat i /\ layers c = [] /\ isLoaded c = false /\ href c = None /\
        title c = String.append "Chapter " (showNumber (Z.of_nat i + 1))) ->
     forall (i : nat) c, nth_error (EpubAdapter.ex_chapters st') i = Some c ->
        id c = Z.of_nat i /\ layers c = [] /\ isLoaded c = false /\ href c = None /\
        title c = String.append "Chapter " (showNumber (Z.of_nat i + 1))).
Proof.
  induction spineItems as [|item rest IH]; intros st; cbv zeta.
  - simpl. split; [lia|auto].
  - simpl fold_left.
    assert (Hstep : EpubAdapter.ex_chapters (EpubAdapter.spineStep st item) =
                    EpubAdapter.ex_chapters st ++
                    [mkChapter (EpubAdapter.validChapterIndex st)
                               (String.append "Chapter "
                                  (showNumber (EpubAdapter.validChapterIndex st + 1)))
                               [] false None]) by reflexivity.
    assert (Hnext : EpubAdapter.validChapterIndex (EpubAdapter.spineStep st item) =
                    EpubAdapter.validChapterIndex st + 1) by reflexivity.
    specialize (IH (EpubAdapter.spineStep st item)). cbv zeta in IH.
    destruct IH as (Hlen & Hid).
    rewrite Hstep in Hlen, Hid. rewrite Hnext in Hid.
    split.
    + rewrite Hlen, length_app. simpl List.length. lia.
    + intros Hidx Hold. apply Hid.
      * rewrite length_app. simpl List.length. lia.
      * intros i c Hi.
        destruct (Nat.lt_ge_cases i (List.length (EpubAdapter.ex_chapters st)))
          as [Hlt|Hge].
        -- rewrite nth_error_app1 in Hi by exact Hlt. now apply Hold.
        -- rewrite nth_error_app2 in Hi by exact Hge.
           destruct (i - List.length (EpubAdapter.ex_chapters st))%nat as [|n] eqn:E.
           ++ injection Hi as <-. simpl.
              assert (Hi' : Z.of_nat i = EpubAdapter.validChapterIndex st) by lia.
              rewrite Hi'. now repeat split.
           ++ destruct n; discriminate.
Qed.

(** X20.  The chapter list of a container.  Whatever the table of contents, the
    chapter at position [i] has id [i], no layers and is not loaded: an
    entry the spine does not have is dropped without leaving a gap in the
    ids.  When the spine has some entry of the table of contents, the
    chapters are these entries in order, each with its label as title and
    its href; when it has none, there is one chapter per spine item, titled
    by its position counted from one and with no href. *)
Theorem extractChapters_chapters {A : Type} (spineGet : string -> bool)
    (toc : list EpubAdapter.NavItem) (spineItems : list A) :
  let chapters := EpubAdapter.extractChapters spineGet toc spineItems in
  let valid := validEntries spineGet toc in
  (forall (i : nat) c, nth_error chapters i = Some c ->
     id c = Z.of_nat i /\ layers c = [] /\ isLoaded c = false) /\
  (valid <> [] ->
     map title chapters = map EpubAdapter.label valid /\
     map href chapters = map (fun item => Some (EpubAdapter.nav_href item)) valid) /\
  (valid = [] ->
     List.length chapters = List.length spineItems /\
     forall (i : nat) c, nth_error chapters i = Some c ->
       href c = None /\
       title c = String.append "Chapter " (showNumber (Z.of_nat i + 1))).
Proof.
  cbv zeta. unfold EpubAdapter.extractChapters.
  pose proof (tocStep_loop spineGet toc (EpubAdapter.mkExtract [] 0)) as Htoc.
  cbv zeta in Htoc. cbn [EpubAdapter.ex_chapters EpubAdapter.validChapterIndex] in Htoc.
  simpl map in Htoc. simpl app in Htoc.
  destruct Htoc as (Ht & Hh & Hid).
  specialize (Hid eq_refl).
  assert (Hid' : forall (i : nat) c,
             nth_error (EpubAdapter.ex_chapters
                          (fold_left (EpubAdapter.tocStep spineGet) toc
                                     (EpubAdapter.mkExtract [] 0))) i = Some c ->
             id c = Z.of_nat i /\ layers c = [] /\ isLoaded c = false).
  { apply Hid. intros i c Hi. destruct i; discriminate. }
  clear Hid.
  set (found := EpubAdapter.ex_chapters _) in *.
  assert (Hlen : List.length found = List.length (validEntries spineGet toc)).
  { rewrite <- (length_map title found), Ht, length_map. reflexivity. }
  destruct (Z.eqb_spec (Z.of_nat (List.length found)) 0) as [Hz|Hnz].
  - assert (Hnil : found = []) by (destruct found; [reflexivity|simpl in Hz; lia]).
    assert (Hvalid : validEntries spineGet toc = []).
    { destruct (validEntries spineGet toc); [reflexivity|].
      rewrite Hnil in Hlen. discriminate. }
    rewrite Hnil.
    pose proof (spineStep_loop spineItems (EpubAdapter.mkExtract [] 0)) as Hsp.
    cbv zeta in Hsp. cbn [EpubAdapter.ex_chapters EpubAdapter.validChapterIndex] in Hsp.
    destruct Hsp as (Hl & Hall). specialize (Hall eq_refl).
    assert (Hall' := Hall (fun i c Hi => match i, Hi with
                                          | O, H => ltac:(discriminate H)
                                          | S _, H => ltac:(discriminate H)
                                          end)).
    clear Hall. split; [|split].
    + intros i c Hi. destruct (Hall' i c Hi) as (H1 & H2 & H3 & _). auto.
    + intros Hne. contradiction.
    + intros _. split; [exact Hl|].
      intros i c Hi. destruct (Hall' i c Hi) as (_ & _ & _ & H4 & H5). auto.
  - split; [exact Hid'|split].
    + intros _. split; assumption.
    + intros Hvalid. rewrite Hvalid in Hlen. simpl in Hlen. lia.
Qed.

Lemma extractChapters_chapters_witness :
  validEntries Examples.spineGet3 Examples.toc3 <> [] /\
  map title (EpubAdapter.extractChapters Examples.spineGet3 Examples.toc3 [tt; tt])
  = ["Intro"; "End"] /\
  validEntries (fun _ => false) Examples.toc3 = [] /\
  List.length (EpubAdapter.extractChapters (fun _ => false) Examples.toc3 [tt; tt])
  = 2%nat.
Proof.
  assert (Hvalid : validEntries Examples.spineGet3 Examples.toc3 <> [])
    by (vm_compute; discriminate).
  assert (Hnone : validEntries (fun _ => false) Examples.toc3 = []) by reflexivity.
  split; [exact Hvalid|]. split.
  - exact (proj1 (proj1 (proj2 (extractChapters_chapters Examples.spineGet3
                                  Examples.toc3 [tt; tt])) Hvalid)).
  - split; [exact Hnone|].
    exact (proj1 (proj2 (proj2 (extractChapters_chapters (fun _ => false)
                                  Examples.toc3 [tt; tt])) Hnone)).
Defined.

(* ================================================================== *)
(** * The reader store *)

Lemma cache_loadChapter_throw (s : ChapterCache.State) (i : Z) (m : string) :
  ChapterCache.loadChapter s i = Throw m ->
  chapterAt (ChapterCache.book s) i = None.
Proof.
  unfold ChapterCache.loadChapter. intros H.
  destruct (format (ChapterCache.book s)).
  - apply epub_loadChapter_throws. now exists m.
  - apply txt_loadChapter_throws. now exists m.
Qed.

(** A read of a chapter of the book does not throw. *)
Lemma getChapter_in_range (i now : Z) (s : ChapterCache.State) :
  inRange (ChapterCache.book s) i ->
  exists ls, snd (ChapterCache.getChapter i now s) = Ok ls.
Proof.
  intros Hin.
  destruct (getChapter_cases i now s)
    as [(e & _ & ->)|[(_ & m & Hm & _)|(_ & ls & c & _ & _ & ->)]].
  - now exists (ChapterCache.entry_layers e).
  - apply cache_loadChapter_throw, chapterAt_none in Hm. contradiction.
  - now exists ls.
Qed.

Lemma inRange_guard (book : UnifiedBook) (i : Z) :
  (i <? 0) || (i >=? Z.of_nat (List.length (chapters book))) = false
  <-> inRange book i.
Proof.
  unfold inRange. rewrite orb_false_iff, Z.ltb_ge, Z.geb_leb, Z.leb_gt. tauto.
Qed.

(** A load of a chapter of the active book goes through the cache and
    moves the store to it. *)
Lemma store_load_ok (i now : Z) (st : ReaderStore.State)
    (cache : ChapterCache.State) :
  ReaderStore.activeBook st = true ->
  ReaderStore.chapterCache st = Some cache ->
  inRange (ChapterCache.book cache) i ->
  exists ls cache',
    ChapterCache.getChapter i now cache = (cache', Ok ls) /\
    ReaderStore.loadChapter i now st
    = (ReaderStore.mkStore true (Some cache') i ls false "", Ok tt).
Proof.
  intros Hact Hcache Hin. unfold ReaderStore.loadChapter.
  rewrite Hact, Hcache, (proj2 (inRange_guard _ _) Hin).
  destruct (getChapter_in_range i now cache Hin) as [ls Hls].
  destruct (ChapterCache.getChapter i now cache) as [cache' r].
  simpl in Hls. subst r. now exists ls, cache'.
Qed.

Lemma activeBookValue_some (st : ReaderStore.State) (book : UnifiedBook) :
  ReaderStore.activeBookValue st = Some book <->
  ReaderStore.activeBook st = true /\
  exists cache, ReaderStore.chapterCache st = Some cache /\
                ChapterCache.book cache = book.
Proof.
  unfold ReaderStore.activeBookValue.
  destruct (ReaderStore.activeBook st), (ReaderStore.chapterCache st) as [cache|];
    simpl; split.
  - intros [= <-]. split; [reflexivity|]. now exists cache.
  - intros (_ & c & [= <-] & <-). reflexivity.
  - discriminate.
  - intros (_ & c & H & _). discriminate.
  - discriminate.
  - intros (H & _). discriminate.
  - discriminate.
  - intros (H & _). discriminate.
Qed.

Lemma activeBookValue_none (st : ReaderStore.State) :
  ReaderStore.activeBookValue st = None ->
  forall i now, ReaderStore.loadChapter i now st
                = (st, Throw ReaderStore.noActiveBook).
Proof.
  unfold ReaderStore.activeBookValue, ReaderStore.loadChapter.
  destruct (ReaderStore.activeBook st), (ReaderStore.chapterCache st);
    simpl; intros H i now; try reflexivity. discriminate.
Qed.

(** X21.  The outcomes of [loadChapter] of the store.  It throws its first
    error exactly when no book is active and its second exactly when the id
    is outside the active book, both times before touching the store; for
    every chapter of the active book it succeeds: the cache and the
    adapters below it never make it fail. *)
Theorem store_loadChapter_outcomes (chapterId now : Z) (st : ReaderStore.State) :
  let r := snd (ReaderStore.loadChapter chapterId now st) in
  (r = Throw ReaderStore.noActiveBook <-> ReaderStore.activeBookValue st = None) /\
  (r = Throw ReaderStore.outOfRange <->
   exists book, ReaderStore.activeBookValue st = Some book /\
                ~ inRange book chapterId) /\
  (r = Ok tt <->
   exists book, ReaderStore.activeBookValue st = Some book /\
                inRange book chapterId) /\
  (r <> Ok tt -> fst (ReaderStore.loadChapter chapterId now st) = st).
Proof.
  cbv zeta.
  destruct (ReaderStore.activeBookValue st) as [book|] eqn:Hval.
  - destruct (proj1 (activeBookValue_some st book) Hval) as (Hact & cache & Hcache & Hbook).
    destruct ((chapterId <? 0)
              || (chapterId >=? Z.of_nat (List.length (chapters book)))) eqn:Hguard.
    + assert (Hout : ~ inRange book chapterId).
      { intros Hin. apply inRange_guard in Hin. congruence. }
      assert (Hload : ReaderStore.loadChapter chapterId now st
                      = (st, Throw ReaderStore.outOfRange)).
      { unfold ReaderStore.loadChapter. now rewrite Hact, Hcache, Hbook, Hguard. }
      rewrite Hload. simpl. repeat split; try discriminate; try reflexivity.
      * now exists book.
      * intros (b & [= <-] & Hin). contradiction.
    + apply inRange_guard in Hguard. rewrite <- Hbook in Hguard.
      destruct (store_load_ok chapterId now st cache Hact Hcache Hguard)
        as (ls & cache' & _ & ->).
      rewrite Hbook in Hguard. simpl. repeat split; try discriminate.
      * intros (b & [= <-] & Hout). contradiction.
      * now exists book.
      * congruence.
  - rewrite (activeBookValue_none st Hval). simpl.
    repeat split; try discriminate; try reflexivity.
    + intros (b & H & _). discriminate.
    + intros (b & H & _). discriminate.
Qed.

(** X22.  Turning pages.  With a book active and the store on one of its
    chapters, [nextChapter] on the last chapter and [prevChapter] on the
    first throw and leave the store as it is; anywhere else they succeed and
    move the position by exactly one chapter, showing the layers the cache
    returns for it. *)
Theorem store_navigation (now : Z) (st : ReaderStore.State)
    (cache : ChapterCache.State) :
  ReaderStore.activeBook st = true ->
  ReaderStore.chapterCache st = Some cache ->
  inRange (ChapterCache.book cache) (ReaderStore.currentChapterId st) ->
  let current := ReaderStore.currentChapterId st in
  let last := Z.of_nat (List.length (chapters (ChapterCache.book cache))) - 1 in
  (current = last ->
   ReaderStore.nextChapter now st = (st, Throw ReaderStore.atLast)) /\
  (current = 0 ->
   ReaderStore.prevChapter now st = (st, Throw ReaderStore.atFirst)) /\
  (current < last ->
   exists st', ReaderStore.nextChapter now st = (st', Ok tt) /\
     ReaderStore.currentChapterId st' = current + 1 /\
     Ok (ReaderStore.currentLayers st')
     = snd (ChapterCache.getChapter (current + 1) now cache)) /\
  (0 < current ->
   exists st', ReaderStore.prevChapter now st = (st', Ok tt) /\
     ReaderStore.currentChapterId st' = current - 1 /\
     Ok (ReaderStore.currentLayers st')
     = snd (ChapterCache.getChapter (current - 1) now cache)).
Proof.
  intros Hact Hcache Hin. cbv zeta.
  assert (Hval : ReaderStore.activeBookValue st = Some (ChapterCache.book cache)).
  { apply activeBookValue_some. split; [exact Hact|]. now exists cache. }
  unfold inRange in Hin.
  unfold ReaderStore.nextChapter, ReaderStore.prevChapter,
    ReaderStore.hasNextChapter, ReaderStore.hasPrevChapter.
  rewrite Hval. split; [|split; [|split]].
  - intros Hlast.
    replace (_ <? _) with false by (symmetry; apply Z.ltb_ge; lia). reflexivity.
  - intros Hfirst.
    replace (_ >? _) with false
      by (symmetry; rewrite Z.gtb_ltb; apply Z.ltb_ge; lia). reflexivity.
  - intros Hlt.
    replace (_ <? _) with true by (symmetry; apply Z.ltb_lt; lia). simpl negb.
    cbv iota.
    destruct (store_load_ok (ReaderStore.currentChapterId st + 1) now st cache
                Hact Hcache) as (ls & cache' & Hget & ->);
      [unfold inRange; lia|].
    eexists. split; [reflexivity|]. rewrite Hget. now split.
  - intros Hgt.
    replace (_ >? _) with true
      by (symmetry; rewrite Z.gtb_ltb; apply Z.ltb_lt; lia). simpl negb.
    cbv iota.
    destruct (store_load_ok (ReaderStore.currentChapterId st - 1) now st cache
                Hact Hcache) as (ls & cache' & Hget & ->);
      [unfold inRange; lia|].
    eexists. split; [reflexivity|]. rewrite Hget. now split.
Qed.

Lemma store_navigation_witness :
  let st := ReaderStore.setActiveBook Examples.book1 ReaderStore.initial in
  ReaderStore.nextChapter 1 (fst (ReaderStore.nextChapter 1 st))
  = (fst (ReaderStore.nextChapter 1 st), Throw ReaderStore.atLast) /\
  ReaderStore.prevChapter 1 st = (st, Throw ReaderStore.atFirst).
Proof.
  cbv zeta. split.
  - refine (proj1 (store_navigation 1
                     (fst (ReaderStore.nextChapter 1
                             (ReaderStore.setActiveBook Examples.book1
                                                        ReaderStore.initial)))
                     _ eq_refl eq_refl _) _).
    + unfold inRange. vm_compute. split; [discriminate|reflexivity].
    + vm_compute. reflexivity.
  - refine (proj1 (proj2 (store_navigation 1
                     (ReaderStore.setActiveBook Examples.book1 ReaderStore.initial)
                     (ChapterCache.create Examples.book1) eq_refl eq_refl _)) _).
    + unfold inRange. vm_compute. split; [discriminate|reflexivity].
    + reflexivity.
Defined.

Lemma loadChapter_positionOk (i now : Z) (st : ReaderStore.State) :
  positionOk st -> positionOk (fst (ReaderStore.loadChapter i now st)).
Proof.
  intros Hok. unfold ReaderStore.loadChapter.
  destruct (ReaderStore.activeBook st) eqn:Hact; [|exact Hok].
  destruct (ReaderStore.chapterCache st) as [cache|] eqn:Hcache; [|exact Hok].
  destruct ((i <? 0) || _) eqn:Hguard; [exact Hok|].
  apply inRange_guard in Hguard.
  pose proof (getChapter_chapter_count i now cache) as Hcount.
  destruct (ChapterCache.getChapter i now cache) as [cache' [ls|err]];
    simpl fst in *; unfold positionOk, ReaderStore.activeBookValue; simpl.
  - split; [unfold inRange in Hguard; lia|].
    intros book [= <-] _. unfold inRange in *. rewrite Hcount. exact Hguard.
  - destruct Hok as [Hpos Hrange]. split; [exact Hpos|].
    intros book [= <-] Hne. unfold inRange. rewrite Hcount.
    apply (Hrange (ChapterCache.book cache)).
    + apply activeBookValue_some. split; [exact Hact|]. now exists cache.
    + intros Hnil. apply Hne. apply length_zero_iff_nil.
      rewrite Hcount, Hnil. reflexivity.
Qed.

Lemma step_positionOk (st : ReaderStore.State) (o : ReaderStore.Op) :
  positionOk st -> positionOk (ReaderStore.step st o).
Proof.
  intros Hok. destruct o as [book|i now|now|now|]; simpl ReaderStore.step.
  - unfold positionOk, ReaderStore.activeBookValue. simpl. split; [lia|].
    intros b [= <-] Hne. unfold inRange.
    destruct (chapters book); [congruence|simpl List.length; lia].
  - now apply loadChapter_positionOk.
  - unfold ReaderStore.prevChapter.
    destruct (negb _); [exact Hok|now apply loadChapter_positionOk].
  - unfold ReaderStore.nextChapter.
    destruct (negb _); [exact Hok|now apply loadChapter_positionOk].
  - unfold positionOk, ReaderStore.activeBookValue. simpl. split; [lia|discriminate].
Qed.

(** X23.  The position never leaves the book.  After any run of calls to the
    store -- opening books, jumping to any id at all, turning pages,
    cleaning up -- the current chapter id is not negative and, when a book
    with chapters is active, is the id of one of them. *)
Theorem store_position_in_range (ops : list ReaderStore.Op) :
  positionOk (ReaderStore.run ops ReaderStore.initial).
Proof.
  unfold ReaderStore.run.
  assert (H0 : positionOk ReaderStore.initial).
  { unfold positionOk, ReaderStore.activeBookValue. simpl. split; [lia|discriminate]. }
  revert H0. generalize ReaderStore.initial.
  induction ops as [|o ops IH]; intros st Hok; [exact Hok|].
  simpl. apply IH. now apply step_positionOk.
Qed.

Lemma store_position_in_range_witness :
  let st := ReaderStore.run
              [ReaderStore.SetActiveBook Examples.book1;
               ReaderStore.GotoChapter 7 1;
               ReaderStore.NextChapter 2;
               ReaderStore.NextChapter 3]
              ReaderStore.initial in
  exists book,
    ReaderStore.activeBookValue st = Some book /\
    inRange book (ReaderStore.currentChapterId st).
Proof.
  cbv zeta. eexists. split; [vm_compute; reflexivity|].
  apply (proj2 (store_position_in_range
                  [ReaderStore.SetActiveBook Examples.book1;
                   ReaderStore.GotoChapter 7 1;
                   ReaderStore.NextChapter 2;
                   ReaderStore.NextChapter 3])).
  - vm_compute. reflexivity.
  - discriminate.
Defined.

(* ================================================================== *)
(** * Image paths *)

Lemma in_removelast {A : Type} (x : A) : forall l : list A,
  In x (removelast l) -> In x l.
Proof.
  induction l as [|y l IH]; simpl; [tauto|].
  destruct l as [|z l]; [simpl; tauto|].
  intros [->|H]; [now left|right; now apply IH].
Qed.

Lemma applySegment_loop (srcParts : list string) : forall (dirs parts : list string),
  (forall part, In part parts ->
     part <> "" /\
     (In part dirs \/ (In part srcParts /\ part <> ".." /\ part <> "."))) ->
  forall part, In part (fold_left EpubAdapter.applySegment srcParts parts) ->
     part <> "" /\
     (In part dirs \/ (In part srcParts /\ part <> ".." /\ part <> ".")).
Proof.
  induction srcParts as [|seg rest IH]; intros dirs parts Hparts part Hin;
    [now apply Hparts|].
  simpl fold_left in Hin.
  assert (Hnext : forall q, In q (EpubAdapter.applySegment parts seg) ->
            q <> "" /\
            ((In q dirs \/ q = seg /\ q <> ".." /\ q <> ".") \/
             (In q rest /\ q <> ".." /\ q <> "."))).
  { intros q Hq. unfold EpubAdapter.applySegment in Hq.
    destruct (String.eqb_spec seg "..") as [Hdd|Hdd].
    - apply in_removelast in Hq. destruct (Hparts q Hq) as (Hne & [Hd|(Hs & H1 & H2)]).
      + split; [exact Hne|]. left. now left.
      + split; [exact Hne|]. destruct Hs as [<-|Hs]; [congruence|]. now right.
    - destruct (String.eqb_spec seg ".") as [Hd|Hd];
        destruct (String.eqb_spec seg "") as [He|He]; simpl in Hq;
        try (destruct (Hparts q Hq) as (Hne & [Hdir|(Hs & H1 & H2)]);
             (split; [exact Hne|]);
             [left; now left|destruct Hs as [<-|Hs]; [left; right; auto|now right]]).
      apply in_app_or in Hq. destruct Hq as [Hq|[<-|[]]].
      + destruct (Hparts q Hq) as (Hne & [Hdir|(Hs & H1 & H2)]);
          (split; [exact Hne|]);
          [left; now left|destruct Hs as [<-|Hs]; [left; right; auto|now right]].
      + split; [exact He|]. left. right. auto. }
  destruct (IH (dirs ++ (if String.eqb seg ".." || String.eqb seg "." then [] else [seg]))
               (EpubAdapter.applySegment parts seg)) with (part := part)
    as (Hne & Hcase).
  - intros q Hq. destruct (Hnext q Hq) as (Hne & [[Hd|(-> & H1 & H2)]|Hr]).
    + split; [exact Hne|]. left. apply in_or_app. now left.
    + split; [exact Hne|]. left. apply in_or_app. right.
      destruct (String.eqb_spec seg ".."); [congruence|].
      destruct (String.eqb_spec seg "."); [congruence|]. now left.
    + split; [exact Hne|]. now right.
  - exact Hin.
  - split; [exact Hne|]. destruct Hcase as [Hd|(Hr & H1 & H2)].
    + apply in_app_or in Hd. destruct Hd as [Hd|Hd]; [now left|].
      destruct (String.eqb_spec seg ".."); [destruct Hd|].
      destruct (String.eqb_spec seg "."); [destruct Hd|].
      destruct Hd as [<-|[]]. right. split; [now left|auto].
    + right. split; [now right|auto].
Qed.

Lemma truthy_nonempty (s : string) : JS.truthy s = true -> s <> "".
Proof. destruct s; [discriminate|intros _; discriminate]. Qed.

(** X24.  Image paths.  Resolving an image source throws exactly for an
    external URL and for a relative source in a section without a path.
    Every path it yields is absolute.  The path of a relative source is
    made of segments none of which is empty, each one a directory of the
    section's path or a segment of the source other than [.] and [..]. *)
Theorem resolvePath_paths (sec : SpineSection) (src : string) :
  (EpubAdapter.resolvePath sec src = None <->
   EpubAdapter.isExternal src = true \/
   (JS.startsWith src "/" = false /\ EpubAdapter.basePath sec = None)) /\
  (forall path, EpubAdapter.resolvePath sec src = Some path ->
     JS.startsWith path "/" = true) /\
  (forall base,
     EpubAdapter.isExternal src = false -> JS.startsWith src "/" = false ->
     EpubAdapter.basePath sec = Some base ->
     exists parts,
       EpubAdapter.resolvePath sec src
       = Some (String.append "/" (JS.join "/" parts)) /\
       forall part, In part parts ->
         part <> "" /\
         (In part (sectionDirs base) \/
          (In part (JS.split "/" src) /\ part <> ".." /\ part <> "."))).
Proof.
  unfold EpubAdapter.resolvePath.
  destruct (EpubAdapter.isExternal src) eqn:Hext.
  { split; [|split].
    - split; [now left|reflexivity].
    - discriminate.
    - discriminate. }
  destruct (JS.startsWith src "/") eqn:Habs.
  { split; [|split].
    - split; [discriminate|]. intros [H|[H _]]; discriminate.
    - intros path [= <-]. exact Habs.
    - discriminate. }
  destruct (EpubAdapter.basePath sec) as [base|] eqn:Hbase.
  - split; [|split].
    + split; [discriminate|]. intros [H|[_ H]]; discriminate.
    + intros path [= <-]. unfold JS.startsWith. simpl.
      now destruct (JS.join _ _).
    + intros b _ _ [= <-]. eexists. split; [reflexivity|].
      apply applySegment_loop. intros part Hin. split.
      * apply filter_In in Hin. now apply truthy_nonempty.
      * now left.
  - split; [|split].
    + split; [now right|reflexivity].
    + discriminate.
    + discriminate.
Qed.

Lemma resolvePath_paths_witness :
  exists parts,
    EpubAdapter.resolvePath Examples.sec1 "../img/./a.png"
    = Some (String.append "/" (JS.join "/" parts)) /\
    forall part, In part parts ->
      part <> "" /\
      (In part (sectionDirs "/OEBPS/text/ch1.xhtml") \/
       (In part (JS.split "/" "../img/./a.png") /\ part <> ".." /\ part <> ".")).
Proof.
  exact (proj2 (proj2 (resolvePath_paths Examples.sec1 "../img/./a.png"))
           "/OEBPS/text/ch1.xhtml" eq_refl eq_refl eq_refl).
Defined.

(* ================================================================== *)
(** * Titles from file names *)








